(** * Local-LLM adapter and model selection: a shallow embedding

    The development follows the TypeScript sources:
    - [modelCatalog]     : capability catalog, task classifier, scoring;
    - [ModelSelectionService] : recommendation policy and confidence model;
    - [LocalLLMAdapter]  : retrying request execution and reply normalisation;
    - [OllamaProvider]   : line-delimited stream parser, model-presence
                           check and byte-size formatting.

    Conventions.
    - A JavaScript string is a [string] whose characters are its code units;
      the model covers code units below 256, on which [toLowerCase] keeps
      the length.
    - JavaScript numbers that carry scores and counters are integers ([nat],
      [Z], [N]); numbers that are computed with (confidences, formatted
      sizes) are IEEE doubles, each held as the rational it denotes and
      rounded after every operation.
    - Asynchronous calls are modelled by their outcome; what a call does to
      the outside world is recorded in an explicit trace. *)

From Stdlib Require Import List String Ascii Bool Arith ZArith NArith QArith
  Qminmax Qround Qabs Qpower Qreduction Lqa Lia Sorting.Sorted Permutation
  DecimalString.
Import ListNotations.

Local Open Scope string_scope.

(** ** JavaScript string primitives *)

Module JsString.

(** [String.prototype.toLowerCase] on one code unit below 256: the ASCII
    capitals and the Latin-1 capitals (U+00C0..U+00DE without U+00D7) move
    up by 32, every other unit is unchanged. *)
Definition lower_unit (c : ascii) : ascii :=
  let n := N_of_ascii c in
  if ((65 <=? n) && (n <=? 90) ||
      (192 <=? n) && (n <=? 222) && negb (n =? 215))%N
  then ascii_of_N (n + 32)
  else c.

Fixpoint toLowerCase (s : string) : string :=
  match s with
  | EmptyString => EmptyString
  | String c t => String (lower_unit c) (toLowerCase t)
  end.

(** [s.startsWith(p)] *)
Definition startsWith (s p : string) : bool := String.prefix p s.

(** [s.includes(p)]: [p] is a prefix of some suffix of [s]. *)
Fixpoint includes (s p : string) : bool :=
  String.prefix p s ||
  match s with
  | EmptyString => false
  | String _ t => includes t p
  end.

(** [xs.join(sep)] *)
Definition join (sep : string) (xs : list string) : string :=
  String.concat sep xs.

(** [xs.includes(x)] on an array of strings. *)
Definition array_includes (xs : list string) (x : string) : bool :=
  existsb (String.eqb x) xs.

(** A natural number printed in decimal, as string interpolation does. *)
Definition show_nat (n : nat) : string :=
  NilEmpty.string_of_uint (Nat.to_uint n).

(** The double-quote character, for messages that quote a name. *)
Definition dquote : string := String (ascii_of_nat 34) EmptyString.

(** Truthiness of a string: every string but the empty one. *)
Definition truthy (s : string) : bool :=
  match s with EmptyString => false | _ => true end.

Definition is_space (c : ascii) : bool :=
  let n := N_of_ascii c in
  ((n =? 32) || (9 <=? n) && (n <=? 13) || (n =? 160))%N.

Fixpoint trimStart (s : string) : string :=
  match s with
  | String c t => if is_space c then trimStart t else s
  | EmptyString => EmptyString
  end.

(** Is [s.trim()] the empty string?  Only the emptiness of the trimmed
    string is ever inspected by the sources. *)
Definition blank (s : string) : bool := negb (truthy (trimStart s)).

End JsString.
Import JsString.

(** ** JavaScript numbers

    A JavaScript number is an IEEE 754 double.  A finite double is the
    rational it denotes, and an arithmetic operation is the exact
    operation followed by rounding to the nearest double, ties going to
    the even significand.  Infinities and NaN are not part of the model:
    none of the computations below reaches them. *)

Module Double.
Local Open Scope Q_scope.

(** The binade of a positive rational: the [e] with [2^e <= x < 2^(e+1)]. *)
Definition binade (x : Q) : Z :=
  let e0 := (Z.log2 (Qnum x) - Z.log2 (Zpos (Qden x)))%Z in
  if Qle_bool (2 ^ e0) x then e0 else (e0 - 1)%Z.

(** The nearest integer, a tie going to the even one. *)
Definition nearest_even (s : Q) : Z :=
  let f := Qfloor s in
  match Qcompare (s - inject_Z f) (1 # 2) with
  | Lt => f
  | Gt => (f + 1)%Z
  | Eq => if Z.even f then f else (f + 1)%Z
  end.

(** The exponent of the unit in the last place: 53 significant bits, and
    never below the spacing [2^-1074] of the subnormal numbers. *)
Definition ulp_exponent (x : Q) : Z := Z.max (binade (Qabs x) - 52) (-1074).

Definition round (x : Q) : Q :=
  if Qeq_bool x 0 then 0
  else
    let u := ulp_exponent x in
    Qred (inject_Z (nearest_even (x / 2 ^ u)) * 2 ^ u).

(** A decimal literal of the sources denotes the nearest double. *)
Definition lit (x : Q) : Q := round x.

(** A count ([length], a byte size) as a number; exact below [2^53]. *)
Definition of_nat (n : nat) : Q := round (inject_Z (Z.of_nat n)).
Definition of_N (n : N) : Q := round (inject_Z (Z.of_N n)).

Definition add (x y : Q) : Q := round (x + y).
Definition mul (x y : Q) : Q := round (x * y).
Definition div (x y : Q) : Q := round (x / y).

(** [Math.floor] and [Math.round] of a finite number; both are exact, and
    [Math.round] sends a half upwards. *)
Definition Math_floor (x : Q) : Z := Qfloor x.
Definition Math_round (x : Q) : Z := Qfloor (x + (1 # 2)).

(** [Math.min] and [a > b] on finite numbers. *)
Definition Math_min (x y : Q) : Q := Qmin x y.
Definition gtb (a b : Q) : bool := negb (Qle_bool a b).

(** *** [Number::toString]

    The digits [s], their number [k] and the decimal exponent [n] are
    those of the shortest decimal that reads back as the number; among
    several of that length the closest one is taken. *)

Definition show_Z (z : Z) : string :=
  NilEmpty.string_of_uint (N.to_uint (Z.to_N z)).

(** The [n] with [10^(n-1) <= x < 10^n], for a positive [x]. *)
Definition decimal_exponent (x : Q) : Z :=
  let guess := (binade x * 30103 / 100000)%Z in
  if Qle_bool (10 ^ (guess + 1)) x then (guess + 2)%Z
  else if Qle_bool (10 ^ guess) x then (guess + 1)%Z
  else guess.

Record Digits := { dg_s : Z; dg_n : Z }.

Definition digits_value (k : Z) (d : Digits) : Q :=
  inject_Z (dg_s d) * 10 ^ (dg_n d - k).

(** The [k]-digit decimals next to [x] that read back as [x]. *)
Definition candidates (x : Q) (k : Z) : list Digits :=
  let n10 := decimal_exponent x in
  filter (fun d =>
            (10 ^ (k - 1) <=? dg_s d)%Z && (dg_s d <? 10 ^ k)%Z &&
            Qeq_bool (round (digits_value k d)) x)
         (flat_map (fun n =>
                      let lo := Qfloor (x / 10 ^ (n - k)) in
                      [ {| dg_s := lo; dg_n := n |};
                        {| dg_s := (lo + 1)%Z; dg_n := n |} ])
                   [n10; (n10 + 1)%Z]).

(** Of two candidates, the one closer to [x]; the even one on a tie. *)
Definition closer (x : Q) (k : Z) (a b : Digits) : Digits :=
  let da := Qabs (digits_value k a - x) in
  let db := Qabs (digits_value k b - x) in
  match Qcompare da db with
  | Lt => a
  | Gt => b
  | Eq => if Z.even (dg_s a) then a else b
  end.

(** Seventeen digits always suffice for a double. *)
Fixpoint shortest (x : Q) (k : Z) (fuel : nat) : option (Z * Digits) :=
  match fuel with
  | O => None
  | S fuel' =>
      match candidates x k with
      | d :: ds => Some (k, fold_left (closer x k) ds d)
      | [] => shortest x (k + 1)%Z fuel'
      end
  end.

Fixpoint zeros (n : nat) : string :=
  match n with O => EmptyString | S n' => String "0" (zeros n') end.

Definition take (n : nat) (s : string) : string := String.substring 0 n s.
Definition drop (n : nat) (s : string) : string :=
  String.substring n (String.length s - n) s.

Definition show_positive (x : Q) : string :=
  match shortest x 1 17 with
  | None => EmptyString
  | Some (k, d) =>
      let digits := show_Z (dg_s d) in
      let n := dg_n d in
      if ((k <=? n) && (n <=? 21))%Z then
        digits ++ zeros (Z.to_nat (n - k))
      else if ((0 <? n) && (n <=? 21))%Z then
        take (Z.to_nat n) digits ++ "." ++ drop (Z.to_nat n) digits
      else if ((-6 <? n) && (n <=? 0))%Z then
        "0." ++ zeros (Z.to_nat (- n)) ++ digits
      else
        let e := (n - 1)%Z in
        let exponent :=
          (if (0 <=? e)%Z then "+" else "-") ++ show_Z (Z.abs e) in
        if (k =? 1)%Z then digits ++ "e" ++ exponent
        else take 1 digits ++ "." ++ drop 1 digits ++ "e" ++ exponent
  end.

Definition Number_toString (x : Q) : string :=
  match Qcompare x 0 with
  | Eq => "0"
  | Gt => show_positive x
  | Lt => "-" ++ show_positive (- x)
  end.

End Double.

(** ** modelCatalog.ts *)

Inductive Speed := fast | medium | slow.
Inductive Quality := basic | good | excellent.
Inductive MemoryUsage := low | mem_medium | high.

Inductive ModelStrength :=
| coding | general | lightweight | math | reasoning
| conversation | analysis | creative | multilingual.

Inductive TaskType :=
| code_generation | code_review | debugging | documentation | general_chat
| file_analysis | project_planning | quick_questions | complex_reasoning
| creative_writing.

Scheme Equality for Speed.
Scheme Equality for Quality.
Scheme Equality for MemoryUsage.
Scheme Equality for ModelStrength.
Scheme Equality for TaskType.

Record Performance := {
  speed : Speed;
  quality : Quality;
  memoryUsage : MemoryUsage
}.

Record ModelCapabilities := {
  name : string;
  displayName : string;
  sizeGB : Q;
  performance : Performance;
  strengths : list ModelStrength;
  description : string;
  useCases : list string
}.

(** [Partial<ModelCapabilities>] as the preference tables use it: only the
    strengths and the performance triad are ever given. *)
Record Preferences := {
  pref_strengths : option (list ModelStrength);
  pref_performance : option Performance
}.

Record ProjectContext := {
  hasCodeFiles : bool;
  primaryLanguage : option string;
  projectType : option string;
  fileTypes : option (list string)
}.

(** [projectContext?.hasCodeFiles] as a condition. *)
Definition ctx_hasCodeFiles (pc : option ProjectContext) : bool :=
  match pc with Some c => hasCodeFiles c | None => false end.

Definition analyzeTaskType (prompt : string) (projectContext : option ProjectContext)
  : TaskType :=
  let lowerPrompt := toLowerCase prompt in
  if includes lowerPrompt "debug" || includes lowerPrompt "error"
     || includes lowerPrompt "fix" then debugging
  else if includes lowerPrompt "code" || includes lowerPrompt "function"
     || includes lowerPrompt "implement" || includes lowerPrompt "write"
  then code_generation
  else if includes lowerPrompt "review" || includes lowerPrompt "improve"
     || includes lowerPrompt "refactor" then code_review
  else if includes lowerPrompt "document" || includes lowerPrompt "readme"
     || includes lowerPrompt "comment" then documentation
  else if includes lowerPrompt "analyze" || includes lowerPrompt "examine"
     || includes lowerPrompt "explain"
  then (if ctx_hasCodeFiles projectContext then file_analysis else general_chat)
  else if (String.length lowerPrompt <? 50)%nat &&
          (includes lowerPrompt "?" || startsWith lowerPrompt "what"
           || startsWith lowerPrompt "how" || startsWith lowerPrompt "why")
  then quick_questions
  else if includes lowerPrompt "write" || includes lowerPrompt "create"
     || includes lowerPrompt "generate" && negb (includes lowerPrompt "code")
  then creative_writing
  else if includes lowerPrompt "plan" || includes lowerPrompt "architecture"
     || includes lowerPrompt "design" then project_planning
  else if includes lowerPrompt "calculate" || includes lowerPrompt "solve"
     || includes lowerPrompt "math" then complex_reasoning
  else general_chat.

(** *** The classification rules as a priority list

    This second description follows the wording of the specification: an
    ordered list of rules, each a test on the prompt and a verdict, scanned
    for the first rule whose test succeeds. *)

Module PriorityRules.








End PriorityRules.


(** *** The catalog *)

Definition mkPerformance (s : Speed) (q : Quality) (m : MemoryUsage) :=
  {| speed := s; quality := q; memoryUsage := m |}.

Definition qwen3_coder : ModelCapabilities :=
  {| name := "qwen3-coder:latest";
     displayName := "Qwen3 Coder";
     sizeGB := 18;
     performance := mkPerformance medium excellent high;
     strengths := [coding; analysis; reasoning];
     description :=
       "Specialized coding model with excellent programming capabilities";
     useCases := ["Code generation and refactoring"; "Complex debugging";
                  "Code architecture planning"; "Technical documentation"] |}.

Definition gpt_oss : ModelCapabilities :=
  {| name := "gpt-oss:latest";
     displayName := "GPT-OSS 20B";
     sizeGB := 13;
     performance := mkPerformance slow excellent high;
     strengths := [general; reasoning; creative; coding];
     description :=
       "Large general-purpose model with strong reasoning and creative capabilities";
     useCases := ["Complex problem solving"; "Creative writing and ideation";
                  "Advanced code generation"; "Research and analysis"] |}.

Definition llama3_1 : ModelCapabilities :=
  {| name := "llama3.1:latest";
     displayName := "Llama 3.1";
     sizeGB := 4.9;
     performance := mkPerformance medium good mem_medium;
     strengths := [general; conversation; coding; reasoning];
     description := "Balanced general-purpose model, good for most tasks";
     useCases := ["General conversations"; "Basic to intermediate coding";
                  "File analysis"; "Documentation help"] |}.

Definition gemma3_4b : ModelCapabilities :=
  {| name := "gemma3:4b";
     displayName := "Gemma 3 4B";
     sizeGB := 3.3;
     performance := mkPerformance medium good mem_medium;
     strengths := [math; reasoning; general];
     description :=
       "Efficient model with strong mathematical and logical reasoning";
     useCases := ["Mathematical calculations"; "Logical problem solving";
                  "Data analysis"; "Quick reasoning tasks"] |}.

Definition phi3_mini : ModelCapabilities :=
  {| name := "phi3:mini";
     displayName := "Phi-3 Mini";
     sizeGB := 2.2;
     performance := mkPerformance fast good low;
     strengths := [lightweight; conversation; reasoning];
     description := "Compact but capable model, excellent for quick responses";
     useCases := ["Quick questions and answers"; "Basic code assistance";
                  "Fast iterations"; "Low-resource environments"] |}.

Definition tinyllama : ModelCapabilities :=
  {| name := "tinyllama:latest";
     displayName := "TinyLlama";
     sizeGB := 0.6;
     performance := mkPerformance fast basic low;
     strengths := [lightweight; conversation];
     description :=
       "Ultra-lightweight model for basic tasks and quick responses";
     useCases := ["Simple questions"; "Basic text processing";
                  "Ultra-fast responses"; "Resource-constrained scenarios"] |}.

Definition MODEL_CATALOG : list ModelCapabilities :=
  [qwen3_coder; gpt_oss; llama3_1; gemma3_4b; phi3_mini; tinyllama].

Definition mkPreferences (ss : list ModelStrength) (p : Performance) :=
  {| pref_strengths := Some ss; pref_performance := Some p |}.

Definition TASK_TO_MODEL_PREFERENCES (t : TaskType) : Preferences :=
  match t with
  | code_generation =>
      mkPreferences [coding] (mkPerformance medium excellent mem_medium)
  | code_review =>
      mkPreferences [coding; analysis] (mkPerformance medium good mem_medium)
  | debugging =>
      mkPreferences [coding; reasoning] (mkPerformance medium excellent mem_medium)
  | documentation =>
      mkPreferences [general; coding] (mkPerformance medium good mem_medium)
  | general_chat =>
      mkPreferences [general; conversation] (mkPerformance fast good low)
  | file_analysis =>
      mkPreferences [analysis; coding] (mkPerformance medium good mem_medium)
  | project_planning =>
      mkPreferences [reasoning; general] (mkPerformance medium excellent mem_medium)
  | quick_questions =>
      mkPreferences [lightweight] (mkPerformance fast basic low)
  | complex_reasoning =>
      mkPreferences [reasoning; math] (mkPerformance slow excellent high)
  | creative_writing =>
      mkPreferences [creative; general] (mkPerformance medium excellent mem_medium)
  end.

(** [arr.includes(s)] on an array of strength tags. *)
Definition has_strength (ss : list ModelStrength) (s : ModelStrength) : bool :=
  existsb (ModelStrength_beq s) ss.

(** [model.strengths.filter(s => wanted.includes(s)).length] *)
Definition matchingStrengths (model : ModelCapabilities)
    (wanted : list ModelStrength) : nat :=
  List.length (filter (has_strength wanted) (strengths model)).

(** The body shared by the two copies of [scoreModelForTask]; they differ
    only in the table the preferences are read from. *)
Definition score_against (preferences : Preferences) (model : ModelCapabilities)
  : Z :=
  let score := 0%Z in
  let score :=
    match pref_strengths preferences with
    | Some wanted => (score + Z.of_nat (matchingStrengths model wanted) * 3)%Z
    | None => score
    end in
  let score :=
    match pref_performance preferences with
    | Some p =>
        (score + if Quality_beq (quality p) (quality (performance model))
                 then 2 else 0)%Z
    | None => score
    end in
  let score :=
    match pref_performance preferences with
    | Some p =>
        (score + if Speed_beq (speed p) (speed (performance model))
                 then 1 else 0)%Z
    | None => score
    end in
  score.

Definition scoreModelForTask (model : ModelCapabilities) (taskType : TaskType)
  : Z :=
  score_against (TASK_TO_MODEL_PREFERENCES taskType) model.

(** *** [Array.prototype.sort] with a comparator

    The sort is stable; it is modelled by the stable insertion sort, which
    returns the same array as any other stable sort for a comparator
    induced by a total preorder. *)
Section ArraySort.
Context {A : Type} (cmp : A -> A -> Z).

Fixpoint sort_insert (x : A) (l : list A) : list A :=
  match l with
  | [] => [x]
  | y :: ys => if (cmp x y <=? 0)%Z then x :: l else y :: sort_insert x ys
  end.

Fixpoint array_sort (l : list A) : list A :=
  match l with
  | [] => []
  | x :: xs => sort_insert x (array_sort xs)
  end.
End ArraySort.

Record Scored := { s_model : ModelCapabilities; s_score : Z }.

(** [(a, b) => b.score - a.score] *)
Definition by_score_desc (a b : Scored) : Z := (s_score b - s_score a)%Z.

(** Descending order of the scores attached to the entries. *)
Definition score_desc (a b : Scored) : Prop := (s_score b <= s_score a)%Z.

Definition recommendModel (taskType : TaskType) (availableModels : list string)
  : option ModelCapabilities :=
  let candidates :=
    filter (fun model => array_includes availableModels (name model))
           MODEL_CATALOG in
  match candidates with
  | [] => None
  | _ =>
      let scored :=
        map (fun model => {| s_model := model;
                             s_score := scoreModelForTask model taskType |})
            candidates in
      let scored := array_sort by_score_desc scored in
      option_map s_model (hd_error scored)
  end.

(** ** Exceptions

    A function that can throw returns a [Result]: the value, or the thrown
    [Error] object with its [name] and [message]. *)

Record JsError := { err_name : string; err_message : string }.

Inductive Result (A : Type) : Type :=
| Ok (a : A)
| Throw (e : JsError).
Arguments Ok {A} a.
Arguments Throw {A} e.

Definition mkError (msg : string) : JsError :=
  {| err_name := "Error"; err_message := msg |}.

(** ** modelSelectionService.ts *)

Inductive Mode := auto_mode | manual_mode.

Record UserPreferences := {
  mode : Mode;
  preferredModel : option string;
  allowFallback : option bool;
  showRecommendations : option bool
}.

Record ModelSelectionContext := {
  prompt : string;
  projectContext : option ProjectContext;
  userPreferences : option UserPreferences;
  availableModels : option (list string)
}.

Record ModelRecommendation := {
  model : ModelCapabilities;
  taskType : TaskType;
  confidence : Q;
  reasoning_text : string;  (* the [reasoning] field; the bare name is a strength tag *)
  alternatives : list ModelCapabilities
}.

(** The string a [TaskType] value is at run time. *)
Definition TaskType_to_string (t : TaskType) : string :=
  match t with
  | code_generation => "code_generation"
  | code_review => "code_review"
  | debugging => "debugging"
  | documentation => "documentation"
  | general_chat => "general_chat"
  | file_analysis => "file_analysis"
  | project_planning => "project_planning"
  | quick_questions => "quick_questions"
  | complex_reasoning => "complex_reasoning"
  | creative_writing => "creative_writing"
  end.

Module ModelSelectionService.

(** The service's private copy of the preference table. *)
Definition getTaskPreferences (t : TaskType) : Preferences :=
  match t with
  | code_generation =>
      mkPreferences [coding] (mkPerformance medium excellent mem_medium)
  | code_review =>
      mkPreferences [coding; analysis] (mkPerformance medium good mem_medium)
  | debugging =>
      mkPreferences [coding; reasoning] (mkPerformance medium excellent mem_medium)
  | documentation =>
      mkPreferences [general; coding] (mkPerformance medium good mem_medium)
  | general_chat =>
      mkPreferences [general; conversation] (mkPerformance fast good low)
  | file_analysis =>
      mkPreferences [analysis; coding] (mkPerformance medium good mem_medium)
  | project_planning =>
      mkPreferences [reasoning; general] (mkPerformance medium excellent mem_medium)
  | quick_questions =>
      mkPreferences [lightweight] (mkPerformance fast basic low)
  | complex_reasoning =>
      mkPreferences [reasoning; math] (mkPerformance slow excellent high)
  | creative_writing =>
      mkPreferences [creative; general] (mkPerformance medium excellent mem_medium)
  end.

(** The service's private [scoreModelForTask]. *)
Definition scoreModelForTask (model : ModelCapabilities) (taskType : TaskType)
  : Z :=
  score_against (getTaskPreferences taskType) model.

Definition getAlternatives (selectedModel : ModelCapabilities)
    (taskType : TaskType) (availableModels : list string)
  : list ModelCapabilities :=
  let kept :=
    filter (fun m => negb (String.eqb (name m) (name selectedModel)) &&
                     array_includes availableModels (name m))
           MODEL_CATALOG in
  let scored :=
    map (fun model => {| s_model := model;
                         s_score := scoreModelForTask model taskType |})
        kept in
  map s_model (firstn 2 (array_sort by_score_desc scored)).

(** [arr.push(x)] *)
Definition push {A : Type} (arr : list A) (x : A) : list A := (arr ++ [x])%list.

Definition generateReasoning (model : ModelCapabilities) (taskType : TaskType)
    (context : ModelSelectionContext) : string :=
  let reasons : list string := [] in
  let reasons :=
    match taskType with
    | code_generation | debugging =>
        if has_strength (strengths model) coding
        then push reasons (displayName model ++ " excels at coding tasks")
        else reasons
    | quick_questions =>
        if Speed_beq (speed (performance model)) fast
        then push reasons (displayName model ++ " provides fast responses for quick queries")
        else reasons
    | complex_reasoning | project_planning =>
        if Quality_beq (quality (performance model)) excellent
        then push reasons (displayName model ++ " offers excellent quality for complex reasoning")
        else reasons
    | creative_writing =>
        if has_strength (strengths model) creative
        then push reasons (displayName model ++ " is designed for creative tasks")
        else reasons
    | _ => reasons
    end in
  let reasons :=
    if Speed_beq (speed (performance model)) fast &&
       (String.length (prompt context) <? 100)%nat
    then push reasons ("optimized for quick responses") else reasons in
  let reasons :=
    if MemoryUsage_beq (memoryUsage (performance model)) low
    then push reasons ("efficient memory usage") else reasons in
  let reasons :=
    if ctx_hasCodeFiles (projectContext context) &&
       has_strength (strengths model) coding
    then push reasons ("well-suited for code projects") else reasons in
  match reasons with
  | [] => displayName model ++ " is a good general-purpose choice"
  | _ => join ", " reasons
  end.

(** Every number here is a double: [+=] rounds the sum, and
    [matchingStrengths * 0.15] rounds the product. *)
Definition calculateConfidence (model : ModelCapabilities) (taskType : TaskType)
    (context : ModelSelectionContext) : Q :=
  let confidence : Q := Double.lit 0.5 in
  let taskPreferences := getTaskPreferences taskType in
  let confidence :=
    match pref_strengths taskPreferences with
    | Some wanted =>
        Double.add confidence
          (Double.mul (Double.of_nat (matchingStrengths model wanted))
                      (Double.lit 0.15))
    | None => confidence
    end in
  let confidence :=
    match pref_performance taskPreferences with
    | Some p =>
        let confidence :=
          if Quality_beq (quality p) (quality (performance model))
          then Double.add confidence (Double.lit 0.1) else confidence in
        if Speed_beq (speed p) (speed (performance model))
        then Double.add confidence (Double.lit 0.05) else confidence
    | None => confidence
    end in
  let confidence :=
    if ctx_hasCodeFiles (projectContext context) &&
       has_strength (strengths model) coding
    then Double.add confidence (Double.lit 0.1) else confidence in
  let confidence :=
    if (500 <? String.length (prompt context))%nat &&
       Quality_beq (quality (performance model)) excellent
    then Double.add confidence (Double.lit 0.1)
    else if (String.length (prompt context) <? 100)%nat &&
            Speed_beq (speed (performance model)) fast
    then Double.add confidence (Double.lit 0.1)
    else confidence in
  Double.Math_min confidence (Double.lit 1.0).

(** The manual-override block at the head of [recommend]: [Some] when the
    block returns, [None] when control falls through to automatic
    selection. *)
Definition manual_override (context : ModelSelectionContext)
    (taskType : TaskType) (availableModels : list string)
  : option ModelRecommendation :=
  match userPreferences context with
  | Some prefs =>
      match mode prefs, preferredModel prefs with
      | manual_mode, Some preferred =>
          if truthy preferred && array_includes availableModels preferred then
            match find (fun m => String.eqb (name m) preferred) MODEL_CATALOG with
            | Some preferredModel =>
                Some {| model := preferredModel;
                        taskType := taskType;
                        confidence := 1.0;
                        reasoning_text := "Using your preferred model: " ++
                                     displayName preferredModel;
                        alternatives :=
                          getAlternatives preferredModel taskType availableModels |}
            | None => None
            end
          else None
      | _, _ => None
      end
  | None => None
  end.

(** The rest of [recommend], from the test of [recommendedModel] on. *)
Definition auto_select (context : ModelSelectionContext) (taskType : TaskType)
    (availableModels : list string)
    (recommendedModel : option ModelCapabilities)
  : Result ModelRecommendation :=
  match recommendedModel with
  | None =>
      match find (fun m => array_includes availableModels (name m))
                 MODEL_CATALOG with
      | None => Throw (mkError "No available models found")
      | Some fallbackModel =>
          Ok {| model := fallbackModel;
                taskType := taskType;
                confidence := Double.lit 0.3;
                reasoning_text := "No optimal model found for " ++
                             TaskType_to_string taskType ++
                             ". Using fallback: " ++ displayName fallbackModel;
                alternatives := [] |}
      end
  | Some recommendedModel =>
      let reasoning_text := generateReasoning recommendedModel taskType context in
      let alternatives :=
        getAlternatives recommendedModel taskType availableModels in
      let confidence := calculateConfidence recommendedModel taskType context in
      Ok {| model := recommendedModel;
            taskType := taskType;
            confidence := confidence;
            reasoning_text := reasoning_text;
            alternatives := alternatives |}
  end.

(** [context.availableModels || MODEL_CATALOG.map(m => m.name)]; an array,
    even an empty one, is truthy. *)
Definition available_or_catalog (context : ModelSelectionContext)
  : list string :=
  match availableModels context with
  | Some ms => ms
  | None => map name MODEL_CATALOG
  end.

Definition task_of (context : ModelSelectionContext) : TaskType :=
  analyzeTaskType (prompt context) (projectContext context).

Definition recommend (context : ModelSelectionContext)
  : Result ModelRecommendation :=
  let taskType := task_of context in
  let availableModels := available_or_catalog context in
  match manual_override context taskType availableModels with
  | Some r => Ok r
  | None =>
      auto_select context taskType availableModels
                  (recommendModel taskType availableModels)
  end.

(** Descending order of the task score the alternatives are ranked by. *)
Definition ranks_before (t : TaskType) (a b : ModelCapabilities) : Prop :=
  (scoreModelForTask b t <= scoreModelForTask a t)%Z.

End ModelSelectionService.

(** ** LocalLLMAdapter.ts *)

Inductive ProviderKind := ollama | llamafile | lmstudio | custom.

Record LocalLLMConfig := {
  provider : ProviderKind;
  host : string;
  port : N;
  cfg_model : string;            (* the [model] field *)
  timeout : option N;
  maxRetries : option nat;
  temperature : option Q;
  maxTokens : option N;
  contextSize : option N
}.

Record ModelDetails := {
  format : string;
  family : string;
  families : option (list string);
  parameter_size : string;
  quantization_level : string
}.

Record LocalModelInfo := {
  info_name : string;            (* [name] *)
  info_size : string;            (* [size], already formatted *)
  info_digest : string;
  info_modified : string;
  info_details : option ModelDetails
}.

(** *** The transport

    [fetch] either resolves with a response or rejects (connection refused,
    or the abort raised by the timeout timer).  The backend is a function
    from the number of calls made so far and the request to that outcome. *)

Inductive HttpMethod := GET | POST.

(** The object a request body is the JSON text of. *)
Inductive Payload :=
| PullPayload (pull_name : string).

Record HttpRequest := {
  url : string;
  http_method : HttpMethod;
  payload : option Payload
}.

Record Response := {
  ok : bool;
  statusText : string;
  body : option (list string)    (* the chunks the body reader delivers *)
}.

Inductive FetchOutcome :=
| Resolved (r : Response)
| Rejected (e : JsError).

Definition Backend := nat -> HttpRequest -> FetchOutcome.

Inductive Event :=
| EvFetch (req : HttpRequest) (timeout_ms : N)
| EvSleep (ms : N)
| EvWarn (msg : string) (args : list string)
| EvLog (msg : string).

Record World := {
  calls : nat;                   (* fetches issued so far *)
  trace : list Event             (* oldest event first *)
}.

(** Computations that may throw and that act on the world. *)
Definition IO (A : Type) : Type := World -> Result A * World.

Definition ret {A} (a : A) : IO A := fun w => (Ok a, w).
Definition throw {A} (e : JsError) : IO A := fun w => (Throw e, w).
Definition bind {A B} (m : IO A) (k : A -> IO B) : IO B :=
  fun w => match m w with
           | (Ok a, w') => k a w'
           | (Throw e, w') => (Throw e, w')
           end.
(** [try { m } catch (error) { h error }] *)
Definition try_catch {A} (m : IO A) (h : JsError -> IO A) : IO A :=
  fun w => match m w with
           | (Ok a, w') => (Ok a, w')
           | (Throw e, w') => h e w'
           end.
Definition emit (ev : Event) : IO unit :=
  fun w => (Ok tt, {| calls := calls w; trace := trace w ++ [ev] |}).

Declare Scope io_scope.
Delimit Scope io_scope with io.
Notation "x <- m ;; k" := (bind m (fun x => k))
  (at level 61, m at next level, right associativity) : io_scope.
Notation "m ;;; k" := (bind m (fun _ => k))
  (at level 61, right associativity) : io_scope.

(** [value || fallback] on an optional number: a missing value and 0 both
    give the fallback. *)
Definition or_default_nat (v : option nat) (d : nat) : nat :=
  match v with
  | Some (S n) => S n
  | _ => d
  end.
Definition or_default_N (v : option N) (d : N) : N :=
  match v with
  | Some (Npos p) => Npos p
  | _ => d
  end.

Section Adapter.
Variable backend : Backend.
Variable config : LocalLLMConfig.

(** One [fetch] under the abort timer; the outcome is handed back as a
    value, the way the [try] block and its [catch] clause see it. *)
Definition do_fetch (req : HttpRequest) : IO FetchOutcome :=
  fun w =>
    (Ok (backend (calls w) req),
     {| calls := S (calls w);
        trace := trace w ++
                 [EvFetch req (or_default_N (timeout config) 30000)] |}).

(** [await new Promise(resolve => setTimeout(resolve, ms))] *)
Definition sleep (ms : N) : IO unit := emit (EvSleep ms).

(** [makeRequest(url, options, retries)].  Both retry sites return the
    promise of the recursive call without awaiting it, so a failure of the
    retry is not seen by this frame's [catch]: it goes to the caller as it
    is.  The recursion is on the budget. *)
Fixpoint makeRequest (req : HttpRequest) (retries : nat) : IO Response :=
  (outcome <- do_fetch req ;;
   match outcome with
   | Resolved response =>
       match retries with
       | S retries' =>
           if negb (ok response) then
             emit (EvWarn ("Request failed, retrying... (" ++
                           show_nat retries ++ " attempts left)") []) ;;;
             sleep 1000 ;;;
             makeRequest req retries'
           else ret response
       | O => ret response
       end
   | Rejected error =>
       match retries with
       | S retries' =>
           emit (EvWarn ("Request error, retrying... (" ++
                         show_nat retries ++ " attempts left)")
                        [err_message error]) ;;;
           sleep 1000 ;;;
           makeRequest req retries'
       | O => throw error
       end
   end)%io.

(** [makeRequest(url, options)] with the default third argument
    [this.config.maxRetries || 3]. *)
Definition makeRequest_default (req : HttpRequest) : IO Response :=
  makeRequest req (or_default_nat (maxRetries config) 3).

End Adapter.

(** *** Reply normalisation *)

Record ReplyMessage := { msg_role : string; msg_content : string }.

(** A backend reply, as far as [convertFromLocalFormat] reads it. *)
Record LocalReply := {
  message : option ReplyMessage;
  content : option string;
  done : bool;
  prompt_eval_count : option Z;
  eval_count : option Z
}.

Inductive FinishReason := STOP.

Record Part := { text : string }.
Record Content := { role : string; parts : list Part }.
Record Candidate := {
  cand_content : Content;
  finishReason : option FinishReason
}.
Record UsageMetadata := {
  promptTokenCount : Z;
  candidatesTokenCount : option Z;
  totalTokenCount : Z
}.
(** The remaining fields of the response are all set to [undefined]. *)
Record GenerateContentResponse := {
  candidates : list Candidate;
  usageMetadata : option UsageMetadata
}.

(** [a || b] on optional strings: a missing and an empty string are falsy. *)
Definition or_string (a : option string) (b : string) : string :=
  match a with
  | Some s => if truthy s then s else b
  | None => b
  end.

(** [n || 0] on an optional number. *)
Definition or_zero (n : option Z) : Z :=
  match n with Some z => z | None => 0%Z end.

(** Truthiness of an optional number: present and not 0. *)
Definition truthy_number (n : option Z) : bool :=
  match n with Some z => negb (z =? 0)%Z | None => false end.

Definition convertFromLocalFormat (response : LocalReply)
  : GenerateContentResponse :=
  {| candidates :=
       [ {| cand_content :=
              {| role := "model";
                 parts :=
                   [ {| text :=
                          or_string (option_map msg_content (message response))
                            (or_string (content response) EmptyString) |} ] |};
            finishReason := if done response then Some STOP else None |} ];
     usageMetadata :=
       match prompt_eval_count response with
       | Some prompt_count =>
           if truthy_number (Some prompt_count) then
             Some {| promptTokenCount := prompt_count;
                     candidatesTokenCount := eval_count response;
                     totalTokenCount :=
                       (or_zero (prompt_eval_count response) +
                        or_zero (eval_count response))%Z |}
           else None
       | None => None
       end |}.

(** *** Error classes *)

Definition show_provider (p : ProviderKind) : string :=
  match p with
  | ollama => "ollama"
  | llamafile => "llamafile"
  | lmstudio => "lmstudio"
  | custom => "custom"
  end.

Definition LocalLLMNotAvailableError (provider : ProviderKind) (host : string)
    (port : N) : JsError :=
  {| err_name := "LocalLLMNotAvailableError";
     err_message := "Local LLM provider " ++ show_provider provider ++
                    " not available at " ++ host ++ ":" ++
                    show_nat (N.to_nat port) |}.

Definition ModelNotAvailableError (modelName : string)
    (availableModels : list string) : JsError :=
  {| err_name := "ModelNotAvailableError";
     err_message := "Model " ++ dquote ++ modelName ++ dquote ++
                    " not available. Available models: " ++
                    join ", " availableModels |}.

(** ** OllamaProvider.ts *)

Record OllamaModel := {
  om_name : string;
  om_size : N;
  om_digest : string;
  om_details : ModelDetails;
  om_modified_at : string
}.

Module OllamaProvider.

(** *** [formatBytes]

    The numbers are doubles.  ECMAScript leaves [Math.log]
    implementation-approximated, and near a power of 1024 the unit index
    depends on the last digits of the logarithm, so the logarithm is a
    parameter; it is taken to give finite numbers, and not 0 for 1024.
    [Math.pow(1024, i)] for an integer [i] is the power of two itself,
    which is a double. *)

Definition sizes : list string := ["Bytes"; "KB"; "MB"; "GB"; "TB"].

(** [sizes[i]] inside a string concatenation: an index off the table
    reads [undefined], which prints as that word. *)
Definition sizes_at (i : Z) : string :=
  match i with
  | Zneg _ => "undefined"
  | _ => nth (Z.to_nat i) sizes "undefined"
  end.

Definition pow1024 (i : Z) : Q := Double.round (Qpower 1024 i).

Definition show_N (n : N) : string := show_nat (N.to_nat n).

Section FormatBytes.
Variable Math_log : Q -> Q.

(** [Math.floor(Math.log(bytes) / Math.log(1024))] *)
Definition unit_index (bytes : Q) : Z :=
  Double.Math_floor (Double.div (Math_log bytes) (Math_log 1024)).

(** [Math.round(bytes / Math.pow(1024, i) * 100) / 100] *)
Definition scaled (bytes : Q) (i : Z) : Q :=
  Double.div
    (inject_Z (Double.Math_round
                 (Double.mul (Double.div bytes (pow1024 i)) 100)))
    100.

Definition formatBytes (bytes : N) : string :=
  if (bytes =? 0)%N then "0 Bytes"
  else
    let bytes := Double.of_N bytes in
    let i := unit_index bytes in
    Double.Number_toString (scaled bytes i) ++ " " ++ sizes_at i.

End FormatBytes.

(** *** The stream parser *)

Definition newline : ascii := ascii_of_nat 10.

(** [s.split('\n')]: the pieces between newlines; never empty. *)
Fixpoint split_lines (s : string) : list string :=
  match s with
  | EmptyString => [EmptyString]
  | String c t =>
      if Ascii.eqb c newline then EmptyString :: split_lines t
      else match split_lines t with
           | piece :: rest => String c piece :: rest
           | [] => [String c EmptyString]
           end
  end.

Inductive StreamEvent :=
| Yielded (r : GenerateContentResponse)
| Warned (line : string)
| Released.

Section Stream.
(** [JSON.parse] followed by the reads of the reply's fields; [None] when
    the line is not JSON or the conversion cannot read it. *)
Variable JSON_parse : string -> option LocalReply.

(** The [for (const line of lines)] loop.  The flag reports whether the
    loop left the generator through [return]. *)
Fixpoint for_lines (lines : list string) : list StreamEvent * bool :=
  match lines with
  | [] => ([], false)
  | line :: rest =>
      if blank line then for_lines rest
      else
        match JSON_parse line with
        | Some chunk =>
            if done chunk then ([Yielded (convertFromLocalFormat chunk)], true)
            else
              let (evs, returned) := for_lines rest in
              (Yielded (convertFromLocalFormat chunk) :: evs, returned)
        | None =>
            let (evs, returned) := for_lines rest in
            (Warned line :: evs, returned)
        end
  end.

(** The [while (true)] loop over the reads of the body; the list ends
    where the reader reports [done]. *)
Fixpoint read_loop (reads : list string) (buffer : string) : list StreamEvent :=
  match reads with
  | [] => []
  | value :: reads' =>
      let buffer := buffer ++ value in
      let lines := split_lines buffer in
      let buffer := last lines EmptyString in
      let lines := removelast lines in
      let (evs, returned) := for_lines lines in
      if returned then evs else (evs ++ read_loop reads' buffer)%list
  end.

(** The generator run to its end by a consumer that takes every item. *)
Definition processStreamResponse (response : Response)
  : Result (list StreamEvent) :=
  match body response with
  | None => Throw (mkError "No response body available for streaming")
  | Some reads => Ok (read_loop reads EmptyString ++ [Released])%list
  end.

End Stream.

(** *** Listing, pulling and the model-presence check *)

Section Provider.
Variable Math_log : Q -> Q.
Variable backend : Backend.
Variable config : LocalLLMConfig.
(** [response.json()] read as a model listing. *)
Variable json_models : Response -> Result (list OllamaModel).
(** [JSON.parse(chunk).status] of a pull progress frame, when there is one. *)
Variable progress_status : string -> option string.
(** The rejection of [reader.read()] when the connection breaks before
    the body has ended; the chunks of [body] are those delivered before. *)
Variable read_error : Response -> option JsError.

Definition getEndpointUrl (path : string) : string :=
  let protocol := if startsWith (host config) "http" then EmptyString
                  else "http://" in
  let baseUrl := protocol ++ host config ++ ":" ++ show_N (port config) in
  if truthy path then baseUrl ++ path else baseUrl.

Definition lift {A} (r : Result A) : IO A := fun w => (r, w).

Definition listModels : IO (list LocalModelInfo) :=
  try_catch
    (response <- makeRequest_default backend config
                   {| url := getEndpointUrl "/api/tags";
                      http_method := GET; payload := None |} ;;
     if negb (ok response) then
       throw (LocalLLMNotAvailableError (provider config) (host config)
                                        (port config))
     else
       data <- lift (json_models response) ;;
       ret (map (fun m => {| info_name := om_name m;
                             info_size := formatBytes Math_log (om_size m);
                             info_digest := om_digest m;
                             info_modified := om_modified_at m;
                             info_details := Some (om_details m) |})
                data))%io
    (fun error =>
       if String.eqb (err_name error) "LocalLLMNotAvailableError"
       then throw error
       else throw (mkError ("Failed to list models: " ++ err_message error))).

(** The progress loop of [pullModel] over the chunks that arrive: frames
    with a status are logged, the others are ignored. *)
Fixpoint pull_progress (modelName : string) (chunks : list string) : IO unit :=
  match chunks with
  | [] => ret tt
  | chunk :: rest =>
      (match progress_status chunk with
       | Some status =>
           emit (EvLog ("Pulling " ++ modelName ++ ": " ++ status))
       | None => ret tt
       end ;;;
       pull_progress modelName rest)%io
  end.

Definition pullModel (modelName : string) : IO unit :=
  try_catch
    (response <- makeRequest_default backend config
                   {| url := getEndpointUrl "/api/pull";
                      http_method := POST;
                      payload := Some (PullPayload modelName) |} ;;
     if negb (ok response) then
       throw (mkError ("Failed to pull model " ++ modelName ++ ": " ++
                       statusText response))
     else
       match body response with
       | Some chunks =>
           pull_progress modelName chunks ;;;
           match read_error response with
           | Some error => throw error
           | None => ret tt
           end
       | None => ret tt
       end)%io
    (fun error =>
       throw (mkError ("Failed to pull model " ++ modelName ++ ": " ++
                       err_message error))).

Definition ensureModelAvailable : IO unit :=
  (models <- listModels ;;
   let availableModelNames := map info_name models in
   if negb (existsb (fun name => startsWith name (cfg_model config))
                    availableModelNames)
   then
     emit (EvLog ("Model " ++ cfg_model config ++
                  " not found locally, attempting to pull...")) ;;;
     try_catch
       (pullModel (cfg_model config) ;;;
        emit (EvLog ("Successfully pulled model " ++ cfg_model config)))
       (fun error =>
          throw (ModelNotAvailableError (cfg_model config)
                                        availableModelNames))
   else ret tt)%io.

(** [generateContent] and [generateContentStream] both begin with
    [await this.ensureModelAvailable()], outside any [try]; [generation]
    stands for the statements that follow it. *)
Definition after_model_check {A : Type} (generation : IO A) : IO A :=
  (ensureModelAvailable ;;; generation)%io.

End Provider.

End OllamaProvider.

(** *** The confidence model in closed form

    This second description follows the wording of the specification: a
    base value, a list of independent bonuses, and a clamp.  It is given
    twice, in the double arithmetic of the program and in exact decimal
    arithmetic. *)

Module ConfidenceModel.

Definition preferred_strengths (t : TaskType) : list ModelStrength :=
  match pref_strengths (TASK_TO_MODEL_PREFERENCES t) with
  | Some ss => ss
  | None => []
  end.

Definition quality_matches (m : ModelCapabilities) (t : TaskType) : bool :=
  match pref_performance (TASK_TO_MODEL_PREFERENCES t) with
  | Some p => Quality_beq (quality p) (quality (performance m))
  | None => false
  end.

Definition speed_matches (m : ModelCapabilities) (t : TaskType) : bool :=
  match pref_performance (TASK_TO_MODEL_PREFERENCES t) with
  | Some p => Speed_beq (speed p) (speed (performance m))
  | None => false
  end.

(** How many of the model's strength tags are preferred by the task. *)
Definition matching_tags (m : ModelCapabilities) (t : TaskType) : nat :=
  List.length (filter (fun s => has_strength (preferred_strengths t) s)
                      (strengths m)).

(** Does the code-project bonus apply? *)
Definition code_applies (m : ModelCapabilities) (c : ModelSelectionContext)
  : bool :=
  ctx_hasCodeFiles (projectContext c) && has_strength (strengths m) coding.

(** Does a length bonus apply?  The second is tried only when the first
    does not apply, so at most one of them is granted. *)
Definition length_applies (m : ModelCapabilities) (c : ModelSelectionContext)
  : bool :=
  (500 <? String.length (prompt c))%nat &&
  Quality_beq (quality (performance m)) excellent ||
  (String.length (prompt c) <? 100)%nat &&
  Speed_beq (speed (performance m)) fast.

Definition granted (applies : bool) (amount : Q) : list Q :=
  if applies then [amount] else [].

(** The amounts that are granted, in the order of the specification, as
    the doubles the program holds. *)
Definition bonuses (n : nat) (q s c l : bool) : list Q :=
  (Double.mul (Double.of_nat n) (Double.lit 0.15) ::
   granted q (Double.lit 0.1) ++ granted s (Double.lit 0.05) ++
   granted c (Double.lit 0.1) ++ granted l (Double.lit 0.1))%list.

(** The base plus the granted amounts, added one after the other in
    double arithmetic. *)
Definition double_sum (n : nat) (q s c l : bool) : Q :=
  fold_left Double.add (bonuses n q s c l) (Double.lit 0.5).

Definition bonus (applies : bool) (amount : Q) : Q :=
  if applies then amount else 0.

(** The same sum over the exact decimal amounts. *)
Definition exact_sum (n : nat) (q s c l : bool) : Q :=
  0.5 + 0.15 * inject_Z (Z.of_nat n)
      + bonus q 0.1 + bonus s 0.05 + bonus c 0.1 + bonus l 0.1.

(** The confidence the specification describes, in double arithmetic. *)
Definition expected (m : ModelCapabilities) (t : TaskType)
    (c : ModelSelectionContext) : Q :=
  Qmin (double_sum (matching_tags m t) (quality_matches m t)
                   (speed_matches m t) (code_applies m c)
                   (length_applies m c))
       1.

(** The same confidence in exact decimal arithmetic. *)
Definition exact (m : ModelCapabilities) (t : TaskType)
    (c : ModelSelectionContext) : Q :=
  Qmin (exact_sum (matching_tags m t) (quality_matches m t)
                  (speed_matches m t) (code_applies m c)
                  (length_applies m c))
       1.

End ConfidenceModel.

(** ** Sample inputs *)

(** [Math.log] as V8 computes it, on the arguments that the examples
    use; each value is written the way [Number::toString] prints it. *)
Module RuntimeSamples.

Definition log_table : list (Q * Q) :=
  [ (1, 0);
    (1023, 6.930494765951626);
    (1024, 6.931471805599453);
    (1536, 7.336936913707618);
    (1048575, 13.862942657524135);
    (1048576, 13.862943611198906);
    (1234567, 14.02623085927966);
    (2318920898, 21.564367784245622);
    (5368709120, 22.403853329232458);
    (360546355422167, 33.518641650856274);
    (1125899906842623, 34.657359027997266);
    (1125899906842624, 34.657359027997266);
    (1176565402650542, 34.70137591341404);
    (2251799813685248, 35.35050620855721) ]%Q.

Definition Math_log (x : Q) : Q :=
  match find (fun entry => Qeq_bool (fst entry) x) log_table with
  | Some entry => Double.lit (snd entry)
  | None => 0
  end.

End RuntimeSamples.

Module SelectionSamples.

(** A debugging prompt with two installed models and no preferences. *)
Definition debugging_context : ModelSelectionContext :=
  {| prompt := "fix this bug in my code";
     projectContext := None;
     userPreferences := None;
     availableModels := Some ["phi3:mini"; "llama3.1:latest"] |}.

(** The same prompt from a user who insists on [phi3:mini]. *)
Definition manual_context : ModelSelectionContext :=
  {| prompt := "fix this bug in my code";
     projectContext := None;
     userPreferences :=
       Some {| mode := manual_mode; preferredModel := Some "phi3:mini";
               allowFallback := None; showRecommendations := None |};
     availableModels := Some ["phi3:mini"; "llama3.1:latest"] |}.

(** A code-generation prompt with a single installed model. *)
Definition threshold_context : ModelSelectionContext :=
  {| prompt := "write a function that parses dates";
     projectContext := None;
     userPreferences := None;
     availableModels := Some ["llama3.1:latest"] |}.

End SelectionSamples.

(** *** Reading a trace

    The attempts and the waits of a trace, in order; warnings and log lines
    are left out. *)

Inductive Tick :=
| Attempt
| Wait (ms : N).

Fixpoint timeline (evs : list Event) : list Tick :=
  match evs with
  | [] => []
  | EvFetch _ _ :: rest => Attempt :: timeline rest
  | EvSleep ms :: rest => Wait ms :: timeline rest
  | _ :: rest => timeline rest
  end.

(** An attempt fails when [fetch] rejects or the response is not [ok]. *)
Definition is_failure (o : FetchOutcome) : bool :=
  match o with
  | Resolved r => negb (ok r)
  | Rejected _ => true
  end.

(** What the caller gets when an outcome is handed on unchanged. *)
Definition settle (o : FetchOutcome) : Result Response :=
  match o with
  | Resolved r => Ok r
  | Rejected e => Throw e
  end.

(** One attempt, then a wait and an attempt per retry. *)
Fixpoint retry_timeline (retries : nat) : list Tick :=
  match retries with
  | O => [Attempt]
  | S n => Attempt :: Wait 1000 :: retry_timeline n
  end.

Module RetrySamples.

Definition tags_request : HttpRequest :=
  {| url := "http://localhost:11434/api/tags";
     http_method := GET; payload := None |}.

Definition server_error : Response :=
  {| ok := false; statusText := "Internal Server Error"; body := None |}.

(** A backend that answers every request with a 500. *)
Definition always_500 : Backend := fun _ _ => Resolved server_error.

Definition default_config : LocalLLMConfig :=
  {| provider := ollama; host := "localhost"; port := 11434;
     cfg_model := "llama3.1"; timeout := Some 60000%N; maxRetries := Some 3%nat;
     temperature := Some 0.7; maxTokens := Some 2048%N;
     contextSize := Some 4096%N |}.

Definition fresh : World := {| calls := 0; trace := [] |}.

End RetrySamples.

Module ReplySamples.

(** A final reply whose prompt was served from cache: the counter is there
    and says 0. *)
Definition cached_prompt_reply : LocalReply :=
  {| message := Some {| msg_role := "assistant"; msg_content := "X" |};
     content := None;
     done := true;
     prompt_eval_count := Some 0%Z;
     eval_count := Some 7%Z |}.

Definition counted_reply : LocalReply :=
  {| message := Some {| msg_role := "assistant"; msg_content := "X" |};
     content := None;
     done := true;
     prompt_eval_count := Some 12%Z;
     eval_count := None |}.

End ReplySamples.

(** *** The stream parser, line by line

    This second description follows the wording of the specification: the
    body is cut into its newline-terminated lines, each line is handled on
    its own, and the stream is over after the first line that carries
    [done]. *)

Module StreamModel.
Import OllamaProvider.

(** Everything the reader delivers, in one piece. *)
Fixpoint whole_body (reads : list string) : string :=
  match reads with
  | [] => EmptyString
  | value :: rest => value ++ whole_body rest
  end.

(** The newline-terminated lines of a body; what follows the last newline
    is not a line yet. *)
Definition complete_lines (body : string) : list string :=
  removelast (split_lines body).

Fixpoint no_newline (s : string) : bool :=
  match s with
  | EmptyString => true
  | String c t => negb (Ascii.eqb c newline) && no_newline t
  end.

Section Lines.
Variable JSON_parse : string -> option LocalReply.

(** What one line contributes: nothing when blank, a warning when it does
    not parse, the normalised chunk otherwise. *)
Definition line_events (line : string) : list StreamEvent :=
  if blank line then []
  else match JSON_parse line with
       | Some chunk => [Yielded (convertFromLocalFormat chunk)]
       | None => [Warned line]
       end.

Definition ends_stream (line : string) : bool :=
  negb (blank line) &&
  match JSON_parse line with
  | Some chunk => done chunk
  | None => false
  end.

(** The lines up to and including the first one that ends the stream. *)
Fixpoint through_done (lines : list string) : list string :=
  match lines with
  | [] => []
  | line :: rest =>
      if ends_stream line then [line] else line :: through_done rest
  end.

Definition expected_events (body : string) : list StreamEvent :=
  (flat_map line_events (through_done (complete_lines body)) ++ [Released])%list.

End Lines.

End StreamModel.

Module StreamSamples.

Definition line_running : string :=
  "{" ++ dquote ++ "done" ++ dquote ++ ":false}".
Definition line_done : string :=
  "{" ++ dquote ++ "done" ++ dquote ++ ":true}".

Definition reply_running : LocalReply :=
  {| message := None; content := None; done := false;
     prompt_eval_count := None; eval_count := None |}.
Definition reply_done : LocalReply :=
  {| message := None; content := None; done := true;
     prompt_eval_count := None; eval_count := None |}.

(** A parser that knows the two sample lines and rejects the rest. *)
Definition parse_sample (line : string) : option LocalReply :=
  if String.eqb line line_running then Some reply_running
  else if String.eqb line line_done then Some reply_done
  else None.

Definition nl : string := String OllamaProvider.newline EmptyString.

(** The two lines, delivered in three reads that cut across them. *)
Definition two_line_response : Response :=
  {| ok := true; statusText := "OK";
     body := Some [ "{" ++ dquote ++ "done" ++ dquote ++ ":fal";
                    "se}" ++ nl ++ "{" ++ dquote ++ "done" ++ dquote;
                    ":true}" ++ nl ] |}.

End StreamSamples.

Module PresenceSamples.

Definition phi3_installed : OllamaModel :=
  {| om_name := "phi3:mini";
     om_size := 2318920898;
     om_digest := "4f2222927938";
     om_details := {| format := "gguf"; family := "phi3"; families := None;
                      parameter_size := "3.8B";
                      quantization_level := "Q4_0" |};
     om_modified_at := "2025-01-01T00:00:00Z" |}.

Definition listing : Response :=
  {| ok := true; statusText := "OK"; body := None |}.

Definition not_found : Response :=
  {| ok := false; statusText := "Not Found"; body := None |}.

(** The listing works; every pull is refused. *)
Definition registry_down : Backend :=
  fun _ req => match http_method req with
               | GET => Resolved listing
               | POST => Resolved not_found
               end.

Definition json_models (_ : Response) : Result (list OllamaModel) :=
  Ok [phi3_installed].

Definition no_status (_ : string) : option string := None.

(** Every body is read to its end. *)
Definition reads_complete (_ : Response) : option JsError := None.

(** A registry that accepts the pull and streams two progress frames. *)
Definition pulling : Response :=
  {| ok := true; statusText := "OK";
     body := Some ["pulling manifest"; "downloading"] |}.

Definition registry_up : Backend :=
  fun _ req => match http_method req with
               | GET => Resolved listing
               | POST => Resolved pulling
               end.

(** The connection drops after the chunks that were delivered. *)
Definition reads_break (_ : Response) : option JsError :=
  Some {| err_name := "TypeError"; err_message := "terminated" |}.

(** What the listing returns, and the worlds the check passes through. *)
Definition installed : list LocalModelInfo :=
  [ {| info_name := "phi3:mini"; info_size := "2.16 GB";
       info_digest := "4f2222927938";
       info_modified := "2025-01-01T00:00:00Z";
       info_details := Some (om_details phi3_installed) |} ].

Definition after_listing : World :=
  Eval vm_compute in
    snd (OllamaProvider.listModels RuntimeSamples.Math_log registry_down
           RetrySamples.default_config json_models RetrySamples.fresh).

Definition pull_start : World :=
  {| calls := calls after_listing;
     trace := (trace after_listing ++
               [EvLog ("Model " ++ "llama3.1" ++
                       " not found locally, attempting to pull...")])%list |}.

Definition after_pull : World :=
  Eval vm_compute in
    snd (OllamaProvider.pullModel registry_down RetrySamples.default_config
           no_status reads_complete "llama3.1" pull_start).

(** The refusal is wrapped once by the status check and once more by the
    [catch] clause of [pullModel]. *)
Definition pull_error : JsError :=
  mkError
    "Failed to pull model llama3.1: Failed to pull model llama3.1: Not Found".

End PresenceSamples.

(** * The rest of the sources

    The functions below complete the four files: the lookups and the
    switch advisory of the selection service, the format conversion and
    the configuration of the adapter, the remaining operations of the
    provider, and the callers in [LocalContentGenerator] and in the
    [/model] command. *)

(** ** modelSelectionService.ts, continued *)

Module ServiceLookup.
Import ModelSelectionService.

(** [s.split(':')[0]] *)
Fixpoint before_colon (s : string) : string :=
  match s with
  | EmptyString => EmptyString
  | String c t => if Ascii.eqb c ":"%char then EmptyString
                  else String c (before_colon t)
  end.

Definition getModelInfo (modelName : string) : option ModelCapabilities :=
  if negb (truthy modelName) then None
  else
    match find (fun m => String.eqb (name m) modelName) MODEL_CATALOG with
    | Some model => Some model
    | None =>
    match find (fun m => String.eqb (toLowerCase (displayName m))
                                    (toLowerCase modelName))
               MODEL_CATALOG with
    | Some model => Some model
    | None =>
    match find (fun m =>
                  let displayLower := toLowerCase (displayName m) in
                  let inputLower := toLowerCase modelName in
                  includes displayLower inputLower ||
                  includes inputLower displayLower)
               MODEL_CATALOG with
    | Some model => Some model
    | None =>
        find (fun m =>
                let nameLower := toLowerCase (name m) in
                let inputLower := toLowerCase modelName in
                let baseName := before_colon nameLower in
                String.eqb baseName inputLower ||
                startsWith nameLower inputLower)
             MODEL_CATALOG
    end end end.

Definition getAllModels : list ModelCapabilities := MODEL_CATALOG.

Record SwitchAdvice := {
  shouldSwitch : bool;
  reason : option string;
  recommendedModel : option ModelCapabilities
}.

Definition stay : SwitchAdvice :=
  {| shouldSwitch := false; reason := None; recommendedModel := None |}.

Definition shouldSwitchModel (currentModel : string)
    (context : ModelSelectionContext) : Result SwitchAdvice :=
  match recommend context with
  | Throw e => Throw e
  | Ok recommendation =>
      if String.eqb (name (model recommendation)) currentModel then Ok stay
      else if Double.gtb (confidence recommendation) (Double.lit 0.7) then
        let currentModelInfo := getModelInfo currentModel in
        let newModelInfo := model recommendation in
        let currentScore :=
          match currentModelInfo with
          | Some info => scoreModelForTask info (taskType recommendation)
          | None => 0%Z
          end in
        let newScore :=
          scoreModelForTask newModelInfo (taskType recommendation) in
        if (currentScore + 2 <? newScore)%Z then
          Ok {| shouldSwitch := true;
                reason := Some (displayName newModelInfo ++
                                " would be better for " ++
                                TaskType_to_string (taskType recommendation) ++
                                ": " ++ reasoning_text recommendation);
                recommendedModel := Some newModelInfo |}
        else Ok stay
      else Ok stay
  end.

End ServiceLookup.

(** ** LocalLLMAdapter.ts, continued *)

Module AdapterFormat.

(** [s.trimEnd()] and [s.trim()] *)
Fixpoint trimEnd (s : string) : string :=
  match s with
  | EmptyString => EmptyString
  | String c t =>
      match trimEnd t with
      | EmptyString => if is_space c then EmptyString else String c EmptyString
      | kept => String c kept
      end
  end.

Definition trim (s : string) : string := trimEnd (trimStart s).

(** A part of a request, by the first key the conversion finds in it; a
    part with none of the three keys is [OtherPart].  The name of a
    function call or response may be missing. *)
Inductive InputPart :=
| TextPart (part_text : string)
| FunctionCallPart (call_name : option string)
| FunctionResponsePart (response_name : option string)
| OtherPart.

Record InputContent := {
  in_role : option string;
  in_parts : option (list InputPart)
}.

Record LocalMessage := {
  lm_role : option string;
  lm_content : string
}.

(** A value interpolated into a template string. *)
Definition interpolate (v : option string) : string :=
  match v with
  | Some s => s
  | None => "undefined"
  end.

Definition line_feed : string := String (ascii_of_nat 10) EmptyString.

Definition render_part (part : InputPart) : string :=
  match part with
  | TextPart t => t
  | FunctionCallPart n => "[Function Call: " ++ interpolate n ++ "]"
  | FunctionResponsePart n => "[Function Response: " ++ interpolate n ++ "]"
  | OtherPart => EmptyString
  end.

Definition extractTextFromParts (parts : list InputPart) : string :=
  trim (join line_feed (map render_part parts)).

Definition convertToLocalFormat (contents : list InputContent)
  : list LocalMessage :=
  map (fun content =>
         {| lm_role :=
              match in_role content with
              | Some r => if String.eqb r "model" then Some "assistant"
                          else Some r
              | None => None
              end;
            lm_content :=
              extractTextFromParts
                (match in_parts content with
                 | Some ps => ps
                 | None => []
                 end) |})
      contents.

(** *** Configuration

    [Partial<LocalLLMConfig>]: every key may be absent; a key of an
    optional field may also be present without a value. *)
Record PartialConfig := {
  p_provider : option ProviderKind;
  p_host : option string;
  p_port : option N;
  p_model : option string;
  p_timeout : option (option N);
  p_maxRetries : option (option nat);
  p_temperature : option (option Q);
  p_maxTokens : option (option N);
  p_contextSize : option (option N)
}.

Definition no_updates : PartialConfig :=
  {| p_provider := None; p_host := None; p_port := None; p_model := None;
     p_timeout := None; p_maxRetries := None; p_temperature := None;
     p_maxTokens := None; p_contextSize := None |}.

(** One key of [{ ...base, ...updates }]. *)
Definition spread_key {A : Type} (base : A) (update : option A) : A :=
  match update with
  | Some v => v
  | None => base
  end.

(** [{ ...this.config, ...updates }] *)
Definition spread (base : LocalLLMConfig) (updates : PartialConfig)
  : LocalLLMConfig :=
  {| provider := spread_key (provider base) (p_provider updates);
     host := spread_key (host base) (p_host updates);
     port := spread_key (port base) (p_port updates);
     cfg_model := spread_key (cfg_model base) (p_model updates);
     timeout := spread_key (timeout base) (p_timeout updates);
     maxRetries := spread_key (maxRetries base) (p_maxRetries updates);
     temperature := spread_key (temperature base) (p_temperature updates);
     maxTokens := spread_key (maxTokens base) (p_maxTokens updates);
     contextSize := spread_key (contextSize base) (p_contextSize updates) |}.

(** The adapter's only state is its configuration. *)
Definition getConfig (this : LocalLLMConfig) : LocalLLMConfig := this.

Definition updateConfig (updates : PartialConfig) (this : LocalLLMConfig)
  : LocalLLMConfig :=
  spread this updates.

(** [{ ...a, ...b }] on two partial configurations. *)
Definition merge_key {A : Type} (a b : option A) : option A :=
  match b with
  | Some v => Some v
  | None => a
  end.

Definition merge (a b : PartialConfig) : PartialConfig :=
  {| p_provider := merge_key (p_provider a) (p_provider b);
     p_host := merge_key (p_host a) (p_host b);
     p_port := merge_key (p_port a) (p_port b);
     p_model := merge_key (p_model a) (p_model b);
     p_timeout := merge_key (p_timeout a) (p_timeout b);
     p_maxRetries := merge_key (p_maxRetries a) (p_maxRetries b);
     p_temperature := merge_key (p_temperature a) (p_temperature b);
     p_maxTokens := merge_key (p_maxTokens a) (p_maxTokens b);
     p_contextSize := merge_key (p_contextSize a) (p_contextSize b) |}.

(** The constructor of [OllamaProvider]: the defaults, overridden by the
    keys the caller gives. *)
Definition OllamaProvider_defaults : LocalLLMConfig :=
  {| provider := ollama; host := "localhost"; port := 11434;
     cfg_model := "llama3.1"; timeout := Some 60000%N;
     maxRetries := Some 3%nat; temperature := Some 0.7;
     maxTokens := Some 2048%N; contextSize := Some 4096%N |}.

Definition OllamaProvider_new (config : PartialConfig) : LocalLLMConfig :=
  spread OllamaProvider_defaults config.

End AdapterFormat.

(** ** OllamaProvider.ts, continued *)

Module ProviderRequests.
Import AdapterFormat OllamaProvider.

(** *** Requests as the callers may give them

    [contents] is a single item or an array of items; an item is a string,
    a content object, or a bare part. *)
Inductive ContentItem :=
| StringItem (s : string)
| ContentObject (c : InputContent)
| PartObject (p : InputPart).

Inductive ContentsInput :=
| ContentsArray (items : list ContentItem)
| ContentsSingle (item : ContentItem).

Inductive SystemInstruction :=
| SysString (s : string)
| SysArray (items : list (string + InputPart))
| SysContent (c : InputContent)
| SysPart (p : InputPart).

Record RequestConfig := {
  systemInstruction : option SystemInstruction;
  req_temperature : option Q
}.

Record GenerateContentParameters := {
  contents : ContentsInput;
  req_config : option RequestConfig
}.

(** An item read as a content object: a string or a bare part has neither
    a role nor parts. *)
Definition as_content (item : ContentItem) : InputContent :=
  match item with
  | ContentObject c => c
  | _ => {| in_role := None; in_parts := None |}
  end.

(** An item wrapped as [{ text: item }], as the text it joins to. *)
Definition as_text (item : ContentItem) : string :=
  match item with
  | StringItem s => s
  | _ => "[object Object]"
  end.

(** The [contents] of [generateContent], brought to a list of contents. *)
Definition normalise_contents (input : ContentsInput) : list InputContent :=
  match input with
  | ContentsArray items =>
      match items with
      | StringItem _ :: _ =>
          [ {| in_role := Some "user";
               in_parts := Some (map (fun c => TextPart (as_text c)) items) |} ]
      | _ => map as_content items
      end
  | ContentsSingle item => [as_content item]
  end.

(** The system content, when the request has a truthy system
    instruction. *)
Definition system_content (request : GenerateContentParameters)
  : option InputContent :=
  match req_config request with
  | None => None
  | Some cfg =>
      match systemInstruction cfg with
      | None => None
      | Some (SysString s) =>
          if truthy s
          then Some {| in_role := Some "system";
                       in_parts := Some [TextPart s] |}
          else None
      | Some (SysArray items) =>
          Some {| in_role := Some "system";
                  in_parts :=
                    Some (map (fun part => match part with
                                           | inl s => TextPart s
                                           | inr p => p
                                           end) items) |}
      | Some (SysContent c) =>
          Some {| in_role := Some "system";
                  in_parts := Some (match in_parts c with
                                    | Some ps => ps
                                    | None => [OtherPart]
                                    end) |}
      | Some (SysPart p) =>
          Some {| in_role := Some "system"; in_parts := Some [p] |}
      end
  end.

Record ChatOptions := {
  opt_temperature : option Q;
  num_ctx : option N;
  num_predict : option N
}.

Record OllamaChatRequest := {
  chat_model : string;
  messages : list LocalMessage;
  stream : bool;
  options : ChatOptions
}.

(** The request object that [generateContent] ([stream] false) and
    [generateContentStream] ([stream] true) build once the model check has
    passed. *)
Definition chat_request (config : LocalLLMConfig)
    (request : GenerateContentParameters) (streaming : bool)
  : OllamaChatRequest :=
  let contents := normalise_contents (contents request) in
  let allContents :=
    match system_content request with
    | Some systemContent => systemContent :: contents
    | None => contents
    end in
  {| chat_model := cfg_model config;
     messages := convertToLocalFormat allContents;
     stream := streaming;
     options :=
       {| opt_temperature :=
            match req_config request with
            | Some cfg =>
                match req_temperature cfg with
                | Some t => Some t
                | None => temperature config
                end
            | None => temperature config
            end;
          num_ctx := contextSize config;
          num_predict := maxTokens config |} |}.

(** *** [countTokens] *)

(** The text [countTokens] measures. *)
Definition counted_text (input : ContentsInput) : string :=
  let items := match input with
               | ContentsArray items => items
               | ContentsSingle item => [item]
               end in
  join " "
    (map (fun item =>
            match in_parts (as_content item) with
            | Some ps =>
                join " " (map (fun part => match part with
                                           | TextPart t => t
                                           | _ => EmptyString
                                           end) ps)
            | None => EmptyString
            end)
         items).

(** [Math.ceil(text.length / 4)] *)
Definition countTokens (input : ContentsInput) : nat :=
  (String.length (counted_text input) + 3) / 4.

(** *** [isAvailable] *)

Section Availability.
Variable backend : Backend.
Variable config : LocalLLMConfig.

Definition tags_request : HttpRequest :=
  {| url := getEndpointUrl config "/api/tags";
     http_method := GET; payload := None |}.

Definition isAvailable : IO bool :=
  try_catch
    (response <- makeRequest_default backend config tags_request ;;
     ret (ok response))%io
    (fun _ => ret false).

End Availability.

End ProviderRequests.

(** ** modelSelectionService.ts: live validation *)

Module LiveValidation.
Import AdapterFormat OllamaProvider ProviderRequests.

Record Validation := {
  isValid : bool;
  actualModelName : option string;
  listedModels : option (list string);     (* [availableModels] *)
  validation_error : option string         (* [error] *)
}.

(** The provider the validation builds for itself. *)
Definition local_provider : LocalLLMConfig :=
  OllamaProvider_new
    {| p_provider := Some ollama; p_host := Some "localhost";
       p_port := Some 11434%N; p_model := Some EmptyString;
       p_timeout := None; p_maxRetries := None; p_temperature := None;
       p_maxTokens := None; p_contextSize := None |}.

Section Validate.
Variable Math_log : Q -> Q.
Variable backend : Backend.
Variable json_models : Response -> Result (list OllamaModel).

Definition validateModelWithOllama (modelName : string) : IO Validation :=
  try_catch
    (available <- isAvailable backend local_provider ;;
     if negb available then
       ret {| isValid := false; actualModelName := None;
              listedModels := None;
              validation_error :=
                Some "Ollama is not running. Please start Ollama service first." |}
     else
       models <- listModels Math_log backend local_provider json_models ;;
       let availableNames := map info_name models in
       let not_found :=
         {| isValid := false; actualModelName := None;
            listedModels := Some availableNames;
            validation_error :=
              Some ("Model " ++ dquote ++ modelName ++ dquote ++
                    " not found in Ollama. Available models: " ++
                    join ", " availableNames) |} in
       if array_includes availableNames modelName then
         ret {| isValid := true; actualModelName := Some modelName;
                listedModels := Some availableNames;
                validation_error := None |}
       else
         match find (fun name =>
                       startsWith name modelName ||
                       startsWith name (toLowerCase modelName))
                    availableNames with
         | Some matchingModel =>
             if truthy matchingModel then
               ret {| isValid := true; actualModelName := Some matchingModel;
                      listedModels := Some availableNames;
                      validation_error := None |}
             else ret not_found
         | None => ret not_found
         end)%io
    (fun error =>
       ret {| isValid := false; actualModelName := None;
              listedModels := None;
              validation_error :=
                Some ("Failed to validate model with Ollama: " ++
                      err_message error) |}).

End Validate.

End LiveValidation.

(** ** LocalContentGenerator.ts *)

Module LocalContentGenerator.
Import AdapterFormat.

(** A full configuration handed to the provider's constructor: the
    optional settings that are missing are absent keys. *)
Definition as_partial (config : LocalLLMConfig) : PartialConfig :=
  {| p_provider := Some (provider config);
     p_host := Some (host config);
     p_port := Some (port config);
     p_model := Some (cfg_model config);
     p_timeout := option_map Some (timeout config);
     p_maxRetries := option_map Some (maxRetries config);
     p_temperature := option_map Some (temperature config);
     p_maxTokens := option_map Some (maxTokens config);
     p_contextSize := option_map Some (contextSize config) |}.

(** The constructor: the configuration of the adapter it creates. *)
Definition new (config : LocalLLMConfig) : Result LocalLLMConfig :=
  match provider config with
  | ollama => Ok (OllamaProvider_new (as_partial config))
  | llamafile => Throw (mkError "Llamafile provider not yet implemented")
  | lmstudio => Throw (mkError "LM Studio provider not yet implemented")
  | custom => Throw (mkError "Custom provider not yet implemented")
  end.

End LocalContentGenerator.

Module ValidationSamples.

(** A backend whose listing succeeds, decoded to one installed model. *)
Definition installed_phi3 : Backend :=
  fun _ _ => Resolved PresenceSamples.listing.

End ValidationSamples.

(** *** Reading the events of a stream *)

Module StreamEdge.
Import OllamaProvider StreamModel.

(** The item carries the STOP finish signal. *)
Definition carries_stop (r : GenerateContentResponse) : Prop :=
  map finishReason (candidates r) = [Some STOP].

(** The events of a list of lines, taken line by line. *)
Definition line_by_line (JSON_parse : string -> option LocalReply)
    (lines : list string) : list StreamEvent :=
  flat_map (line_events JSON_parse) (through_done JSON_parse lines).

End StreamEdge.

(** ** LocalLLMSetupValidator *)

Module LocalLLMSetupValidator.
Import AdapterFormat OllamaProvider ProviderRequests.


Section ValidateOllama.
Variable Math_log : Q -> Q.
Variable backend : Backend.
Variable json_models : Response -> Result (list OllamaModel).


End ValidateOllama.

End LocalLLMSetupValidator.

(** ** OllamaProvider.ts: the end of [generateContent] *)

Module GenerateReply.

Section Reply.
(** [response.json()] read as a chat reply. *)
Variable json_reply : Response -> Result LocalReply.

(** The [try] block of [generateContent] from the point where
    [makeRequest] has settled with [sent], and its [catch] clause. *)
Definition finish_generateContent (sent : Result Response)
  : Result GenerateContentResponse :=
  let attempt : Result GenerateContentResponse :=
    match sent with
    | Throw e => Throw e
    | Ok response =>
        if negb (ok response) then
          Throw (mkError ("Ollama request failed: " ++ statusText response))
        else
          match json_reply response with
          | Ok data => Ok (convertFromLocalFormat data)
          | Throw e => Throw e
          end
    end in
  match attempt with
  | Ok r => Ok r
  | Throw error =>
      Throw (mkError ("Failed to generate content: " ++ err_message error))
  end.

(** [generateContentStream] after [makeRequest]: the status check is not
    inside a [try], and the generator is returned without being run. *)
Definition finish_generateContentStream (sent : Result Response)
  : Result Response :=
  match sent with
  | Throw e => Throw e
  | Ok response =>
      if negb (ok response) then
        Throw (mkError ("Ollama streaming request failed: " ++
                        statusText response))
      else Ok response
  end.

End Reply.

End GenerateReply.

(** ** contentGenerator.ts: the local configuration *)

Module ContentGeneratorConfig.




End ContentGeneratorConfig.

(** ** modelCommand.ts: the command line of [/model] *)

Module ModelCommand.
Import AdapterFormat.

(** [s.split(/\s+/)]: the pieces between runs of white space; never
    empty.  [in_gap] says that the previous character was white space. *)
Fixpoint split_spaces (in_gap : bool) (s : string) : list string :=
  match s with
  | EmptyString => [EmptyString]
  | String c t =>
      if is_space c then
        if in_gap then split_spaces true t
        else EmptyString :: split_spaces true t
      else
        match split_spaces false t with
        | piece :: rest => String c piece :: rest
        | [] => [String c EmptyString]
        end
  end.

Inductive Action := list_action | switch_action | info_action
                  | auto_action | manual_action.

Record ModelCommandArgs := {
  action : option Action;
  modelName : option string
}.

Definition parseModelCommand (input : string) : ModelCommandArgs :=
  let parts := split_spaces false (trim input) in
  match parts with
  | [_] => {| action := Some list_action; modelName := None |}
  | _ =>
      let action := nth 1 parts "undefined" in
      if String.eqb action "list" then
        {| action := Some list_action; modelName := None |}
      else if String.eqb action "info" then
        {| action := Some info_action;
           modelName := Some (join " " (skipn 2 parts)) |}
      else if String.eqb action "auto" then
        {| action := Some auto_action; modelName := None |}
      else if String.eqb action "manual" then
        {| action := Some manual_action; modelName := None |}
      else
        {| action := Some switch_action;
           modelName := Some (join " " (skipn 1 parts)) |}
  end.

(** The input that [handleModelCommand] parses. *)
Definition command_line (args : string) : string := "/model " ++ args.

End ModelCommand.

(** *** Command lines word by word *)

Module CommandWords.

(** No character of [s] is white space. *)
Fixpoint no_space (s : string) : bool :=
  match s with
  | EmptyString => true
  | String c t => negb (is_space c) && no_space t
  end.

(** A word: not empty, no white space. *)
Definition is_word (s : string) : bool := truthy s && no_space s.

(** A gap: not empty, white space only. *)
Definition is_gap (s : string) : bool := truthy s && blank s.

(** A first word followed by gaps and words in turn. *)
Fixpoint sentence (first : string) (more : list (string * string)) : string :=
  match more with
  | [] => first
  | (gap, word) :: rest => first ++ gap ++ sentence word rest
  end.

Definition keywords : list string := ["list"; "info"; "auto"; "manual"].

(** Every gap is a gap and every word a word. *)
Definition well_formed (more : list (string * string)) : Prop :=
  Forall (fun gw => is_gap (fst gw) = true /\ is_word (snd gw) = true) more.

End CommandWords.

(** * Properties *)

(** ** String primitives *)


Lemma array_includes_In (xs : list string) (x : string) :
  array_includes xs x = true <-> In x xs.
Proof.
  unfold array_includes. rewrite existsb_exists. split.
  - intros [y [Hy Heq]]. apply String.eqb_eq in Heq. now subst.
  - intros H. exists x. split; [assumption | apply String.eqb_refl].
Qed.

(** ** Task classification *)


(** ** JavaScript numbers *)

Module DoubleFacts.
Import Double.
Local Open Scope Q_scope.

Lemma nearest_even_cases (s : Q) :
  nearest_even s = Qfloor s \/ nearest_even s = (Qfloor s + 1)%Z.
Proof.
  unfold nearest_even.
  destruct (Qcompare _ _); [destruct (Z.even _)|..]; auto.
Qed.

Lemma nearest_even_Z (k : Z) : nearest_even (inject_Z k) = k.
Proof.
  unfold nearest_even. rewrite Qfloor_Z.
  assert (inject_Z k - inject_Z k < 1 # 2) as H.
  { setoid_replace (inject_Z k - inject_Z k) with 0 by ring. reflexivity. }
  now rewrite (proj1 (Qlt_alt _ _) H).
Qed.

Lemma nearest_even_le (s t : Q) :
  s <= t -> (nearest_even s <= nearest_even t)%Z.
Proof.
  intros Hst.
  pose proof (Qfloor_resp_le _ _ Hst) as Hf.
  destruct (Z.eq_dec (Qfloor s) (Qfloor t)) as [Heq|Hne].
  - unfold nearest_even. rewrite <- Heq.
    destruct (Qcompare (s - inject_Z (Qfloor s)) (1 # 2)) eqn:Hs;
      destruct (Qcompare (t - inject_Z (Qfloor s)) (1 # 2)) eqn:Ht;
      repeat match goal with
             | H : Qcompare _ _ = Eq |- _ => apply Qeq_alt in H
             | H : Qcompare _ _ = Lt |- _ => apply Qlt_alt in H
             | H : Qcompare _ _ = Gt |- _ => apply Qgt_alt in H
             end;
      try (destruct (Z.even (Qfloor s))); try lia; exfalso; lra.
  - destruct (nearest_even_cases s) as [-> | ->];
      destruct (nearest_even_cases t) as [-> | ->]; lia.
Qed.

Lemma nearest_even_lower (k : Z) (s : Q) :
  inject_Z k <= s -> (k <= nearest_even s)%Z.
Proof.
  intros H. rewrite <- (nearest_even_Z k). now apply nearest_even_le.
Qed.

Lemma nearest_even_upper (k : Z) (s : Q) :
  s <= inject_Z k -> (nearest_even s <= k)%Z.
Proof.
  intros H. rewrite <- (nearest_even_Z k). now apply nearest_even_le.
Qed.


Lemma pow2_pos (e : Z) : 0 < 2 ^ e.
Proof. now apply Qpower_0_lt. Qed.

Lemma pow2_le (a b : Z) : (a <= b)%Z -> 2 ^ a <= 2 ^ b.
Proof. intros H. apply Qpower_le_compat_l; [exact H | discriminate]. Qed.

Lemma pow2_lt (a b : Z) : (a < b)%Z -> 2 ^ a < 2 ^ b.
Proof. intros H. apply Qpower_lt_compat_l; [exact H | reflexivity]. Qed.

Lemma pow2_Z (k : Z) : (0 <= k)%Z -> inject_Z (2 ^ k) == 2 ^ k.
Proof. intros H. now rewrite Zpower_Qpower. Qed.

Lemma pow2_split (a b : Z) : 2 ^ (a - b) * 2 ^ b == 2 ^ a.
Proof.
  rewrite <- Qpower_plus by discriminate.
  now replace (a - b + b)%Z with a by lia.
Qed.

Lemma div_pow2_le (x y : Q) (u : Z) : x <= y -> x / 2 ^ u <= y / 2 ^ u.
Proof.
  intros H. apply Qmult_le_compat_r; [exact H|].
  apply Qinv_le_0_compat, Qlt_le_weak, pow2_pos.
Qed.

(** [x / 2^u] against a power of two. *)
Lemma scaled_lt (x : Q) (e u : Z) : x < 2 ^ e -> x / 2 ^ u < 2 ^ (e - u).
Proof.
  intros H. apply Qlt_shift_div_r; [apply pow2_pos|].
  now rewrite pow2_split.
Qed.

Lemma scaled_ge (x : Q) (e u : Z) : 2 ^ e <= x -> 2 ^ (e - u) <= x / 2 ^ u.
Proof.
  intros H. apply Qle_shift_div_l; [apply pow2_pos|].
  now rewrite pow2_split.
Qed.

Lemma binade_spec (x : Q) :
  0 < x -> 2 ^ binade x <= x /\ x < 2 ^ (binade x + 1).
Proof.
  intros Hx. unfold binade.
  destruct x as [p q]. cbn [Qnum Qden].
  assert (0 < p)%Z as Hp.
  { unfold Qlt in Hx. cbn in Hx. lia. }
  set (a := Z.log2 p). set (b := Z.log2 (Z.pos q)).
  destruct (Z.log2_spec p Hp) as [Hpa Hpb]. fold a in Hpa, Hpb.
  destruct (Z.log2_spec (Z.pos q) eq_refl) as [Hqa Hqb]. fold b in Hqa, Hqb.
  assert (0 <= a)%Z as Ha by apply Z.log2_nonneg.
  assert (0 <= b)%Z as Hb by apply Z.log2_nonneg.
  assert (p # q == inject_Z p / inject_Z (Z.pos q)) as Hfrac
    by apply Qmake_Qdiv.
  assert (2 ^ a <= inject_Z p) as HA.
  { rewrite <- pow2_Z by exact Ha. now rewrite <- Zle_Qle. }
  assert (inject_Z p < 2 ^ (a + 1)) as HA'.
  { rewrite <- pow2_Z by lia. rewrite <- Zlt_Qlt.
    now replace (a + 1)%Z with (Z.succ a) by lia. }
  assert (2 ^ b <= inject_Z (Z.pos q)) as HB.
  { rewrite <- pow2_Z by exact Hb. now rewrite <- Zle_Qle. }
  assert (inject_Z (Z.pos q) < 2 ^ (b + 1)) as HB'.
  { rewrite <- pow2_Z by lia. rewrite <- Zlt_Qlt.
    now replace (b + 1)%Z with (Z.succ b) by lia. }
  assert (0 < inject_Z (Z.pos q)) as Hq by reflexivity.
  (* the quotient lies strictly between 2^(a-b-1) and 2^(a-b+1) *)
  assert (2 ^ (a - b - 1) <= p # q) as Hlow.
  { rewrite Hfrac. apply Qle_shift_div_l; [exact Hq|].
    apply Qle_trans with (2 ^ (a - b - 1) * 2 ^ (b + 1)).
    - apply Qmult_le_l; [apply pow2_pos | now apply Qlt_le_weak].
    - replace (a - b - 1)%Z with (a - (b + 1))%Z by lia.
      now rewrite pow2_split. }
  assert (p # q < 2 ^ (a - b + 1)) as Hhigh.
  { rewrite Hfrac. apply Qlt_shift_div_r; [exact Hq|].
    apply Qlt_le_trans with (2 ^ (a + 1)); [exact HA'|].
    apply Qle_trans with (2 ^ (a - b + 1) * 2 ^ b).
    - replace (a - b + 1)%Z with (a + 1 - b)%Z by lia.
      rewrite pow2_split. apply Qle_refl.
    - apply Qmult_le_l; [apply pow2_pos | exact HB]. }
  destruct (Qle_bool (2 ^ (a - b)) (p # q)) eqn:Htest.
  - apply Qle_bool_iff in Htest. split; assumption.
  - split; [exact Hlow|].
    replace (a - b - 1 + 1)%Z with (a - b)%Z by lia.
    apply Qnot_le_lt. intros H. apply Qle_bool_iff in H. congruence.
Qed.

Lemma binade_le (x y : Q) : 0 < x -> x <= y -> (binade x <= binade y)%Z.
Proof.
  intros Hx Hxy.
  destruct (binade_spec x Hx) as [Hlo _].
  destruct (binade_spec y (Qlt_le_trans _ _ _ Hx Hxy)) as [_ Hhi].
  destruct (Z_le_gt_dec (binade x) (binade y)) as [H|H]; [exact H|].
  exfalso. apply (Qlt_irrefl y).
  eapply Qlt_le_trans; [exact Hhi|].
  eapply Qle_trans; [|exact Hxy].
  eapply Qle_trans; [|exact Hlo].
  apply pow2_le. lia.
Qed.

Lemma gtb_lt (a b : Q) : gtb a b = true <-> b < a.
Proof.
  unfold gtb. rewrite negb_true_iff. split.
  - intros H. apply Qnot_le_lt. intros Hle.
    apply Qle_bool_iff in Hle. congruence.
  - intros Hlt. destruct (Qle_bool a b) eqn:Hb; [|reflexivity].
    apply Qle_bool_iff in Hb. exfalso. exact (Qlt_not_le _ _ Hlt Hb).
Qed.

Lemma round_0 : round 0 = 0.
Proof. reflexivity. Qed.

Lemma round_pos (x : Q) :
  0 < x ->
  round x == inject_Z (nearest_even (x / 2 ^ ulp_exponent x)) * 2 ^ ulp_exponent x.
Proof.
  intros Hx. unfold round.
  destruct (Qeq_bool x 0) eqn:H0.
  - apply Qeq_bool_iff in H0. rewrite H0 in Hx. discriminate.
  - apply Qred_correct.
Qed.

Lemma ulp_exponent_pos (x : Q) :
  0 < x -> ulp_exponent x = Z.max (binade x - 52) (-1074).
Proof.
  intros Hx. unfold ulp_exponent.
  destruct x as [p q]. unfold Qlt in Hx. cbn in Hx.
  destruct p; try lia. reflexivity.
Qed.

(** A positive value rounds into the closure of its binade. *)
Lemma round_pos_lower (x : Q) :
  0 < x -> (-1022 <= binade x)%Z -> 2 ^ binade x <= round x.
Proof.
  intros Hx Hnormal. rewrite (round_pos x Hx), (ulp_exponent_pos x Hx).
  replace (Z.max (binade x - 52) (-1074)) with (binade x - 52)%Z by lia.
  destruct (binade_spec x Hx) as [Hlo _].
  apply Qle_trans with (inject_Z (2 ^ 52) * 2 ^ (binade x - 52)).
  - rewrite pow2_Z by lia. rewrite <- Qpower_plus by discriminate.
    replace (52 + (binade x - 52))%Z with (binade x) by lia. apply Qle_refl.
  - apply Qmult_le_compat_r; [|apply Qlt_le_weak, pow2_pos].
    rewrite <- Zle_Qle. apply nearest_even_lower.
    rewrite pow2_Z by lia.
    replace 52%Z with (binade x - (binade x - 52))%Z at 1 by lia.
    now apply scaled_ge.
Qed.

Lemma round_pos_upper (x : Q) (m : Z) :
  0 < x -> (binade x + 1 <= m)%Z -> (ulp_exponent x <= m)%Z ->
  round x <= 2 ^ m.
Proof.
  intros Hx Hm Hu. rewrite (round_pos x Hx).
  set (u := ulp_exponent x) in *.
  destruct (binade_spec x Hx) as [_ Hhi].
  apply Qle_trans with (inject_Z (2 ^ (m - u)) * 2 ^ u).
  - apply Qmult_le_compat_r; [|apply Qlt_le_weak, pow2_pos].
    rewrite <- Zle_Qle. apply nearest_even_upper.
    rewrite pow2_Z by lia.
    apply Qlt_le_weak, scaled_lt.
    eapply Qlt_le_trans; [exact Hhi|]. now apply pow2_le.
  - rewrite pow2_Z by lia. rewrite pow2_split. apply Qle_refl.
Qed.

Lemma round_nonneg (x : Q) : 0 <= x -> 0 <= round x.
Proof.
  intros Hx. destruct (Qle_lt_or_eq _ _ Hx) as [Hpos|Hz].
  - rewrite (round_pos x Hpos).
    apply Qmult_le_0_compat; [|apply Qlt_le_weak, pow2_pos].
    change 0 with (inject_Z 0). rewrite <- Zle_Qle.
    apply nearest_even_lower.
    apply Qle_shift_div_l; [apply pow2_pos|].
    setoid_replace (inject_Z 0 * 2 ^ ulp_exponent x) with 0 by ring.
    exact Hx.
  - unfold round. rewrite <- Hz. apply Qle_refl.
Qed.

(** Rounding keeps the order of non-negative numbers. *)
Lemma round_le (x y : Q) : 0 <= x -> x <= y -> round x <= round y.
Proof.
  intros Hx Hxy. destruct (Qle_lt_or_eq _ _ Hx) as [Hpos|Hz].
  2:{ assert (round x == 0) as ->.
      { unfold round. destruct (Qeq_bool x 0) eqn:E; [reflexivity|].
        exfalso. apply Qeq_bool_neq in E. apply E. now symmetry. }
      apply round_nonneg. now apply Qle_trans with x. }
  assert (0 < y) as Hy by (eapply Qlt_le_trans; eassumption).
  pose proof (binade_le x y Hpos Hxy) as He.
  pose proof (ulp_exponent_pos x Hpos) as Hux.
  pose proof (ulp_exponent_pos y Hy) as Huy.
  destruct (Z.eq_dec (ulp_exponent x) (ulp_exponent y)) as [Hsame|Hdiff].
  - rewrite (round_pos x Hpos), (round_pos y Hy), <- Hsame.
    apply Qmult_le_compat_r; [|apply Qlt_le_weak, pow2_pos].
    rewrite <- Zle_Qle. apply nearest_even_le. now apply div_pow2_le.
  - apply Qle_trans with (2 ^ binade y).
    + apply round_pos_upper; [exact Hpos | lia | lia].
    + apply round_pos_lower; [exact Hy | lia].
Qed.


(** A number with a significand below 2^53 and an exponent in range is a
    double: rounding leaves it alone. *)
Lemma round_exact (m k : Z) :
  (0 < m < 2 ^ 53)%Z -> (-1074 <= k)%Z ->
  round (inject_Z m * 2 ^ k) == inject_Z m * 2 ^ k.
Proof.
  intros [Hm Hm53] Hk.
  set (x := inject_Z m * 2 ^ k).
  assert (0 < x) as Hx.
  { unfold x. apply Qmult_lt_0_compat; [|apply pow2_pos].
    change 0 with (inject_Z 0). now rewrite <- Zlt_Qlt. }
  destruct (binade_spec x Hx) as [Hlo _].
  assert (x < 2 ^ (53 + k)) as Hhi.
  { unfold x. rewrite Qpower_plus by discriminate.
    apply Qmult_lt_compat_r; [apply pow2_pos|].
    rewrite <- pow2_Z by lia. now rewrite <- Zlt_Qlt. }
  assert (binade x < 53 + k)%Z as He.
  { apply Qpower_lt_compat_l_inv with 2; [|reflexivity].
    eapply Qle_lt_trans; eassumption. }
  rewrite (round_pos x Hx), (ulp_exponent_pos x Hx).
  set (u := Z.max (binade x - 52) (-1074)).
  assert (u <= k)%Z as Hu by (unfold u; lia).
  assert (x / 2 ^ u == inject_Z (m * 2 ^ (k - u))) as Hs.
  { unfold x. rewrite inject_Z_mult, pow2_Z by lia.
    rewrite <- (pow2_split k u) at 1.
    field. apply Qpower_not_0. discriminate. }
  assert (nearest_even (x / 2 ^ u) = (m * 2 ^ (k - u))%Z) as ->.
  { rewrite <- (nearest_even_Z (m * 2 ^ (k - u))).
    apply Z.le_antisymm; apply nearest_even_le; rewrite Hs; apply Qle_refl. }
  rewrite inject_Z_mult, pow2_Z by lia.
  unfold x. rewrite <- (pow2_split k u). ring.
Qed.

Lemma nearest_even_error (s : Q) :
  Qabs (inject_Z (nearest_even s) - s) <= 1 # 2.
Proof.
  pose proof (Qfloor_le s) as Hlo. pose proof (Qlt_floor s) as Hhi.
  rewrite inject_Z_plus in Hhi. change (inject_Z 1) with 1 in Hhi.
  unfold nearest_even.
  destruct (Qcompare (s - inject_Z (Qfloor s)) (1 # 2)) eqn:Hc;
    [apply Qeq_alt in Hc | apply Qlt_alt in Hc | apply Qgt_alt in Hc];
    try destruct (Z.even (Qfloor s));
    try rewrite inject_Z_plus; try change (inject_Z 1) with 1;
    apply Qabs_Qle_condition; split; lra.
Qed.

Lemma binade_lower (x : Q) (e : Z) : 0 < x -> 2 ^ e <= x -> (e <= binade x)%Z.
Proof.
  intros Hx He. destruct (binade_spec x Hx) as [_ Hhi].
  assert (e < binade x + 1)%Z; [|lia].
  apply Qpower_lt_compat_l_inv with 2; [|reflexivity].
  eapply Qle_lt_trans; eassumption.
Qed.

(** The relative error of one rounding is at most 2^-53, away from the
    subnormal range. *)
Lemma round_error (x : Q) :
  2 ^ (-1022) <= x ->
  Qabs (round x - x) <= x * 2 ^ (-53).
Proof.
  intros Hbig.
  assert (0 < x) as Hx by (eapply Qlt_le_trans; [apply pow2_pos | exact Hbig]).
  pose proof (binade_lower x _ Hx Hbig) as Hnormal.
  rewrite (round_pos x Hx), (ulp_exponent_pos x Hx).
  replace (Z.max (binade x - 52) (-1074)) with (binade x - 52)%Z by lia.
  set (u := (binade x - 52)%Z).
  destruct (binade_spec x Hx) as [Hlo _].
  pose proof (nearest_even_error (x / 2 ^ u)) as Herr.
  pose proof (pow2_pos u) as Hu.
  assert (inject_Z (nearest_even (x / 2 ^ u)) * 2 ^ u - x ==
          (inject_Z (nearest_even (x / 2 ^ u)) - x / 2 ^ u) * 2 ^ u) as ->.
  { field. apply Qpower_not_0. discriminate. }
  rewrite Qabs_Qmult, (Qabs_pos (2 ^ u)) by now apply Qlt_le_weak.
  apply Qle_trans with ((1 # 2) * 2 ^ u).
  - apply Qmult_le_compat_r; [exact Herr | now apply Qlt_le_weak].
  - apply Qle_trans with (2 ^ binade x * 2 ^ (-53)).
    + rewrite <- Qpower_plus by discriminate.
      replace (binade x + -53)%Z with (u - 1)%Z by (unfold u; lia).
      change (1 # 2) with (2 ^ (-1)).
      rewrite <- Qpower_plus by discriminate.
      replace (-1 + u)%Z with (u - 1)%Z by lia. apply Qle_refl.
    + apply Qmult_le_compat_r; [exact Hlo | apply Qlt_le_weak, pow2_pos].
Qed.


(** Rounding looks at the value only, not at the fraction that denotes
    it. *)
Lemma nearest_even_wd (s t : Q) : s == t -> nearest_even s = nearest_even t.
Proof.
  intros H. apply Z.le_antisymm; apply nearest_even_le; rewrite H;
    apply Qle_refl.
Qed.

Lemma binade_wd (x y : Q) : 0 < x -> x == y -> binade x = binade y.
Proof.
  intros Hx H. apply Z.le_antisymm.
  - apply binade_le; [exact Hx | rewrite H; apply Qle_refl].
  - apply binade_le; [now rewrite <- H | rewrite H; apply Qle_refl].
Qed.

Lemma round_wd (x y : Q) : x == y -> round x = round y.
Proof.
  intros H. unfold round.
  destruct (Qeq_bool x 0) eqn:Hx.
  - apply Qeq_bool_iff in Hx.
    assert (Qeq_bool y 0 = true) as ->; [|reflexivity].
    apply Qeq_bool_iff. now rewrite <- H.
  - assert (Qeq_bool y 0 = false) as ->.
    { apply not_true_is_false. intros Hy. apply Qeq_bool_iff in Hy.
      apply Qeq_bool_neq in Hx. apply Hx. now rewrite H. }
    apply Qeq_bool_neq in Hx.
    assert (ulp_exponent x = ulp_exponent y) as Hu.
    { unfold ulp_exponent. f_equal. f_equal. apply binade_wd.
      - destruct (Q_dec x 0) as [[Hneg|Hpos]|Hz]; [| |contradiction].
        + rewrite Qabs_neg by now apply Qlt_le_weak. lra.
        + rewrite Qabs_pos by now apply Qlt_le_weak. exact Hpos.
      - now rewrite H. }
    apply Qred_complete. rewrite <- Hu.
    assert (x / 2 ^ ulp_exponent x == y / 2 ^ ulp_exponent x) as Hs
      by (apply Qmult_comp; [exact H | reflexivity]).
    rewrite (nearest_even_wd _ _ Hs). reflexivity.
Qed.

End DoubleFacts.

(** ** The confidence model *)

Lemma getTaskPreferences_table (t : TaskType) :
  ModelSelectionService.getTaskPreferences t = TASK_TO_MODEL_PREFERENCES t.
Proof. destruct t; reflexivity. Qed.

Lemma service_score_is_catalog_score (m : ModelCapabilities) (t : TaskType) :
  ModelSelectionService.scoreModelForTask m t = scoreModelForTask m t.
Proof.
  unfold ModelSelectionService.scoreModelForTask, scoreModelForTask.
  now rewrite getTaskPreferences_table.
Qed.

Lemma table_gives_both (t : TaskType) :
  exists ss p, TASK_TO_MODEL_PREFERENCES t = mkPreferences ss p.
Proof. destruct t; eexists; eexists; reflexivity. Qed.

Module ConfidenceFacts.
Import Double ConfidenceModel.
Local Open Scope Q_scope.

Lemma lit_half : lit 0.5 = 1 # 2.
Proof. vm_compute. reflexivity. Qed.

Lemma lit_one : lit 1.0 = 1.
Proof. vm_compute. reflexivity. Qed.

(** A sum does not fall below a double that one of its terms has reached,
    when the other term is not negative. *)
Lemma add_lower (lo a b : Q) :
  round lo == lo -> 0 <= lo -> lo <= a -> 0 <= b -> lo <= add a b.
Proof.
  intros Hfix Hlo Ha Hb. rewrite <- Hfix. unfold add.
  apply DoubleFacts.round_le; [exact Hlo | lra].
Qed.

Lemma of_nat_lower (k n : nat) :
  (k <= n)%nat -> round (inject_Z (Z.of_nat k)) <= of_nat n.
Proof.
  intros H. unfold of_nat. apply DoubleFacts.round_le.
  - change 0 with (inject_Z 0). rewrite <- Zle_Qle. lia.
  - rewrite <- Zle_Qle. lia.
Qed.

Lemma tags_term_lower (k n : nat) :
  (k <= n)%nat ->
  mul (of_nat k) (lit 0.15) <= mul (of_nat n) (lit 0.15).
Proof.
  intros H. unfold mul.
  assert (0 <= lit 0.15) as Hc by (apply Qle_bool_iff; vm_compute; reflexivity).
  assert (0 <= of_nat k) as Hk.
  { unfold of_nat. apply DoubleFacts.round_nonneg.
    change 0 with (inject_Z 0). rewrite <- Zle_Qle. lia. }
  apply DoubleFacts.round_le.
  - now apply Qmult_le_0_compat.
  - apply Qmult_le_compat_r; [|exact Hc]. now apply of_nat_lower.
Qed.

(** The sum after the strength term, from below. *)
Lemma first_step_lower (k n : nat) :
  (k <= n)%nat ->
  add (lit 0.5) (mul (of_nat k) (lit 0.15)) <=
  add (lit 0.5) (mul (of_nat n) (lit 0.15)).
Proof.
  intros H. unfold add.
  pose proof (tags_term_lower k n H) as Hterm.
  pose proof (tags_term_lower 0 k ltac:(lia)) as Hzero.
  assert (mul (of_nat 0) (lit 0.15) == 0) as Hz by (vm_compute; reflexivity).
  rewrite Hz in Hzero.
  apply DoubleFacts.round_le; [rewrite lit_half; lra | lra].
Qed.

(** Whatever is granted afterwards, the sum stays above a double that the
    first step has reached. *)
Lemma double_sum_lower (lo : Q) (k n : nat) (q s c l : bool) :
  round lo == lo -> 0 <= lo ->
  lo <= add (lit 0.5) (mul (of_nat k) (lit 0.15)) ->
  (k <= n)%nat ->
  lo <= double_sum n q s c l.
Proof.
  intros Hfix Hlo Hfirst Hkn.
  assert (lo <= add (lit 0.5) (mul (of_nat n) (lit 0.15))) as Hstart.
  { eapply Qle_trans; [exact Hfirst | now apply first_step_lower]. }
  assert (0 <= lit 0.1) as H1 by (apply Qle_bool_iff; vm_compute; reflexivity).
  assert (0 <= lit 0.05) as H2 by (apply Qle_bool_iff; vm_compute; reflexivity).
  unfold double_sum, bonuses, granted.
  destruct q, s, c, l; cbn [app fold_left];
    repeat (apply add_lower; [exact Hfix | exact Hlo | | assumption]);
    exact Hstart.
Qed.

Lemma double_sum_at_least_half (n : nat) (q s c l : bool) :
  0.5 <= double_sum n q s c l.
Proof.
  apply Qle_trans with (1 # 2); [discriminate|].
  apply (double_sum_lower (1 # 2) 0 n); [reflexivity | discriminate | | lia].
  apply Qle_bool_iff. vm_compute. reflexivity.
Qed.

(** From four matching tags on, the clamp decides. *)
Lemma double_sum_at_least_one (n : nat) (q s c l : bool) :
  (4 <= n)%nat -> 1 <= double_sum n q s c l.
Proof.
  intros H.
  apply (double_sum_lower 1 4 n); [reflexivity | discriminate | | exact H].
  apply Qle_bool_iff. vm_compute. reflexivity.
Qed.

Lemma bonus_nonneg (b : bool) (q : Q) : 0 <= q -> 0 <= bonus b q.
Proof. destruct b; simpl; [trivial | intros _; apply Qle_refl]. Qed.

Lemma exact_sum_at_least_one (n : nat) (q s c l : bool) :
  (4 <= n)%nat -> 1 <= exact_sum n q s c l.
Proof.
  intros H. unfold exact_sum.
  assert (inject_Z 4 <= inject_Z (Z.of_nat n)) as Hn
    by (rewrite <- Zle_Qle; lia).
  assert (0 <= 0.1) as H1 by discriminate.
  assert (0 <= 0.05) as H2 by discriminate.
  pose proof (bonus_nonneg q 0.1 H1). pose proof (bonus_nonneg s 0.05 H2).
  pose proof (bonus_nonneg c 0.1 H1). pose proof (bonus_nonneg l 0.1 H1).
  change (inject_Z 4) with 4 in Hn. lra.
Qed.

(** Up to three matching tags: the sixty-four sums, one by one. *)
Lemma small_sums_close (n : nat) (q s c l : bool) :
  (n <= 3)%nat ->
  Qabs (Qmin (double_sum n q s c l) 1 - Qmin (exact_sum n q s c l) 1)
  <= 1 # 9007199254740992.
Proof.
  intros H.
  destruct n as [|[|[|[|n]]]]; [| | | |lia];
    destruct q, s, c, l; apply Qle_bool_iff; vm_compute; reflexivity.
Qed.

Lemma sums_close (n : nat) (q s c l : bool) :
  Qabs (Qmin (double_sum n q s c l) 1 - Qmin (exact_sum n q s c l) 1)
  <= 1 # 9007199254740992.
Proof.
  destruct (le_lt_dec n 3) as [Hsmall|Hbig];
    [now apply small_sums_close|].
  rewrite (Q.min_r _ _ (double_sum_at_least_one n q s c l Hbig)).
  rewrite (Q.min_r _ _ (exact_sum_at_least_one n q s c l Hbig)).
  setoid_replace (1 - 1) with 0 by ring. discriminate.
Qed.

(** The sequence of updates of [calculateConfidence] is the sum of the
    granted amounts, clamped. *)
Lemma calculateConfidence_expected (m : ModelCapabilities) (t : TaskType)
    (c : ModelSelectionContext) :
  ModelSelectionService.calculateConfidence m t c = expected m t c.
Proof.
  unfold ModelSelectionService.calculateConfidence, expected, double_sum,
    bonuses, granted, code_applies, length_applies, quality_matches,
    speed_matches, matching_tags, preferred_strengths, matchingStrengths,
    Math_min.
  rewrite getTaskPreferences_table, lit_one.
  destruct (table_gives_both t) as [ss [p ->]].
  cbn [pref_strengths pref_performance mkPreferences].
  destruct (Quality_beq (quality p) (quality (performance m)));
    destruct (Speed_beq (speed p) (speed (performance m)));
    destruct (ctx_hasCodeFiles (projectContext c) &&
              has_strength (strengths m) coding)%bool;
    destruct ((500 <? String.length (prompt c))%nat &&
              Quality_beq (quality (performance m)) excellent)%bool;
    destruct ((String.length (prompt c) <? 100)%nat &&
              Speed_beq (speed (performance m)) fast)%bool;
    cbn [fold_left app orb];
    change (fun s : ModelStrength => has_strength ss s) with (has_strength ss);
    reflexivity.
Qed.

End ConfidenceFacts.

(** C3: on the automatic path the confidence is 0.5, plus 0.15 per
    strength tag of the model that the task prefers, plus 0.1 for a quality
    match, plus 0.05 for a speed match, plus 0.1 when the context has code
    files and the model has the coding strength, plus 0.1 for a prompt
    longer than 500 with an excellent model or else 0.1 for a prompt
    shorter than 100 with a fast model, the whole clamped to at most 1.
    The amounts are added in this order in double arithmetic, and the
    result is within 2^-53 of the same sum in exact decimal arithmetic. *)
Theorem calculateConfidence_formula :
  forall (m : ModelCapabilities) (t : TaskType) (c : ModelSelectionContext),
    ModelSelectionService.calculateConfidence m t c =
      ConfidenceModel.expected m t c /\
    Qabs (ModelSelectionService.calculateConfidence m t c -
          ConfidenceModel.exact m t c) <= 1 # 9007199254740992.
Proof.
  intros m t c. split; [apply ConfidenceFacts.calculateConfidence_expected|].
  rewrite ConfidenceFacts.calculateConfidence_expected.
  apply ConfidenceFacts.sums_close.
Qed.

Lemma calculateConfidence_range (m : ModelCapabilities) (t : TaskType)
    (c : ModelSelectionContext) :
  0.5 <= ModelSelectionService.calculateConfidence m t c /\
  ModelSelectionService.calculateConfidence m t c <= 1.
Proof.
  rewrite ConfidenceFacts.calculateConfidence_expected.
  unfold ConfidenceModel.expected. split.
  - apply Q.min_glb; [apply ConfidenceFacts.double_sum_at_least_half|].
    discriminate.
  - apply Q.le_min_r.
Qed.

(** ** The comparator sort *)

Section SortFacts.
Context {A : Type} (cmp : A -> A -> Z).

Lemma sort_insert_In (x y : A) (l : list A) :
  In y (sort_insert cmp x l) <-> y = x \/ In y l.
Proof.
  induction l as [|z zs IH]; simpl.
  - intuition.
  - destruct (cmp x z <=? 0)%Z; simpl; [intuition | rewrite IH; intuition].
Qed.

Lemma array_sort_In (y : A) (l : list A) :
  In y (array_sort cmp l) <-> In y l.
Proof.
  induction l as [|x xs IH]; simpl; [reflexivity|].
  rewrite sort_insert_In, IH. intuition.
Qed.

Lemma sort_insert_length (x : A) (l : list A) :
  List.length (sort_insert cmp x l) = S (List.length l).
Proof.
  induction l as [|z zs IH]; simpl; [reflexivity|].
  destruct (cmp x z <=? 0)%Z; simpl; [reflexivity | now rewrite IH].
Qed.

Lemma array_sort_length (l : list A) :
  List.length (array_sort cmp l) = List.length l.
Proof.
  induction l as [|x xs IH]; simpl; [reflexivity|].
  now rewrite sort_insert_length, IH.
Qed.

Lemma sort_insert_Permutation (x : A) (l : list A) :
  Permutation (x :: l) (sort_insert cmp x l).
Proof.
  induction l as [|z zs IH]; simpl; [apply Permutation_refl|].
  destruct (cmp x z <=? 0)%Z; [apply Permutation_refl|].
  eapply perm_trans; [apply perm_swap | now apply perm_skip].
Qed.

Lemma array_sort_Permutation (l : list A) :
  Permutation l (array_sort cmp l).
Proof.
  induction l as [|x xs IH]; simpl; [apply perm_nil|].
  eapply perm_trans; [apply perm_skip, IH | apply sort_insert_Permutation].
Qed.

End SortFacts.

Lemma sort_insert_score_desc (x : Scored) (l : list Scored) :
  StronglySorted score_desc l ->
  StronglySorted score_desc (sort_insert by_score_desc x l).
Proof.
  induction 1 as [|z zs Hs IH Hall]; simpl.
  - repeat constructor.
  - unfold by_score_desc at 1.
    destruct (s_score z - s_score x <=? 0)%Z eqn:Hcmp.
    + apply Z.leb_le in Hcmp.
      constructor; [now constructor|].
      constructor; [unfold score_desc; lia|].
      eapply Forall_impl; [|exact Hall].
      unfold score_desc; intros; lia.
    + apply Z.leb_gt in Hcmp.
      constructor; [exact IH|].
      apply Forall_forall. intros y Hy.
      apply sort_insert_In in Hy. destruct Hy as [->|Hy].
      * unfold score_desc; lia.
      * rewrite Forall_forall in Hall. now apply Hall.
Qed.

Lemma array_sort_score_desc (l : list Scored) :
  StronglySorted score_desc (array_sort by_score_desc l).
Proof.
  induction l as [|x xs IH]; simpl;
    [constructor | now apply sort_insert_score_desc].
Qed.

Lemma In_firstn {A : Type} (n : nat) (l : list A) (y : A) :
  In y (firstn n l) -> In y l.
Proof.
  revert n. induction l as [|x xs IH]; intros [|n]; simpl; try tauto.
  intros [->|Hy]; [now left | right; eauto].
Qed.

Lemma StronglySorted_firstn {A : Type} (R : A -> A -> Prop) (n : nat)
    (l : list A) :
  StronglySorted R l -> StronglySorted R (firstn n l).
Proof.
  intros Hs. revert n.
  induction Hs as [|x xs Hs IH Hall]; intros [|n]; simpl; try constructor.
  - apply IH.
  - apply Forall_forall. intros y Hy.
    rewrite Forall_forall in Hall. apply Hall.
    now apply In_firstn in Hy.
Qed.

(** ** Recommendations *)

Module RecommendFacts.
Import ModelSelectionService.

Lemma scored_map_sorted (f : ModelCapabilities -> Z) (l : list Scored) :
  StronglySorted score_desc l ->
  Forall (fun x => s_score x = f (s_model x)) l ->
  StronglySorted (fun a b => (f b <= f a)%Z) (map s_model l).
Proof.
  induction 1 as [|x xs Hs IH Hall]; intros Hf; simpl; constructor.
  - apply IH. now inversion Hf.
  - inversion Hf as [|? ? Hx Hxs]; subst.
    apply Forall_forall. intros b Hb.
    apply in_map_iff in Hb. destruct Hb as [y [<- Hy]].
    rewrite Forall_forall in Hall, Hxs.
    specialize (Hall y Hy). specialize (Hxs y Hy).
    unfold score_desc in Hall. now rewrite <- Hx, <- Hxs.
Qed.

Lemma getAlternatives_length (sel : ModelCapabilities) (t : TaskType)
    (avail : list string) :
  (List.length (getAlternatives sel t avail) <= 2)%nat.
Proof.
  unfold getAlternatives. rewrite length_map. apply firstn_le_length.
Qed.

Lemma getAlternatives_members (sel : ModelCapabilities) (t : TaskType)
    (avail : list string) (a : ModelCapabilities) :
  In a (getAlternatives sel t avail) ->
  name a <> name sel /\ In (name a) avail /\ In a MODEL_CATALOG.
Proof.
  unfold getAlternatives. intros Ha.
  apply in_map_iff in Ha. destruct Ha as [x [<- Hx]].
  apply In_firstn in Hx. apply array_sort_In in Hx.
  apply in_map_iff in Hx. destruct Hx as [m [<- Hm]]. simpl.
  apply filter_In in Hm. destruct Hm as [Hcat Hkeep].
  apply andb_true_iff in Hkeep. destruct Hkeep as [Hne Hav].
  repeat split.
  - apply negb_true_iff, String.eqb_neq in Hne. exact Hne.
  - now apply array_includes_In.
  - exact Hcat.
Qed.

Lemma getAlternatives_sorted (sel : ModelCapabilities) (t : TaskType)
    (avail : list string) :
  StronglySorted (ranks_before t) (getAlternatives sel t avail).
Proof.
  unfold getAlternatives, ranks_before.
  apply (scored_map_sorted (fun m => scoreModelForTask m t)).
  - apply StronglySorted_firstn, array_sort_score_desc.
  - apply Forall_forall. intros x Hx.
    apply In_firstn in Hx. apply array_sort_In in Hx.
    apply in_map_iff in Hx. now destruct Hx as [m [<- _]].
Qed.

Lemma recommendModel_member (t : TaskType) (avail : list string)
    (m : ModelCapabilities) :
  recommendModel t avail = Some m ->
  In (name m) avail /\ In m MODEL_CATALOG.
Proof.
  unfold recommendModel.
  set (candidates := filter _ MODEL_CATALOG).
  destruct candidates as [|c cs] eqn:Hc; [discriminate|].
  set (scored := array_sort _ _).
  destruct scored as [|x xs] eqn:Hs; [discriminate|].
  simpl. intros [= <-].
  assert (In x scored) as Hx by (rewrite Hs; now left).
  apply array_sort_In in Hx.
  apply in_map_iff in Hx. destruct Hx as [m [<- Hm]]. simpl.
  rewrite <- Hc in Hm. apply filter_In in Hm. destruct Hm as [Hcat Hav].
  split; [now apply array_includes_In | exact Hcat].
Qed.

(** [recommendModel] gives up only when no catalog entry is available, and
    then the fallback search of [recommend] finds nothing either. *)
Lemma recommendModel_none (t : TaskType) (avail : list string) :
  recommendModel t avail = None ->
  find (fun m => array_includes avail (name m)) MODEL_CATALOG = None.
Proof.
  unfold recommendModel.
  destruct (filter _ MODEL_CATALOG) as [|c cs] eqn:Hc.
  - intros _.
    destruct (find _ MODEL_CATALOG) as [m|] eqn:Hf; [|reflexivity].
    apply find_some in Hf.
    assert (In m []) as [] .
    rewrite <- Hc. now apply filter_In.
  - intros H. exfalso.
    pose proof (array_sort_length by_score_desc
      (map (fun model => {| s_model := model;
                            s_score := scoreModelForTask model t |})
           (c :: cs))) as Hlen.
    destruct (array_sort _ _); [discriminate Hlen | discriminate H].
Qed.

Lemma manual_override_facts (ctx : ModelSelectionContext) (t : TaskType)
    (avail : list string) (r : ModelRecommendation) :
  manual_override ctx t avail = Some r ->
  In (name (model r)) avail /\ taskType r = t /\ confidence r = 1.0 /\
  alternatives r = getAlternatives (model r) t avail.
Proof.
  unfold manual_override.
  destruct (userPreferences ctx) as [prefs|]; [|discriminate].
  destruct (mode prefs); [discriminate|].
  destruct (preferredModel prefs) as [preferred|]; [|discriminate].
  destruct (truthy preferred && array_includes avail preferred)%bool eqn:Hc;
    [|discriminate].
  destruct (find _ MODEL_CATALOG) as [pm|] eqn:Hf; [|discriminate].
  intros [= <-]. simpl.
  apply andb_true_iff in Hc. destruct Hc as [_ Hav].
  apply find_some in Hf. destruct Hf as [_ Hname].
  apply String.eqb_eq in Hname. rewrite Hname.
  repeat split. now apply array_includes_In.
Qed.

Lemma auto_select_facts (ctx : ModelSelectionContext) (t : TaskType)
    (avail : list string) (m : ModelCapabilities) (r : ModelRecommendation) :
  auto_select ctx t avail (Some m) = Ok r ->
  model r = m /\ taskType r = t /\
  confidence r = calculateConfidence m t ctx /\
  alternatives r = getAlternatives m t avail.
Proof. unfold auto_select. intros [= <-]. repeat split. Qed.

Lemma auto_select_fallback_facts (ctx : ModelSelectionContext) (t : TaskType)
    (avail : list string) (r : ModelRecommendation) :
  auto_select ctx t avail None = Ok r ->
  In (name (model r)) avail /\ taskType r = t /\
  confidence r = Double.lit 0.3 /\ alternatives r = [].
Proof.
  unfold auto_select.
  destruct (find _ MODEL_CATALOG) as [fm|] eqn:Hf; [|discriminate].
  intros [= <-]. simpl. apply find_some in Hf. destruct Hf as [_ Hav].
  repeat split. now apply array_includes_In.
Qed.

(** What every returned recommendation looks like, path by path. *)
Lemma recommend_cases (ctx : ModelSelectionContext) (r : ModelRecommendation) :
  recommend ctx = Ok r ->
  taskType r = task_of ctx /\
  In (name (model r)) (available_or_catalog ctx) /\
  (alternatives r =
     getAlternatives (model r) (task_of ctx) (available_or_catalog ctx) \/
   alternatives r = []) /\
  (confidence r = 1.0 \/ confidence r = Double.lit 0.3 \/
   confidence r = calculateConfidence (model r) (task_of ctx) ctx).
Proof.
  unfold recommend.
  destruct (manual_override _ _ _) as [r'|] eqn:Hm.
  - intros [= <-]. apply manual_override_facts in Hm.
    destruct Hm as (Hin & Ht & Hc & Ha). auto.
  - destruct (recommendModel _ _) as [m|] eqn:Hr.
    + intros H. apply auto_select_facts in H.
      destruct H as (Hmod & Ht & Hc & Ha). subst m.
      apply recommendModel_member in Hr. destruct Hr as [Hin _]. auto 6.
    + intros H. apply auto_select_fallback_facts in H.
      destruct H as (Hin & Ht & Hc & Ha). auto 6.
Qed.

End RecommendFacts.

(** C4: when the caller supplies the set of available models, the model of
    every returned recommendation is named in that set, and its alternatives
    are at most two, never contain the selected model (nor any model of the
    same name), and are in descending order of the task score. *)
Theorem recommend_selection_invariants :
  forall (ctx : ModelSelectionContext) (avail : list string)
         (r : ModelRecommendation),
    availableModels ctx = Some avail ->
    ModelSelectionService.recommend ctx = Ok r ->
    In (name (model r)) avail /\
    (List.length (alternatives r) <= 2)%nat /\
    ~ In (model r) (alternatives r) /\
    Forall (fun a => name a <> name (model r)) (alternatives r) /\
    StronglySorted (ModelSelectionService.ranks_before (taskType r)) (alternatives r).
Proof.
  intros ctx avail r Hav Hrec.
  destruct (RecommendFacts.recommend_cases ctx r Hrec) as (Ht & Hin & Halt & _).
  unfold ModelSelectionService.available_or_catalog in Hin, Halt.
  rewrite Hav in Hin, Halt. rewrite Ht.
  split; [exact Hin|].
  assert (Forall (fun a => name a <> name (model r)) (alternatives r)) as Hne.
  { destruct Halt as [-> | ->]; [|constructor].
    apply Forall_forall. intros a Ha.
    now apply RecommendFacts.getAlternatives_members in Ha. }
  repeat split.
  - destruct Halt as [-> | ->]; [apply RecommendFacts.getAlternatives_length|].
    simpl; lia.
  - intros Hself. rewrite Forall_forall in Hne. now apply (Hne _ Hself).
  - exact Hne.
  - destruct Halt as [-> | ->]; [apply RecommendFacts.getAlternatives_sorted|].
    constructor.
Qed.

Lemma recommend_selection_invariants_witness :
  exists r,
    availableModels SelectionSamples.debugging_context =
      Some ["phi3:mini"; "llama3.1:latest"] /\
    ModelSelectionService.recommend SelectionSamples.debugging_context = Ok r /\
    In (name (model r)) ["phi3:mini"; "llama3.1:latest"] /\
    (List.length (alternatives r) <= 2)%nat /\
    ~ In (model r) (alternatives r) /\
    Forall (fun a => name a <> name (model r)) (alternatives r) /\
    StronglySorted (ModelSelectionService.ranks_before (taskType r))
                   (alternatives r).
Proof.
  eexists. split; [reflexivity|]. split; [vm_compute; reflexivity|].
  apply (recommend_selection_invariants SelectionSamples.debugging_context);
    [reflexivity | vm_compute; reflexivity].
Defined.

(** C8: every confidence that [recommend] returns lies in [0,1]; it is
    exactly 1 when the manual override applies, exactly the number 0.3
    (the double of that literal) whenever the fallback branch returns, and
    on the automatic path it is the computed confidence, which the clamp
    keeps at or below 1 and which is never negative. *)
Theorem recommend_confidence_bounds :
  forall (ctx : ModelSelectionContext) (r : ModelRecommendation),
    ModelSelectionService.recommend ctx = Ok r ->
    let t := ModelSelectionService.task_of ctx in
    let avail := ModelSelectionService.available_or_catalog ctx in
    (0 <= confidence r /\ confidence r <= 1) /\
    (ModelSelectionService.manual_override ctx t avail <> None ->
     confidence r == 1) /\
    (forall r', ModelSelectionService.auto_select ctx t avail None = Ok r' ->
                confidence r' == Double.lit 0.3) /\
    (ModelSelectionService.manual_override ctx t avail = None ->
     forall m, recommendModel t avail = Some m ->
       confidence r = ModelSelectionService.calculateConfidence m t ctx /\
       0 <= ModelSelectionService.calculateConfidence m t ctx /\
       ModelSelectionService.calculateConfidence m t ctx <= 1).
Proof.
  intros ctx r Hrec t avail.
  split; [|split; [|split]].
  - destruct (RecommendFacts.recommend_cases ctx r Hrec)
      as (_ & _ & _ & [-> | [-> | ->]]).
    + split; discriminate.
    + split; apply Qle_bool_iff; vm_compute; reflexivity.
    + destruct (calculateConfidence_range (model r)
                  (ModelSelectionService.task_of ctx) ctx) as [Hlo Hhi].
      split; [|exact Hhi].
      eapply Qle_trans; [|exact Hlo]. discriminate.
  - intros Hman. unfold ModelSelectionService.recommend in Hrec.
    fold t avail in Hrec.
    destruct (ModelSelectionService.manual_override ctx t avail) as [r0|] eqn:Hm;
      [|contradiction].
    injection Hrec as <-.
    apply RecommendFacts.manual_override_facts in Hm.
    destruct Hm as (_ & _ & -> & _). reflexivity.
  - intros r' Hfb. apply RecommendFacts.auto_select_fallback_facts in Hfb.
    destruct Hfb as (_ & _ & -> & _). reflexivity.
  - intros Hman m Hm. unfold ModelSelectionService.recommend in Hrec.
    fold t avail in Hrec. rewrite Hman, Hm in Hrec.
    apply RecommendFacts.auto_select_facts in Hrec.
    destruct Hrec as (_ & _ & -> & _).
    destruct (calculateConfidence_range m t ctx) as [Hlo Hhi].
    repeat split; [|exact Hhi].
    eapply Qle_trans; [|exact Hlo]. discriminate.
Qed.

Lemma recommend_confidence_bounds_witness :
  exists r,
    ModelSelectionService.recommend SelectionSamples.manual_context = Ok r /\
    ModelSelectionService.manual_override SelectionSamples.manual_context
      (ModelSelectionService.task_of SelectionSamples.manual_context)
      (ModelSelectionService.available_or_catalog SelectionSamples.manual_context)
      <> None /\
    0 <= confidence r /\ confidence r <= 1 /\ confidence r == 1.
Proof.
  eexists. split; [vm_compute; reflexivity|].
  assert (ModelSelectionService.manual_override SelectionSamples.manual_context
      (ModelSelectionService.task_of SelectionSamples.manual_context)
      (ModelSelectionService.available_or_catalog SelectionSamples.manual_context)
      <> None) as Hman by (vm_compute; discriminate).
  split; [exact Hman|].
  edestruct (recommend_confidence_bounds SelectionSamples.manual_context)
    as ((Hlo & Hhi) & Hone & _); [vm_compute; reflexivity|].
  split; [exact Hlo|]. split; [exact Hhi|]. exact (Hone Hman).
Defined.

(** C10: [calculateConfidence] always returns a value between 0.5 and 1,
    rounding included, so every recommendation that does not come from the
    manual override reports a confidence of at least 0.5, strictly above
    the 0.3 of the fallback branch. *)
Theorem automatic_confidence_at_least_half :
  (forall (m : ModelCapabilities) (t : TaskType) (c : ModelSelectionContext),
      0.5 <= ModelSelectionService.calculateConfidence m t c /\
      ModelSelectionService.calculateConfidence m t c <= 1.0) /\
  (forall (ctx : ModelSelectionContext) (r : ModelRecommendation),
      ModelSelectionService.recommend ctx = Ok r ->
      ModelSelectionService.manual_override ctx
        (ModelSelectionService.task_of ctx)
        (ModelSelectionService.available_or_catalog ctx) = None ->
      confidence r =
        ModelSelectionService.calculateConfidence (model r) (taskType r) ctx /\
      0.5 <= confidence r /\ confidence r <= 1.0 /\
      Double.lit 0.3 < confidence r).
Proof.
  assert (forall m t c,
             0.5 <= ModelSelectionService.calculateConfidence m t c /\
             ModelSelectionService.calculateConfidence m t c <= 1.0) as Hrange.
  { intros m t c. destruct (calculateConfidence_range m t c) as [Hlo Hhi].
    split; [exact Hlo|]. eapply Qle_trans; [exact Hhi | discriminate]. }
  split; [exact Hrange|].
  intros ctx r Hrec Hman.
  unfold ModelSelectionService.recommend in Hrec. rewrite Hman in Hrec.
  destruct (recommendModel _ _) as [m|] eqn:Hm.
  - apply RecommendFacts.auto_select_facts in Hrec.
    destruct Hrec as (Hmod & Ht & Hc & _). rewrite Hmod, Ht, Hc.
    destruct (Hrange m (ModelSelectionService.task_of ctx) ctx) as [Hlo Hhi].
    split; [reflexivity|]. split; [exact Hlo|]. split; [exact Hhi|].
    eapply Qlt_le_trans; [|exact Hlo]. apply Qlt_alt. vm_compute. reflexivity.
  - apply RecommendFacts.recommendModel_none in Hm.
    unfold ModelSelectionService.auto_select in Hrec.
    rewrite Hm in Hrec. discriminate.
Qed.

Lemma automatic_confidence_at_least_half_witness :
  exists r,
    ModelSelectionService.recommend SelectionSamples.debugging_context = Ok r /\
    ModelSelectionService.manual_override SelectionSamples.debugging_context
      (ModelSelectionService.task_of SelectionSamples.debugging_context)
      (ModelSelectionService.available_or_catalog SelectionSamples.debugging_context)
      = None /\
    0.5 <= confidence r /\ confidence r <= 1.0 /\
    Double.lit 0.3 < confidence r.
Proof.
  eexists. split; [vm_compute; reflexivity|]. split; [reflexivity|].
  edestruct (proj2 automatic_confidence_at_least_half
                     SelectionSamples.debugging_context)
    as (_ & Hlo & Hhi & Hfb); [vm_compute; reflexivity | reflexivity |].
  split; [exact Hlo|]. split; [exact Hhi|]. exact Hfb.
Defined.

(** ** Request execution *)

Lemma timeline_app (a b : list Event) :
  timeline (a ++ b) = (timeline a ++ timeline b)%list.
Proof.
  induction a as [|e a IH]; simpl; [reflexivity|].
  destruct e; simpl; now rewrite IH.
Qed.

(** With every attempt failing, a budget of [n] retries is used up: [n + 1]
    attempts separated by waits, and the outcome of the last attempt is
    what the caller gets. *)
Lemma makeRequest_all_failing (backend : Backend) (config : LocalLLMConfig)
    (req : HttpRequest) (n : nat) :
  forall w : World,
    (forall k, is_failure (backend k req) = true) ->
    exists evs,
      makeRequest backend config req n w =
        (settle (backend (calls w + n)%nat req),
         {| calls := (calls w + S n)%nat; trace := (trace w ++ evs)%list |}) /\
      timeline evs = retry_timeline n.
Proof.
  induction n as [|n IH]; intros w Hfail.
  - exists [EvFetch req (or_default_N (timeout config) 30000)].
    split; [|reflexivity].
    simpl. unfold bind, do_fetch.
    rewrite !Nat.add_0_r, Nat.add_1_r.
    destruct (backend (calls w) req); reflexivity.
  - set (w1 := {| calls := S (calls w);
                  trace := (trace w ++
                    [EvFetch req (or_default_N (timeout config) 30000)])%list |}).
    pose proof (Hfail (calls w)) as Hk.
    destruct (backend (calls w) req) as [resp|err] eqn:Hout.
    + set (warning := EvWarn ("Request failed, retrying... (" ++
                              show_nat (S n) ++ " attempts left)") []).
      destruct (IH {| calls := calls w1;
                      trace := ((trace w1 ++ [warning]) ++ [EvSleep 1000])%list |}
                   Hfail) as [evs [Hrun Htl]].
      exists ([EvFetch req (or_default_N (timeout config) 30000); warning;
               EvSleep 1000] ++ evs)%list.
      split.
      * cbn [makeRequest]. unfold bind at 1. unfold do_fetch at 1.
        rewrite Hout. simpl in Hk. rewrite Hk.
        unfold bind at 1. unfold emit at 1.
        unfold bind at 1. unfold sleep, emit at 1.
        cbn [calls trace]. fold w1. fold warning.
        change (calls w1) with (S (calls w)) in Hrun. cbn [calls trace] in Hrun.
        unfold w1 in *. cbn [calls trace] in *. rewrite Hrun.
        f_equal; [f_equal; f_equal; lia|].
        f_equal; [lia|]. now rewrite <- !app_assoc.
      * cbn [app timeline retry_timeline]. now rewrite Htl.
    + set (warning := EvWarn ("Request error, retrying... (" ++
                              show_nat (S n) ++ " attempts left)")
                             [err_message err]).
      destruct (IH {| calls := calls w1;
                      trace := ((trace w1 ++ [warning]) ++ [EvSleep 1000])%list |}
                   Hfail) as [evs [Hrun Htl]].
      exists ([EvFetch req (or_default_N (timeout config) 30000); warning;
               EvSleep 1000] ++ evs)%list.
      split.
      * cbn [makeRequest]. unfold bind at 1. unfold do_fetch at 1.
        rewrite Hout.
        unfold bind at 1. unfold emit at 1.
        unfold bind at 1. unfold sleep, emit at 1.
        cbn [calls trace]. fold warning.
        unfold w1 in *. cbn [calls trace] in *. rewrite Hrun.
        f_equal; [f_equal; f_equal; lia|].
        f_equal; [lia|]. now rewrite <- !app_assoc.
      * cbn [app timeline retry_timeline]. now rewrite Htl.
Qed.

(** C2: with the default budget of 3 retries and a backend that answers
    every attempt with a non-success response, [makeRequest] makes exactly
    four attempts, waits the fixed 1000 ms before each of the three
    retries, and hands the response of the last attempt, still a failure,
    to its caller. *)
Theorem makeRequest_exhausts_default_budget :
  forall (backend : Backend) (config : LocalLLMConfig) (req : HttpRequest)
         (w : World),
    or_default_nat (maxRetries config) 3 = 3%nat ->
    (forall k, exists resp, backend k req = Resolved resp /\ ok resp = false) ->
    exists evs last,
      makeRequest_default backend config req w =
        (Ok last,
         {| calls := (calls w + 4)%nat; trace := (trace w ++ evs)%list |}) /\
      backend (calls w + 3)%nat req = Resolved last /\
      ok last = false /\
      timeline evs =
        [Attempt; Wait 1000; Attempt; Wait 1000; Attempt; Wait 1000; Attempt].
Proof.
  intros backend config req w Hbudget Hbad.
  assert (forall k, is_failure (backend k req) = true) as Hfail.
  { intros k. destruct (Hbad k) as [resp [-> Hok]]. simpl. now rewrite Hok. }
  destruct (makeRequest_all_failing backend config req 3 w Hfail)
    as [evs [Hrun Htl]].
  destruct (Hbad (calls w + 3)%nat) as [last [Hlast Hok]].
  exists evs, last.
  unfold makeRequest_default. rewrite Hbudget, Hrun, Hlast.
  repeat split; assumption.
Qed.

Lemma makeRequest_exhausts_default_budget_witness :
  or_default_nat (maxRetries RetrySamples.default_config) 3 = 3%nat /\
  (forall k, exists resp,
      RetrySamples.always_500 k RetrySamples.tags_request = Resolved resp /\
      ok resp = false) /\
  exists evs last,
    makeRequest_default RetrySamples.always_500 RetrySamples.default_config
      RetrySamples.tags_request RetrySamples.fresh =
      (Ok last, {| calls := 4; trace := evs |}) /\
    RetrySamples.always_500 3%nat RetrySamples.tags_request = Resolved last /\
    ok last = false /\
    timeline evs =
      [Attempt; Wait 1000; Attempt; Wait 1000; Attempt; Wait 1000; Attempt].
Proof.
  assert (forall k, exists resp,
             RetrySamples.always_500 k RetrySamples.tags_request = Resolved resp /\
             ok resp = false) as Hbad.
  { intros k. exists RetrySamples.server_error. split; reflexivity. }
  split; [reflexivity|]. split; [exact Hbad|].
  exact (makeRequest_exhausts_default_budget RetrySamples.always_500
           RetrySamples.default_config RetrySamples.tags_request RetrySamples.fresh
           eq_refl Hbad).
Defined.

(** ** Reply normalisation *)

(** A reply whose prompt counter is present but 0 gets no usage metadata,
    so presence of the counter alone does not decide. *)
Lemma usageMetadata_absent_for_zero_counter :
  ~ (forall r : LocalReply,
        usageMetadata (convertFromLocalFormat r) <> None <->
        prompt_eval_count r <> None).
Proof.
  intros H.
  destruct (H ReplySamples.cached_prompt_reply) as [_ Hback].
  apply Hback; [discriminate | reflexivity].
Qed.

(** C7, amended: the usage metadata is populated exactly when the prompt
    counter is present and not 0; when populated, its total is the sum of
    the prompt counter and the completion counter, each read as 0 when
    missing. *)
Theorem usageMetadata_iff_counter_nonzero :
  forall r : LocalReply,
    (usageMetadata (convertFromLocalFormat r) <> None <->
     exists n, prompt_eval_count r = Some n /\ n <> 0%Z) /\
    (forall u, usageMetadata (convertFromLocalFormat r) = Some u ->
       prompt_eval_count r = Some (promptTokenCount u) /\
       candidatesTokenCount u = eval_count r /\
       totalTokenCount u =
         (match prompt_eval_count r with Some p => p | None => 0 end +
          match eval_count r with Some e => e | None => 0 end)%Z).
Proof.
  intros r. unfold convertFromLocalFormat. cbn [usageMetadata].
  destruct (prompt_eval_count r) as [p|] eqn:Hp.
  - cbn [truthy_number]. destruct (Z.eqb_spec p 0) as [->|Hne]; cbn [negb].
    + split.
      * split; [intros H; now contradiction H|].
        intros [n [[= <-] Hn]]. now contradiction Hn.
      * discriminate.
    + split.
      * split; [intros _; now exists p | discriminate].
      * intros u [= <-]. cbn. repeat split.
  - split.
    + split; [intros H; now contradiction H|].
      intros [n [Hn _]]. discriminate Hn.
    + discriminate.
Qed.

Lemma usageMetadata_iff_counter_nonzero_witness :
  exists u,
    usageMetadata (convertFromLocalFormat ReplySamples.counted_reply) = Some u /\
    prompt_eval_count ReplySamples.counted_reply = Some (promptTokenCount u) /\
    candidatesTokenCount u = eval_count ReplySamples.counted_reply /\
    totalTokenCount u = 12%Z.
Proof.
  eexists. split; [reflexivity|].
  exact (proj2 (usageMetadata_iff_counter_nonzero ReplySamples.counted_reply)
               _ eq_refl).
Defined.

(** ** Byte-size formatting *)

Module FormatBytesFacts.
Import OllamaProvider.
Local Open Scope Q_scope.

Lemma sizes_at_off_table (i : Z) : (5 <= i)%Z -> sizes_at i = "undefined".
Proof.
  intros Hi. destruct i as [|p|p]; try lia.
  unfold sizes_at. apply nth_overflow. cbn [sizes List.length]. lia.
Qed.

Lemma sizes_at_on_table (i : Z) :
  (0 <= i <= 4)%Z -> nth_error sizes (Z.to_nat i) = Some (sizes_at i).
Proof.
  intros Hi.
  assert (i = 0 \/ i = 1 \/ i = 2 \/ i = 3 \/ i = 4)%Z
    as [-> | [-> | [-> | [-> | ->]]]] by lia; reflexivity.
Qed.

(** On the table a power of 1024 is computed without error. *)
Lemma pow1024_on_table (i : Z) :
  (0 <= i <= 4)%Z ->
  pow1024 i == 2 ^ (10 * i) /\ 1024 ^ i == 2 ^ (10 * i).
Proof.
  intros Hi.
  assert (i = 0 \/ i = 1 \/ i = 2 \/ i = 3 \/ i = 4)%Z
    as [-> | [-> | [-> | [-> | ->]]]] by lia;
    split; vm_compute; reflexivity.
Qed.

Lemma formatBytes_steps (Math_log : Q -> Q) (bytes : N) :
  bytes <> 0%N ->
  formatBytes Math_log bytes =
    Double.Number_toString
      (scaled (Double.of_N bytes) (unit_index Math_log (Double.of_N bytes)))
    ++ " " ++ sizes_at (unit_index Math_log (Double.of_N bytes)).
Proof.
  intros Hpos. unfold formatBytes.
  now destruct (N.eqb_spec bytes 0) as [Hz|_].
Qed.

(** The index is at least [k] as soon as the logarithm of the count is at
    least [k] times the logarithm of 1024. *)
Lemma unit_index_lower (Math_log : Q -> Q) (b : Q) (k : Z) :
  (0 <= k)%Z -> Double.round (inject_Z k) == inject_Z k ->
  0 < Math_log 1024 ->
  inject_Z k * Math_log 1024 <= Math_log b ->
  (k <= unit_index Math_log b)%Z.
Proof.
  intros Hk Hfix Hbase Hlog. unfold unit_index, Double.Math_floor, Double.div.
  rewrite <- (Qfloor_Z k). apply Qfloor_resp_le.
  rewrite <- Hfix. apply DoubleFacts.round_le.
  - change 0 with (inject_Z 0). now rewrite <- Zle_Qle.
  - now apply Qle_shift_div_l.
Qed.

Lemma unit_index_upper (Math_log : Q -> Q) (b hi : Q) :
  0 < Math_log 1024 -> 0 <= Math_log b ->
  Math_log b <= hi * Math_log 1024 ->
  (unit_index Math_log b <= Qfloor (Double.round hi))%Z.
Proof.
  intros Hbase Hpos Hlog. unfold unit_index, Double.Math_floor, Double.div.
  apply Qfloor_resp_le, DoubleFacts.round_le.
  - apply Qle_shift_div_l; [exact Hbase|]. lra.
  - now apply Qle_shift_div_r.
Qed.

(** A byte count below 2^53 is a double, and so is its quotient by a
    power of 1024 on the table. *)
Lemma quotient_exact (bytes : N) (i : Z) :
  (0 < bytes < 2 ^ 53)%N -> (0 <= i <= 4)%Z ->
  Double.div (Double.of_N bytes) (pow1024 i) ==
  inject_Z (Z.of_N bytes) / 1024 ^ i.
Proof.
  intros [Hpos Hlt] Hi.
  destruct (pow1024_on_table i Hi) as [Hpow Hpow'].
  assert (0 < Z.of_N bytes < 2 ^ 53)%Z as Hm.
  { split; [lia|]. change (2 ^ 53)%Z with (Z.of_N (2 ^ 53)). lia. }
  assert (Double.of_N bytes == inject_Z (Z.of_N bytes)) as Hb.
  { unfold Double.of_N.
    rewrite (DoubleFacts.round_wd _ (inject_Z (Z.of_N bytes) * 2 ^ 0))
      by (change (2 ^ 0) with 1; ring).
    rewrite (DoubleFacts.round_exact _ 0 Hm) by lia.
    change (2 ^ 0) with 1. ring. }
  unfold Double.div.
  rewrite (DoubleFacts.round_wd _ (inject_Z (Z.of_N bytes) * 2 ^ (- (10 * i)))).
  - rewrite (DoubleFacts.round_exact _ _ Hm) by lia.
    rewrite Hpow', Qpower_opp. reflexivity.
  - rewrite Hb, Hpow, Qpower_opp. reflexivity.
Qed.

(** [Math.round] moves a number by a half at most. *)
Lemma Math_round_error (y : Q) :
  Qabs (inject_Z (Double.Math_round y) - y) <= 1 # 2.
Proof.
  unfold Double.Math_round.
  pose proof (Qfloor_le (y + (1 # 2))) as Hlo.
  pose proof (Qlt_floor (y + (1 # 2))) as Hhi.
  rewrite inject_Z_plus in Hhi. change (inject_Z 1) with 1 in Hhi.
  apply Qabs_Qle_condition. split; lra.
Qed.

(** The number of hundredths that [formatBytes] prints, against the exact
    quotient: half a hundredth from [Math.round], and the rounding of the
    product by 100 before it. *)
Lemma hundredths_close (bytes : N) (i : Z) :
  (0 < bytes < 2 ^ 53)%N -> (0 <= i <= 4)%Z ->
  let exact := inject_Z (Z.of_N bytes) / 1024 ^ i in
  Qabs (inject_Z (Double.Math_round
                    (Double.mul (Double.div (Double.of_N bytes) (pow1024 i))
                                100))
        - 100 * exact)
  <= (1 # 2) + 100 * exact * 2 ^ (-53).
Proof.
  intros Hrange Hi exact.
  pose proof (quotient_exact bytes i Hrange Hi) as Hq. fold exact in Hq.
  unfold Double.mul.
  rewrite (DoubleFacts.round_wd _ (100 * exact)) by (rewrite Hq; ring).
  assert (2 ^ (-40) <= exact) as Hbig.
  { unfold exact. destruct (pow1024_on_table i Hi) as [_ ->].
    apply Qle_shift_div_l; [apply DoubleFacts.pow2_pos|].
    rewrite <- Qpower_plus by discriminate.
    apply Qle_trans with 1.
    - change 1 with (2 ^ 0). apply DoubleFacts.pow2_le. lia.
    - change 1 with (inject_Z 1). rewrite <- Zle_Qle. lia. }
  assert (0 < 2 ^ (-40)) as Hpos by apply DoubleFacts.pow2_pos.
  assert (2 ^ (-1022) <= 100 * exact) as Hnormal.
  { apply Qle_trans with (2 ^ (-40));
      [apply DoubleFacts.pow2_le; lia | lra]. }
  pose proof (DoubleFacts.round_error _ Hnormal) as Hround.
  pose proof (Math_round_error (Double.round (100 * exact))) as Hhalf.
  apply Qabs_Qle_condition in Hround. apply Qabs_Qle_condition in Hhalf.
  apply Qabs_Qle_condition. split; lra.
Qed.

End FormatBytesFacts.

(** C9: the unit table has five entries and the index is never checked
    against it.  Whenever the logarithm of 1024^5 is at least five times
    and at most five and a half times the logarithm of 1024, as it is for
    the exact logarithm and for V8's, [formatBytes] prints 1024^5 as
    "1 undefined"; and every count whose logarithm is at least five times
    that of 1024 is printed with the unit "undefined". *)
Theorem formatBytes_unit_off_the_table :
  forall Math_log : Q -> Q,
    0 < Math_log 1024 ->
    5 * Math_log 1024 <= Math_log 1125899906842624 ->
    Math_log 1125899906842624 <= (11 # 2) * Math_log 1024 ->
    OllamaProvider.formatBytes Math_log (1024 ^ 5) = "1 undefined" /\
    forall bytes : N,
      (0 < bytes)%N ->
      5 * Math_log 1024 <= Math_log (Double.of_N bytes) ->
      (5 <= OllamaProvider.unit_index Math_log (Double.of_N bytes))%Z /\
      exists number : string,
        OllamaProvider.formatBytes Math_log bytes = number ++ " undefined".
Proof.
  intros Math_log Hbase Hlo Hhi.
  assert (forall bytes : N,
             (0 < bytes)%N ->
             5 * Math_log 1024 <= Math_log (Double.of_N bytes) ->
             (5 <= OllamaProvider.unit_index Math_log (Double.of_N bytes))%Z)
    as Hindex.
  { intros bytes Hpos Hlog.
    apply FormatBytesFacts.unit_index_lower;
      [lia | vm_compute; reflexivity | exact Hbase | exact Hlog]. }
  split.
  - rewrite FormatBytesFacts.formatBytes_steps by discriminate.
    change (Double.of_N (1024 ^ 5)) with (1125899906842624 : Q).
    assert (OllamaProvider.unit_index Math_log 1125899906842624 = 5%Z) as ->.
    { apply Z.le_antisymm.
      - apply (FormatBytesFacts.unit_index_upper Math_log _ (11 # 2));
          [exact Hbase | lra | exact Hhi].
      - now apply (Hindex (1024 ^ 5)%N). }
    vm_compute. reflexivity.
  - intros bytes Hpos Hlog. split; [now apply Hindex|].
    rewrite FormatBytesFacts.formatBytes_steps by lia.
    rewrite (FormatBytesFacts.sizes_at_off_table _ (Hindex bytes Hpos Hlog)).
    eexists. reflexivity.
Qed.

Lemma formatBytes_unit_off_the_table_witness :
  0 < RuntimeSamples.Math_log 1024 /\
  5 * RuntimeSamples.Math_log 1024 <= RuntimeSamples.Math_log 1125899906842624 /\
  RuntimeSamples.Math_log 1125899906842624 <=
    (11 # 2) * RuntimeSamples.Math_log 1024 /\
  OllamaProvider.formatBytes RuntimeSamples.Math_log (1024 ^ 5) = "1 undefined".
Proof.
  assert (0 < RuntimeSamples.Math_log 1024) as Hbase
    by (apply Qlt_alt; vm_compute; reflexivity).
  assert (5 * RuntimeSamples.Math_log 1024 <=
          RuntimeSamples.Math_log 1125899906842624) as Hlo
    by (apply Qle_bool_iff; vm_compute; reflexivity).
  assert (RuntimeSamples.Math_log 1125899906842624 <=
          (11 # 2) * RuntimeSamples.Math_log 1024) as Hhi
    by (apply Qle_bool_iff; vm_compute; reflexivity).
  split; [exact Hbase|]. split; [exact Hlo|]. split; [exact Hhi|].
  exact (proj1 (formatBytes_unit_off_the_table RuntimeSamples.Math_log
                  Hbase Hlo Hhi)).
Defined.

(** ** The stream parser *)

Module StreamFacts.
Import OllamaProvider StreamModel.

Lemma append_assoc (a b c : string) : (a ++ b) ++ c = a ++ (b ++ c).
Proof. induction a as [|x a IH]; simpl; [reflexivity | now rewrite IH]. Qed.

Lemma append_empty_r (a : string) : a ++ EmptyString = a.
Proof. induction a as [|x a IH]; simpl; [reflexivity | now rewrite IH]. Qed.

Lemma split_lines_nonempty (s : string) : split_lines s <> [].
Proof.
  destruct s as [|c t]; simpl; [discriminate|].
  destruct (Ascii.eqb c newline); [discriminate|].
  destruct (split_lines t); discriminate.
Qed.

(** Splitting a text that arrives in two parts: the complete lines of the
    first part stay, and its unfinished tail is continued by the second. *)
Lemma split_lines_app (a b : string) :
  split_lines (a ++ b) =
  (removelast (split_lines a) ++
   split_lines (last (split_lines a) EmptyString ++ b))%list.
Proof.
  induction a as [|c t IH]; [reflexivity|].
  cbn [append split_lines].
  pose proof (split_lines_nonempty t) as Hne.
  destruct (Ascii.eqb c newline) eqn:Hc.
  - rewrite IH. destruct (split_lines t) as [|p r]; [contradiction|].
    reflexivity.
  - rewrite IH. destruct (split_lines t) as [|p [|q r]]; [contradiction| |].
    + cbn [removelast last app append split_lines]. rewrite Hc.
      reflexivity.
    + reflexivity.
Qed.

Lemma split_lines_pieces (s : string) :
  Forall (fun p => no_newline p = true) (split_lines s).
Proof.
  induction s as [|c t IH]; simpl; [now repeat constructor|].
  destruct (Ascii.eqb c newline) eqn:Hc; [now constructor|].
  destruct (split_lines t) as [|p r].
  { constructor; [simpl; now rewrite Hc | constructor]. }
  inversion IH as [|? ? Hp Hr]; subst.
  constructor; [|exact Hr]. simpl. now rewrite Hc, Hp.
Qed.

Lemma no_newline_split (s : string) :
  no_newline s = true -> split_lines s = [s].
Proof.
  induction s as [|c t IH]; simpl; [reflexivity|].
  intros H. apply andb_true_iff in H. destruct H as [Hc Ht].
  apply negb_true_iff in Hc. rewrite Hc, (IH Ht). reflexivity.
Qed.

Lemma split_lines_terminated (l rest : string) :
  no_newline l = true ->
  split_lines (l ++ String newline rest) = l :: split_lines rest.
Proof.
  induction l as [|c t IH]; intros Hl.
  - reflexivity.
  - simpl in Hl. apply andb_true_iff in Hl. destruct Hl as [Hc Ht].
    apply negb_true_iff in Hc.
    cbn [append split_lines]. rewrite Hc, (IH Ht). reflexivity.
Qed.

End StreamFacts.

Module StreamLoop.
Import OllamaProvider StreamModel StreamFacts.

Section Loop.
Variable JSON_parse : string -> option LocalReply.

Lemma complete_lines_app (a b : string) :
  complete_lines (a ++ b) =
  (complete_lines a ++
   complete_lines (last (split_lines a) EmptyString ++ b))%list.
Proof.
  unfold complete_lines. rewrite split_lines_app.
  apply removelast_app, split_lines_nonempty.
Qed.

Lemma last_split_no_newline (s : string) :
  no_newline (last (split_lines s) EmptyString) = true.
Proof.
  pose proof (split_lines_pieces s) as Hall.
  pose proof (split_lines_nonempty s) as Hne.
  rewrite Forall_forall in Hall. apply Hall.
  rewrite (app_removelast_last EmptyString Hne) at 2.
  apply in_or_app. right. now left.
Qed.

(** The [for] loop over two batches of lines: the second batch is looked
    at only when the first did not return. *)
Lemma for_lines_app (l1 l2 : list string) :
  for_lines JSON_parse (l1 ++ l2) =
  if snd (for_lines JSON_parse l1) then for_lines JSON_parse l1
  else ((fst (for_lines JSON_parse l1) ++ fst (for_lines JSON_parse l2))%list,
        snd (for_lines JSON_parse l2)).
Proof.
  induction l1 as [|line rest IH]; simpl.
  - now destruct (for_lines JSON_parse l2).
  - destruct (blank line); [exact IH|].
    destruct (JSON_parse line) as [chunk|].
    + destruct (done chunk); [reflexivity|].
      rewrite IH. destruct (for_lines JSON_parse rest) as [evs [|]];
        reflexivity.
    + rewrite IH. destruct (for_lines JSON_parse rest) as [evs [|]];
        reflexivity.
Qed.

(** The [for] loop does to a batch of lines what the line-by-line
    description says. *)
Lemma for_lines_line_by_line (lines : list string) :
  fst (for_lines JSON_parse lines) =
  flat_map (line_events JSON_parse) (through_done JSON_parse lines).
Proof.
  induction lines as [|line rest IH]; [reflexivity|].
  cbn [for_lines through_done]. unfold ends_stream.
  destruct (blank line) eqn:Hb; cbn [negb andb].
  - cbn [flat_map]. unfold line_events at 1. rewrite Hb. exact IH.
  - destruct (JSON_parse line) as [chunk|] eqn:Hp.
    + destruct (done chunk) eqn:Hd.
      * cbn [flat_map fst]. unfold line_events. now rewrite Hb, Hp.
      * destruct (for_lines JSON_parse rest) as [evs ret].
        cbn [flat_map fst]. unfold line_events at 1. rewrite Hb, Hp.
        cbn [fst] in IH. now rewrite IH.
    + destruct (for_lines JSON_parse rest) as [evs ret].
      cbn [flat_map fst]. unfold line_events at 1. rewrite Hb, Hp.
      cbn [fst] in IH. now rewrite IH.
Qed.

(** The read loop, whatever the cuts between the reads, handles the
    complete lines of the whole text. *)
Lemma read_loop_whole_body (reads : list string) :
  forall buffer : string,
    no_newline buffer = true ->
    read_loop JSON_parse reads buffer =
    fst (for_lines JSON_parse (complete_lines (buffer ++ whole_body reads))).
Proof.
  induction reads as [|value rest IH]; intros buffer Hbuf.
  - cbn [read_loop whole_body]. rewrite append_empty_r.
    unfold complete_lines. now rewrite (no_newline_split buffer Hbuf).
  - cbn [read_loop whole_body].
    rewrite <- append_assoc, complete_lines_app, for_lines_app.
    fold (complete_lines (buffer ++ value)).
    destruct (for_lines JSON_parse (complete_lines (buffer ++ value)))
      as [evs [|]]; cbn [fst snd]; [reflexivity|].
    f_equal. apply IH, last_split_no_newline.
Qed.

Lemma processStreamResponse_expected (response : Response)
    (reads : list string) :
  body response = Some reads ->
  processStreamResponse JSON_parse response =
  Ok (expected_events JSON_parse (whole_body reads)).
Proof.
  intros Hbody. unfold processStreamResponse, expected_events.
  rewrite Hbody, read_loop_whole_body by reflexivity.
  cbn [append]. now rewrite for_lines_line_by_line.
Qed.

End Loop.

End StreamLoop.

(** C5: the stream parser handles the newline-terminated lines of the body
    one by one, however the body is cut into reads: a blank line gives
    nothing, a line that does not parse gives a warning and the stream goes
    on, a line that parses gives its normalised chunk, and nothing is read
    after the first chunk with [done] or after the reader closes.  In
    particular a body of two lines, the first parsing to a chunk without
    [done] and the second to a chunk with [done], yields exactly those two
    items, the second with the STOP signal, and then ends. *)
Theorem processStreamResponse_line_by_line :
  forall (JSON_parse : string -> option LocalReply) (response : Response)
         (reads : list string),
    body response = Some reads ->
    OllamaProvider.processStreamResponse JSON_parse response =
      Ok (StreamModel.expected_events JSON_parse
            (StreamModel.whole_body reads)) /\
    (forall (l1 l2 : string) (c1 c2 : LocalReply),
        StreamModel.whole_body reads =
          l1 ++ String OllamaProvider.newline
                  (l2 ++ String OllamaProvider.newline EmptyString) ->
        StreamModel.no_newline l1 = true ->
        StreamModel.no_newline l2 = true ->
        blank l1 = false -> blank l2 = false ->
        JSON_parse l1 = Some c1 -> done c1 = false ->
        JSON_parse l2 = Some c2 -> done c2 = true ->
        OllamaProvider.processStreamResponse JSON_parse response =
          Ok [OllamaProvider.Yielded (convertFromLocalFormat c1);
              OllamaProvider.Yielded (convertFromLocalFormat c2);
              OllamaProvider.Released] /\
        map finishReason (candidates (convertFromLocalFormat c2)) =
          [Some STOP]).
Proof.
  intros JSON_parse response reads Hbody.
  pose proof (StreamLoop.processStreamResponse_expected JSON_parse response
                reads Hbody) as Hrun.
  split; [exact Hrun|].
  intros l1 l2 c1 c2 Htext Hn1 Hn2 Hb1 Hb2 Hp1 Hd1 Hp2 Hd2.
  rewrite Hrun, Htext. split.
  - unfold StreamModel.expected_events, StreamModel.complete_lines.
    rewrite (StreamFacts.split_lines_terminated l1 _ Hn1).
    rewrite (StreamFacts.split_lines_terminated l2 _ Hn2).
    cbn [OllamaProvider.split_lines removelast StreamModel.through_done].
    unfold StreamModel.ends_stream.
    rewrite Hb1, Hp1, Hd1, Hb2, Hp2, Hd2. cbn [negb andb flat_map].
    unfold StreamModel.line_events.
    rewrite Hb1, Hp1, Hb2, Hp2. reflexivity.
  - unfold convertFromLocalFormat. cbn. now rewrite Hd2.
Qed.

Lemma processStreamResponse_line_by_line_witness :
  body StreamSamples.two_line_response <> None /\
  OllamaProvider.processStreamResponse StreamSamples.parse_sample
    StreamSamples.two_line_response =
    Ok [OllamaProvider.Yielded (convertFromLocalFormat StreamSamples.reply_running);
        OllamaProvider.Yielded (convertFromLocalFormat StreamSamples.reply_done);
        OllamaProvider.Released] /\
  map finishReason (candidates (convertFromLocalFormat StreamSamples.reply_done)) =
    [Some STOP].
Proof.
  split; [discriminate|].
  refine (proj2 (processStreamResponse_line_by_line StreamSamples.parse_sample
                   StreamSamples.two_line_response _ eq_refl)
                StreamSamples.line_running StreamSamples.line_done
                StreamSamples.reply_running StreamSamples.reply_done
                _ _ _ _ _ _ _ _ _);
    vm_compute; reflexivity.
Defined.

(** ** The model-presence check *)

Module IncludesFacts.

Lemma prefix_append (p t : string) : String.prefix p (p ++ t) = true.
Proof.
  induction p as [|c p IH]; simpl; [now destruct t|].
  destruct (ascii_dec c c) as [_|Hne]; [exact IH | now contradiction Hne].
Qed.

Lemma includes_prefix (s p : string) :
  String.prefix p s = true -> includes s p = true.
Proof. intros H. destruct s; cbn [includes]; rewrite H; reflexivity. Qed.

Lemma includes_append_l (a b p : string) :
  includes b p = true -> includes (a ++ b) p = true.
Proof.
  intros H. induction a as [|c a IH]; [exact H|].
  cbn [append includes]. rewrite IH. apply orb_true_r.
Qed.

Lemma includes_middle (a p b : string) : includes (a ++ p ++ b) p = true.
Proof. apply includes_append_l, includes_prefix, prefix_append. Qed.

Lemma includes_self (p : string) : includes p p = true.
Proof.
  apply includes_prefix. rewrite <- (StreamFacts.append_empty_r p) at 2.
  apply prefix_append.
Qed.

Lemma join_includes (sep : string) (xs : list string) (x : string) :
  In x xs -> includes (join sep xs) x = true.
Proof.
  unfold join. induction xs as [|y ys IH]; [contradiction|].
  intros [->|Hin].
  - destruct ys as [|z zs]; simpl; [apply includes_self|].
    apply (includes_middle EmptyString).
  - destruct ys as [|z zs]; [contradiction|].
    change (String.concat sep (y :: z :: zs))
      with (y ++ sep ++ String.concat sep (z :: zs)).
    now apply includes_append_l, includes_append_l, IH.
Qed.

End IncludesFacts.

Module PresenceFacts.
Import OllamaProvider.

(** The message of the error names the model and every installed name. *)
Lemma ModelNotAvailableError_message (wanted : string) (names : list string) :
  err_name (ModelNotAvailableError wanted names) = "ModelNotAvailableError" /\
  err_message (ModelNotAvailableError wanted names) =
    "Model " ++ dquote ++ wanted ++ dquote ++
    " not available. Available models: " ++ join ", " names /\
  includes (err_message (ModelNotAvailableError wanted names)) wanted = true /\
  Forall (fun n => includes (err_message (ModelNotAvailableError wanted names)) n
                   = true) names.
Proof.
  split; [reflexivity|]. split; [reflexivity|]. split.
  - cbn [err_message ModelNotAvailableError].
    apply (IncludesFacts.includes_append_l "Model "),
          (IncludesFacts.includes_append_l dquote),
          IncludesFacts.includes_prefix, IncludesFacts.prefix_append.
  - apply Forall_forall. intros n Hn.
    cbn [err_message ModelNotAvailableError].
    apply (IncludesFacts.includes_append_l "Model "),
          (IncludesFacts.includes_append_l dquote),
          IncludesFacts.includes_append_l,
          (IncludesFacts.includes_append_l dquote),
          (IncludesFacts.includes_append_l " not available. Available models: ").
    now apply IncludesFacts.join_includes.
Qed.

End PresenceFacts.

(** C6: once the installed models are listed, the check accepts when some
    installed name starts with the configured model id and asks for
    nothing more; otherwise it pulls the configured model, and when that
    pull fails it throws a ModelNotAvailableError whose message names the
    requested id and every installed model, and no generation step runs. *)
Theorem ensureModelAvailable_guarantee :
  forall (Math_log : Q -> Q) (backend : Backend) (config : LocalLLMConfig)
         (json_models : Response -> Result (list OllamaModel))
         (progress_status : string -> option string)
         (read_error : Response -> option JsError)
         (w w1 : World) (models : list LocalModelInfo),
    OllamaProvider.listModels Math_log backend config json_models w =
      (Ok models, w1) ->
    let wanted := cfg_model config in
    let names := map info_name models in
    let w_pull :=
      {| calls := calls w1;
         trace := (trace w1 ++
                   [EvLog ("Model " ++ wanted ++
                           " not found locally, attempting to pull...")])%list |} in
    let ensure :=
      OllamaProvider.ensureModelAvailable Math_log backend config json_models
        progress_status read_error in
    let pull :=
      OllamaProvider.pullModel backend config progress_status read_error
        wanted in
    (existsb (fun name => startsWith name wanted) names = true ->
     ensure w = (Ok tt, w1)) /\
    (existsb (fun name => startsWith name wanted) names = false ->
     (forall w2, pull w_pull = (Ok tt, w2) ->
        ensure w =
          (Ok tt,
           {| calls := calls w2;
              trace := (trace w2 ++
                        [EvLog ("Successfully pulled model " ++ wanted)])%list |})) /\
     (forall e w2, pull w_pull = (Throw e, w2) ->
        ensure w = (Throw (ModelNotAvailableError wanted names), w2) /\
        forall (A : Type) (generation : IO A),
          OllamaProvider.after_model_check Math_log backend config
            json_models progress_status read_error generation w =
          (Throw (ModelNotAvailableError wanted names), w2))) /\
    err_name (ModelNotAvailableError wanted names) = "ModelNotAvailableError" /\
    err_message (ModelNotAvailableError wanted names) =
      "Model " ++ dquote ++ wanted ++ dquote ++
      " not available. Available models: " ++ join ", " names /\
    includes (err_message (ModelNotAvailableError wanted names)) wanted = true /\
    Forall (fun n =>
              includes (err_message (ModelNotAvailableError wanted names)) n
              = true) names.
Proof.
  intros Math_log backend config json_models progress_status read_error
         w w1 models Hlist wanted names w_pull ensure pull.
  split; [|split; [|apply PresenceFacts.ModelNotAvailableError_message]].
  - intros Hfound. unfold ensure, OllamaProvider.ensureModelAvailable.
    unfold bind at 1. rewrite Hlist. fold wanted names. rewrite Hfound.
    reflexivity.
  - intros Hmissing.
    assert (forall res w2, pull w_pull = (res, w2) ->
              ensure w =
              match res with
              | Ok _ =>
                  (Ok tt,
                   {| calls := calls w2;
                      trace := (trace w2 ++
                                [EvLog ("Successfully pulled model " ++ wanted)])%list |})
              | Throw _ => (Throw (ModelNotAvailableError wanted names), w2)
              end) as Hrun.
    { intros res w2 Hpull.
      unfold ensure, OllamaProvider.ensureModelAvailable.
      unfold bind at 1. rewrite Hlist. fold wanted names. rewrite Hmissing.
      cbn [negb]. unfold bind at 1. unfold emit at 1. fold w_pull.
      unfold try_catch, bind. fold pull. rewrite Hpull.
      destruct res as [[]|e]; reflexivity. }
    split.
    + intros w2 Hpull. exact (Hrun _ _ Hpull).
    + intros e w2 Hpull. pose proof (Hrun _ _ Hpull) as Hens. cbn in Hens.
      split; [exact Hens|].
      intros A generation. unfold OllamaProvider.after_model_check, bind.
      fold ensure. now rewrite Hens.
Qed.

Lemma ensureModelAvailable_guarantee_witness :
  OllamaProvider.listModels RuntimeSamples.Math_log
    PresenceSamples.registry_down RetrySamples.default_config
    PresenceSamples.json_models RetrySamples.fresh =
    (Ok PresenceSamples.installed, PresenceSamples.after_listing) /\
  existsb (fun name => startsWith name "llama3.1")
          (map info_name PresenceSamples.installed) = false /\
  OllamaProvider.pullModel PresenceSamples.registry_down RetrySamples.default_config
    PresenceSamples.no_status PresenceSamples.reads_complete "llama3.1"
    PresenceSamples.pull_start =
    (Throw PresenceSamples.pull_error, PresenceSamples.after_pull) /\
  OllamaProvider.ensureModelAvailable RuntimeSamples.Math_log
    PresenceSamples.registry_down RetrySamples.default_config
    PresenceSamples.json_models PresenceSamples.no_status
    PresenceSamples.reads_complete RetrySamples.fresh =
    (Throw (ModelNotAvailableError "llama3.1" ["phi3:mini"]),
     PresenceSamples.after_pull).
Proof.
  assert (Hlist : OllamaProvider.listModels RuntimeSamples.Math_log
                    PresenceSamples.registry_down RetrySamples.default_config
                    PresenceSamples.json_models RetrySamples.fresh
                  = (Ok PresenceSamples.installed, PresenceSamples.after_listing))
    by (vm_compute; reflexivity).
  assert (Hmissing : existsb (fun name => startsWith name "llama3.1")
                       (map info_name PresenceSamples.installed) = false)
    by (vm_compute; reflexivity).
  assert (Hpull : OllamaProvider.pullModel PresenceSamples.registry_down
                    RetrySamples.default_config PresenceSamples.no_status
                    PresenceSamples.reads_complete "llama3.1"
                    PresenceSamples.pull_start
                  = (Throw PresenceSamples.pull_error, PresenceSamples.after_pull))
    by (vm_compute; reflexivity).
  split; [exact Hlist|]. split; [exact Hmissing|]. split; [exact Hpull|].
  exact (proj1 (proj2 (proj1 (proj2
           (ensureModelAvailable_guarantee RuntimeSamples.Math_log
              PresenceSamples.registry_down RetrySamples.default_config
              PresenceSamples.json_models PresenceSamples.no_status
              PresenceSamples.reads_complete RetrySamples.fresh
              PresenceSamples.after_listing PresenceSamples.installed Hlist))
           Hmissing) PresenceSamples.pull_error PresenceSamples.after_pull Hpull)).
Defined.

(** ** Worked examples *)

Example classify_bug_report :
  analyzeTaskType "fix this bug in my code" None = debugging.
Proof. reflexivity. Qed.

(** "write" is a code-generation keyword, and that rule comes first. *)
Example classify_write_a_poem :
  analyzeTaskType "Write a poem about autumn" None = code_generation.
Proof. reflexivity. Qed.

Example classify_create_a_poem :
  analyzeTaskType "Create a poem about autumn" None = creative_writing.
Proof. reflexivity. Qed.

Example classify_short_question :
  analyzeTaskType "What is a monad?" None = quick_questions.
Proof. reflexivity. Qed.

(** Byte counts as V8 formats them. *)
Example formatBytes_below_one_KB :
  OllamaProvider.formatBytes RuntimeSamples.Math_log 1023 = "1023 Bytes".
Proof. vm_compute. reflexivity. Qed.

Example formatBytes_one_MB :
  OllamaProvider.formatBytes RuntimeSamples.Math_log 1048576 = "1 MB".
Proof. vm_compute. reflexivity. Qed.

Example formatBytes_two_decimals :
  OllamaProvider.formatBytes RuntimeSamples.Math_log 1234567 = "1.18 MB".
Proof. vm_compute. reflexivity. Qed.

Example formatBytes_five_GB :
  OllamaProvider.formatBytes RuntimeSamples.Math_log 5368709120 = "5 GB".
Proof. vm_compute. reflexivity. Qed.

(** Just below a power of 1024 the hundredths round up to 1024 of the
    smaller unit. *)
Example formatBytes_below_one_MB :
  OllamaProvider.formatBytes RuntimeSamples.Math_log 1048575 = "1024 KB".
Proof. vm_compute. reflexivity. Qed.

(** The product by 100 is rounded before [Math.round] sees it: the exact
    quotient is 327.91499..., the product rounds to 32791.5. *)
Example formatBytes_rounds_twice :
  OllamaProvider.formatBytes RuntimeSamples.Math_log 360546355422167 =
  "327.92 TB".
Proof. vm_compute. reflexivity. Qed.

(** One byte below 1024^5 the logarithm already rounds to that of 1024^5,
    and the index leaves the table. *)
Example formatBytes_below_the_end :
  OllamaProvider.formatBytes RuntimeSamples.Math_log (1024 ^ 5 - 1) =
  "1 undefined".
Proof. vm_compute. reflexivity. Qed.

Example formatBytes_past_TB :
  OllamaProvider.formatBytes RuntimeSamples.Math_log 1176565402650542 =
  "1.05 undefined".
Proof. vm_compute. reflexivity. Qed.

(** The confidence of a model with one matching tag and a speed match:
    0.5 + 0.15 + 0.05 is 0.7000000000000001 in doubles, which is above
    the threshold of the switch advisory. *)
Example confidence_just_above_0_7 :
  exists r advice,
    ModelSelectionService.recommend SelectionSamples.threshold_context = Ok r /\
    Double.Number_toString (confidence r) = "0.7000000000000001" /\
    ServiceLookup.shouldSwitchModel "my-model"
      SelectionSamples.threshold_context = Ok advice /\
    ServiceLookup.shouldSwitch advice = true.
Proof.
  eexists. eexists. split; [vm_compute; reflexivity|].
  split; [vm_compute; reflexivity|].
  split; [vm_compute; reflexivity|]. reflexivity.
Qed.


(** The debugging sample has two matching tags and a speed match: the
    exact sum is 0.85, the doubles add up to the next number above it. *)
Example confidence_is_a_double :
  exists r,
    ModelSelectionService.recommend SelectionSamples.debugging_context = Ok r /\
    Double.Number_toString (confidence r) = "0.8500000000000001" /\
    ConfidenceModel.exact (model r) (taskType r)
      SelectionSamples.debugging_context == 0.85 /\
    ~ confidence r == 0.85.
Proof.
  eexists. split; [vm_compute; reflexivity|].
  split; [vm_compute; reflexivity|].
  split; [vm_compute; reflexivity|].
  intros H. vm_compute in H. discriminate H.
Qed.

(** A reply with content "X" and [done] normalises to one candidate with
    the text "X" and the STOP signal. *)
Example convertFromLocalFormat_round_trip :
  candidates (convertFromLocalFormat ReplySamples.counted_reply) =
  [ {| cand_content := {| role := "model"; parts := [ {| text := "X" |} ] |};
       finishReason := Some STOP |} ].
Proof. reflexivity. Qed.

(** When [recommendModel] finds nothing, [recommend] has nothing to fall
    back on: the fallback branch is never taken. *)
Lemma no_candidate_no_fallback (ctx : ModelSelectionContext) (t : TaskType)
    (avail : list string) :
  recommendModel t avail = None ->
  ModelSelectionService.auto_select ctx t avail None =
  Throw (mkError "No available models found").
Proof.
  intros H. apply RecommendFacts.recommendModel_none in H.
  unfold ModelSelectionService.auto_select. now rewrite H.
Qed.

(** One failing attempt followed by a success costs one retry. *)
Example makeRequest_recovers :
  let flaky : Backend :=
    fun k _ => match k with
               | O => Resolved RetrySamples.server_error
               | _ => Resolved PresenceSamples.listing
               end in
  let run := makeRequest_default flaky RetrySamples.default_config
               RetrySamples.tags_request RetrySamples.fresh in
  fst run = Ok PresenceSamples.listing /\
  timeline (trace (snd run)) = [Attempt; Wait 1000; Attempt].
Proof. vm_compute. split; reflexivity. Qed.

(** * Further properties *)

(** ** Scoring and the recommendation primitive *)

Module CatalogFacts.

Lemma score_formula (m : ModelCapabilities) (t : TaskType) :
  scoreModelForTask m t =
  (3 * Z.of_nat (ConfidenceModel.matching_tags m t)
   + (if ConfidenceModel.quality_matches m t then 2 else 0)
   + (if ConfidenceModel.speed_matches m t then 1 else 0))%Z.
Proof.
  unfold scoreModelForTask, score_against, ConfidenceModel.matching_tags,
    ConfidenceModel.quality_matches, ConfidenceModel.speed_matches,
    ConfidenceModel.preferred_strengths, matchingStrengths.
  destruct (table_gives_both t) as [ss [p ->]].
  cbn [pref_strengths pref_performance mkPreferences].
  change (fun s => has_strength ss s) with (has_strength ss).
  repeat match goal with
         | |- context [if ?b then _ else _] => destruct b
         end; lia.
Qed.

Lemma matching_tags_le (m : ModelCapabilities) (t : TaskType) :
  (ConfidenceModel.matching_tags m t <= List.length (strengths m))%nat.
Proof. unfold ConfidenceModel.matching_tags. apply filter_length_le. Qed.

(** The head of the sorted array is the leftmost entry of maximal score. *)
Lemma sort_head_leftmost_max (l : list Scored) :
  forall x xs,
    array_sort by_score_desc l = x :: xs ->
    exists pre post,
      l = (pre ++ x :: post)%list /\
      Forall (fun y => (s_score y < s_score x)%Z) pre /\
      Forall (fun y => (s_score y <= s_score x)%Z) post.
Proof.
  induction l as [|a l' IH]; intros x xs Hsort; [discriminate|].
  cbn [array_sort] in Hsort.
  destruct (array_sort by_score_desc l') as [|h r] eqn:Hl'.
  - pose proof (array_sort_length by_score_desc l') as Hlen.
    rewrite Hl' in Hlen. destruct l'; [|discriminate].
    injection Hsort as <- <-. exists [], []. repeat split; constructor.
  - destruct (IH h r eq_refl) as (pre & post & -> & Hpre & Hpost).
    cbn [sort_insert] in Hsort. unfold by_score_desc at 1 in Hsort.
    destruct (s_score h - s_score a <=? 0)%Z eqn:Hcmp.
    + apply Z.leb_le in Hcmp. injection Hsort as <- <-.
      exists [], (pre ++ h :: post)%list. split; [reflexivity|].
      split; [constructor|].
      apply Forall_app. split; [|constructor].
      * eapply Forall_impl; [|exact Hpre]. intros; cbn in *; lia.
      * lia.
      * eapply Forall_impl; [|exact Hpost]. intros; cbn in *; lia.
    + apply Z.leb_gt in Hcmp. injection Hsort as <- <-.
      exists (a :: pre), post. split; [reflexivity|].
      split; [constructor; [lia | exact Hpre] | exact Hpost].
Qed.

(** [recommendModel] picks, among the catalog entries whose name is
    available, the leftmost one of maximal score. *)
Lemma recommendModel_leftmost_max (t : TaskType) (avail : list string)
    (m : ModelCapabilities) :
  recommendModel t avail = Some m ->
  exists before after,
    filter (fun model => array_includes avail (name model)) MODEL_CATALOG =
      (before ++ m :: after)%list /\
    Forall (fun m' => (scoreModelForTask m' t < scoreModelForTask m t)%Z) before /\
    Forall (fun m' => (scoreModelForTask m' t <= scoreModelForTask m t)%Z) after.
Proof.
  unfold recommendModel.
  set (candidates := filter _ MODEL_CATALOG).
  destruct candidates as [|c cs] eqn:Hc; [discriminate|].
  rewrite <- Hc. clear Hc c cs.
  set (mk := fun model => {| s_model := model;
                             s_score := scoreModelForTask model t |}).
  destruct (array_sort by_score_desc (map mk candidates)) as [|x xs] eqn:Hs;
    [discriminate|].
  cbn [hd_error option_map]. intros [= <-].
  destruct (sort_head_leftmost_max _ _ _ Hs) as (pre & post & Heq & Hpre & Hpost).
  apply map_eq_app in Heq. destruct Heq as (before & rest & Hcand & Hb & Hrest).
  apply map_eq_cons in Hrest. destruct Hrest as (m & after & -> & Hm & Ha).
  subst x pre post. exists before, after. split; [exact Hcand|].
  cbn [s_model mk]. rewrite !Forall_map in *. cbn in *. split; assumption.
Qed.

Lemma find_none_iff {A : Type} (f : A -> bool) (l : list A) :
  find f l = None <-> forall x, In x l -> f x = false.
Proof.
  split; [apply find_none|].
  induction l as [|a l IH]; intros H; [reflexivity|].
  cbn. rewrite (H a (or_introl eq_refl)). apply IH.
  intros x Hx. apply H. now right.
Qed.

Lemma recommendModel_none_iff (t : TaskType) (avail : list string) :
  recommendModel t avail = None <->
  forall m, In m MODEL_CATALOG -> ~ In (name m) avail.
Proof.
  split.
  - intros H m Hm Hin. apply RecommendFacts.recommendModel_none in H.
    rewrite find_none_iff in H. specialize (H m Hm).
    apply array_includes_In in Hin. congruence.
  - intros H. destruct (recommendModel t avail) as [m|] eqn:Hr; [|reflexivity].
    apply RecommendFacts.recommendModel_member in Hr.
    destruct Hr as [Hin Hcat]. now elim (H m Hcat).
Qed.

End CatalogFacts.

(** X1: the score of a model for a task is 3 per strength tag the task
    prefers, plus 2 for the preferred quality and 1 for the preferred
    speed; it lies between 0 and three times the number of tags plus 3,
    and among models of the same performance it does not decrease when the
    number of matching tags grows. *)
Theorem scoreModelForTask_monotone :
  forall (t : TaskType) (m1 m2 : ModelCapabilities),
    performance m1 = performance m2 ->
    (ConfidenceModel.matching_tags m1 t <= ConfidenceModel.matching_tags m2 t)%nat ->
    (scoreModelForTask m1 t <= scoreModelForTask m2 t)%Z /\
    (0 <= scoreModelForTask m1 t <= 3 * Z.of_nat (List.length (strengths m1)) + 3)%Z /\
    scoreModelForTask m1 t =
      (3 * Z.of_nat (ConfidenceModel.matching_tags m1 t)
       + (if ConfidenceModel.quality_matches m1 t then 2 else 0)
       + (if ConfidenceModel.speed_matches m1 t then 1 else 0))%Z.
Proof.
  intros t m1 m2 Hperf Htags.
  rewrite !CatalogFacts.score_formula.
  pose proof (CatalogFacts.matching_tags_le m1 t) as Hle.
  unfold ConfidenceModel.quality_matches, ConfidenceModel.speed_matches.
  rewrite Hperf.
  destruct (pref_performance (TASK_TO_MODEL_PREFERENCES t)) as [p|];
    repeat match goal with
           | |- context [if ?b then _ else _] => destruct b
           end; lia.
Qed.

Lemma scoreModelForTask_monotone_witness :
  performance llama3_1 = performance gemma3_4b /\
  (ConfidenceModel.matching_tags gemma3_4b debugging <=
   ConfidenceModel.matching_tags llama3_1 debugging)%nat /\
  (scoreModelForTask gemma3_4b debugging <= scoreModelForTask llama3_1 debugging)%Z.
Proof.
  assert (performance gemma3_4b = performance llama3_1) as Hp by reflexivity.
  assert (ConfidenceModel.matching_tags gemma3_4b debugging <=
          ConfidenceModel.matching_tags llama3_1 debugging)%nat as Ht
    by (vm_compute; lia).
  split; [now symmetry|]. split; [exact Ht|].
  exact (proj1 (scoreModelForTask_monotone debugging gemma3_4b llama3_1 Hp Ht)).
Defined.

(** X2: the model [recommendModel] returns is a catalog entry whose name is
    available; no available catalog entry scores higher, and every
    available entry listed before it in the catalog scores strictly lower,
    so ties go to the entry listed first. *)
Theorem recommendModel_best_available :
  forall (t : TaskType) (avail : list string) (m : ModelCapabilities),
    recommendModel t avail = Some m ->
    In m MODEL_CATALOG /\ In (name m) avail /\
    (forall m', In m' MODEL_CATALOG -> In (name m') avail ->
                (scoreModelForTask m' t <= scoreModelForTask m t)%Z) /\
    exists before after,
      filter (fun model => array_includes avail (name model)) MODEL_CATALOG =
        (before ++ m :: after)%list /\
      Forall (fun m' => (scoreModelForTask m' t < scoreModelForTask m t)%Z)
             before.
Proof.
  intros t avail m Hrec.
  destruct (RecommendFacts.recommendModel_member t avail m Hrec) as [Hin Hcat].
  destruct (CatalogFacts.recommendModel_leftmost_max t avail m Hrec)
    as (before & after & Hsplit & Hbefore & Hafter).
  split; [exact Hcat|]. split; [exact Hin|]. split.
  - intros m' Hcat' Hin'.
    assert (In m' (before ++ m :: after)) as Hm'.
    { rewrite <- Hsplit. apply filter_In. split; [exact Hcat'|].
      now apply array_includes_In. }
    apply in_app_or in Hm'. rewrite Forall_forall in Hbefore, Hafter.
    destruct Hm' as [Hb | [<- | Ha]].
    + specialize (Hbefore _ Hb). cbn in Hbefore. lia.
    + lia.
    + exact (Hafter _ Ha).
  - exists before, after. split; assumption.
Qed.

Lemma recommendModel_best_available_witness :
  recommendModel general_chat ["phi3:mini"; "llama3.1:latest"] = Some llama3_1 /\
  In llama3_1 MODEL_CATALOG /\
  (scoreModelForTask phi3_mini general_chat <=
   scoreModelForTask llama3_1 general_chat)%Z.
Proof.
  assert (recommendModel general_chat ["phi3:mini"; "llama3.1:latest"]
          = Some llama3_1) as Hrec by (vm_compute; reflexivity).
  destruct (recommendModel_best_available _ _ _ Hrec) as (Hcat & _ & Hbest & _).
  split; [exact Hrec|]. split; [exact Hcat|].
  apply Hbest; vm_compute; tauto.
Defined.

(** ** The selection service *)

Module ServiceFacts.
Import ModelSelectionService ServiceLookup.

Lemma manual_override_needs_available (ctx : ModelSelectionContext)
    (t : TaskType) (avail : list string) :
  (forall m, In m MODEL_CATALOG -> ~ In (name m) avail) ->
  manual_override ctx t avail = None.
Proof.
  intros Hnone.
  destruct (manual_override ctx t avail) as [r|] eqn:Hm; [|reflexivity].
  exfalso. unfold manual_override in Hm.
  destruct (userPreferences ctx) as [prefs|]; [|discriminate].
  destruct (mode prefs); [discriminate|].
  destruct (preferredModel prefs) as [preferred|]; [|discriminate].
  destruct (truthy preferred && array_includes avail preferred)%bool eqn:Hc;
    [|discriminate].
  destruct (find _ MODEL_CATALOG) as [pm|] eqn:Hf; [|discriminate].
  apply andb_true_iff in Hc. destruct Hc as [_ Hav].
  apply find_some in Hf. destruct Hf as [Hcat Hname].
  apply String.eqb_eq in Hname. apply array_includes_In in Hav.
  apply (Hnone pm Hcat). now rewrite Hname.
Qed.

Lemma getAlternatives_count (sel : ModelCapabilities) (t : TaskType)
    (avail : list string) :
  List.length (getAlternatives sel t avail) =
  Nat.min 2 (List.length
               (filter (fun m => negb (String.eqb (name m) (name sel)) &&
                                 array_includes avail (name m))
                       MODEL_CATALOG)).
Proof.
  unfold getAlternatives.
  now rewrite length_map, length_firstn, array_sort_length, length_map.
Qed.

Lemma getModelInfo_in_catalog (s : string) (m : ModelCapabilities) :
  getModelInfo s = Some m -> In m MODEL_CATALOG /\ s <> EmptyString.
Proof.
  unfold getModelInfo. destruct s as [|c s']; [discriminate|].
  cbn [truthy negb]. intros H. split; [|discriminate].
  repeat match type of H with
         | match find ?f ?l with _ => _ end = _ =>
             let Hf := fresh "Hf" in
             destruct (find f l) eqn:Hf;
             [injection H as <-; exact (proj1 (find_some _ _ Hf))|]
         end.
  exact (proj1 (find_some _ _ H)).
Qed.

End ServiceFacts.

(** X3: [recommend] throws exactly when no catalog entry is named in the
    available set, and the error is then "No available models found"; in
    particular it never throws when the caller leaves the set out. *)
Theorem recommend_throws_iff_nothing_available :
  forall ctx : ModelSelectionContext,
    ((exists e, ModelSelectionService.recommend ctx = Throw e) <->
     (forall m, In m MODEL_CATALOG ->
                ~ In (name m) (ModelSelectionService.available_or_catalog ctx))) /\
    (forall e, ModelSelectionService.recommend ctx = Throw e ->
               e = mkError "No available models found") /\
    (availableModels ctx = None ->
     exists r, ModelSelectionService.recommend ctx = Ok r).
Proof.
  intros ctx.
  assert (forall e, ModelSelectionService.recommend ctx = Throw e ->
            e = mkError "No available models found" /\
            recommendModel (ModelSelectionService.task_of ctx)
              (ModelSelectionService.available_or_catalog ctx) = None) as Hthrow.
  { intros e H. unfold ModelSelectionService.recommend in H.
    destruct (ModelSelectionService.manual_override _ _ _); [discriminate|].
    destruct (recommendModel _ _) as [m|] eqn:Hr; [discriminate|].
    split; [|reflexivity].
    rewrite (no_candidate_no_fallback ctx _ _ Hr) in H. now injection H. }
  assert ((forall m, In m MODEL_CATALOG ->
             ~ In (name m) (ModelSelectionService.available_or_catalog ctx)) ->
          ModelSelectionService.recommend ctx =
            Throw (mkError "No available models found")) as Hnone.
  { intros H. unfold ModelSelectionService.recommend.
    rewrite (ServiceFacts.manual_override_needs_available ctx _ _ H).
    assert (recommendModel (ModelSelectionService.task_of ctx)
              (ModelSelectionService.available_or_catalog ctx) = None) as Hr
      by now apply CatalogFacts.recommendModel_none_iff.
    rewrite Hr. now apply no_candidate_no_fallback. }
  split; [split|split].
  - intros [e He].
    exact (proj1 (CatalogFacts.recommendModel_none_iff _ _) (proj2 (Hthrow e He))).
  - intros H. eexists. exact (Hnone H).
  - intros e He. exact (proj1 (Hthrow e He)).
  - intros Hdefault.
    destruct (ModelSelectionService.recommend ctx) as [r|e] eqn:Hrec;
      [now exists r|].
    exfalso. destruct (Hthrow e eq_refl) as [_ Hr].
    rewrite CatalogFacts.recommendModel_none_iff in Hr.
    apply (Hr qwen3_coder); [now left|].
    unfold ModelSelectionService.available_or_catalog. rewrite Hdefault.
    now left.
Qed.

Lemma recommend_throws_iff_nothing_available_witness :
  let ctx := {| prompt := "hello"; projectContext := None;
                userPreferences := None;
                availableModels := Some ["mistral:7b"] |} in
  (forall m, In m MODEL_CATALOG ->
             ~ In (name m) (ModelSelectionService.available_or_catalog ctx)) /\
  exists e, ModelSelectionService.recommend ctx = Throw e.
Proof.
  intros ctx.
  assert (forall m, In m MODEL_CATALOG ->
            ~ In (name m) (ModelSelectionService.available_or_catalog ctx)) as H.
  { intros m Hm [Hin|[]]. cbn in Hm.
    repeat destruct Hm as [<-|Hm]; try discriminate Hin. exact Hm. }
  split; [exact H|].
  exact (proj2 (proj1 (recommend_throws_iff_nothing_available ctx)) H).
Defined.

(** X4: when the manual override does not apply, no alternative scores
    higher than the selected model, every alternative is an available
    catalog entry, and there are as many alternatives as there are other
    available catalog entries, up to two. *)
Theorem automatic_selection_dominates_alternatives :
  forall (ctx : ModelSelectionContext) (r : ModelRecommendation),
    ModelSelectionService.recommend ctx = Ok r ->
    ModelSelectionService.manual_override ctx
      (ModelSelectionService.task_of ctx)
      (ModelSelectionService.available_or_catalog ctx) = None ->
    Forall (fun a =>
              (ModelSelectionService.scoreModelForTask a (taskType r) <=
               ModelSelectionService.scoreModelForTask (model r) (taskType r))%Z /\
              In a MODEL_CATALOG /\
              In (name a) (ModelSelectionService.available_or_catalog ctx))
           (alternatives r) /\
    List.length (alternatives r) =
      Nat.min 2
        (List.length
           (filter (fun m =>
                      negb (String.eqb (name m) (name (model r))) &&
                      array_includes
                        (ModelSelectionService.available_or_catalog ctx) (name m))
                   MODEL_CATALOG)).
Proof.
  intros ctx r Hrec Hman.
  unfold ModelSelectionService.recommend in Hrec. rewrite Hman in Hrec.
  destruct (recommendModel _ _) as [m|] eqn:Hm.
  - apply RecommendFacts.auto_select_facts in Hrec.
    destruct Hrec as (Hmod & Ht & _ & Halt). subst m.
    rewrite Halt, Ht. split; [|apply ServiceFacts.getAlternatives_count].
    destruct (CatalogFacts.recommendModel_leftmost_max _ _ _ Hm)
      as (before & after & Hsplit & Hbefore & Hafter).
    apply Forall_forall. intros a Ha.
    apply RecommendFacts.getAlternatives_members in Ha.
    destruct Ha as (_ & Hav & Hcat).
    split; [|split; assumption].
    rewrite (service_score_is_catalog_score a),
            (service_score_is_catalog_score (model r)).
    assert (In a (before ++ model r :: after)) as Hin.
    { rewrite <- Hsplit. apply filter_In. split; [exact Hcat|].
      now apply array_includes_In. }
    apply in_app_or in Hin. rewrite Forall_forall in Hbefore, Hafter.
    destruct Hin as [Hb | [<- | Hafter']].
    + specialize (Hbefore _ Hb). cbv beta in Hbefore. lia.
    + lia.
    + exact (Hafter _ Hafter').
  - rewrite (no_candidate_no_fallback ctx _ _ Hm) in Hrec. discriminate.
Qed.

Lemma automatic_selection_dominates_alternatives_witness :
  exists r,
    ModelSelectionService.recommend SelectionSamples.debugging_context = Ok r /\
    ModelSelectionService.manual_override SelectionSamples.debugging_context
      (ModelSelectionService.task_of SelectionSamples.debugging_context)
      (ModelSelectionService.available_or_catalog
         SelectionSamples.debugging_context) = None /\
    List.length (alternatives r) = 1%nat.
Proof.
  eexists. split; [vm_compute; reflexivity|]. split; [reflexivity|].
  rewrite (proj2 (automatic_selection_dominates_alternatives
                    SelectionSamples.debugging_context _
                    ltac:(vm_compute; reflexivity) eq_refl)).
  vm_compute. reflexivity.
Defined.

(** X5: [shouldSwitchModel] advises a switch only towards the recommended
    model, only when that model is not the current one, the confidence is
    above the number 0.7 (both are doubles, so a sum that rounding has
    lifted to 0.7000000000000001 passes) and its score exceeds the score
    of the current model (0 when the current model is unknown) by more
    than 2; without advice there is neither a reason nor a model, and it
    throws exactly when [recommend] does. *)
Theorem shouldSwitchModel_only_for_clear_gain :
  forall (currentModel : string) (ctx : ModelSelectionContext)
         (advice : ServiceLookup.SwitchAdvice),
    ServiceLookup.shouldSwitchModel currentModel ctx = Ok advice ->
    exists r,
      ModelSelectionService.recommend ctx = Ok r /\
      (ServiceLookup.shouldSwitch advice = true ->
       ServiceLookup.recommendedModel advice = Some (model r) /\
       ServiceLookup.reason advice <> None /\
       name (model r) <> currentModel /\
       Double.lit 0.7 < confidence r /\
       (match ServiceLookup.getModelInfo currentModel with
        | Some info => ModelSelectionService.scoreModelForTask info (taskType r)
        | None => 0
        end + 2 <
        ModelSelectionService.scoreModelForTask (model r) (taskType r))%Z) /\
      (ServiceLookup.shouldSwitch advice = false ->
       advice = ServiceLookup.stay).
Proof.
  intros currentModel ctx advice. unfold ServiceLookup.shouldSwitchModel.
  destruct (ModelSelectionService.recommend ctx) as [r|e]; [|discriminate].
  intros H. exists r. split; [reflexivity|].
  destruct (String.eqb_spec (name (model r)) currentModel) as [Heq|Hne].
  { injection H as <-. split; [discriminate | reflexivity]. }
  destruct (Double.gtb (confidence r) (Double.lit 0.7)) eqn:Hconf.
  2: { injection H as <-. split; [discriminate | reflexivity]. }
  destruct (_ + 2 <? _)%Z eqn:Hgain.
  2: { injection H as <-. split; [discriminate | reflexivity]. }
  injection H as <-. split; [|discriminate].
  intros _. cbn [ServiceLookup.recommendedModel ServiceLookup.reason].
  split; [reflexivity|]. split; [discriminate|]. split; [exact Hne|].
  split; [now apply DoubleFacts.gtb_lt | now apply Z.ltb_lt].
Qed.

Lemma shouldSwitchModel_only_for_clear_gain_witness :
  exists advice r,
    ServiceLookup.shouldSwitchModel "tinyllama:latest"
      SelectionSamples.debugging_context = Ok advice /\
    ModelSelectionService.recommend SelectionSamples.debugging_context = Ok r /\
    ServiceLookup.shouldSwitch advice = true /\
    ServiceLookup.recommendedModel advice = Some llama3_1 /\
    Double.lit 0.7 < confidence r.
Proof.
  assert (Hrun : ServiceLookup.shouldSwitchModel "tinyllama:latest"
                   SelectionSamples.debugging_context = Ok _)
    by (vm_compute; reflexivity).
  destruct (shouldSwitchModel_only_for_clear_gain _ _ _ Hrun)
    as (r & Hrec & Hyes & _).
  eexists. exists r. split; [exact Hrun|]. split; [exact Hrec|].
  split; [reflexivity|].
  destruct (Hyes eq_refl) as (Hmodel & _ & _ & Hconf & _).
  split; [reflexivity | exact Hconf].
Defined.

(** X6: whatever [getModelInfo] finds is a catalog entry, and the empty
    name finds nothing; every catalog entry is found again under its name,
    under its name without the tag, and under its display name in any
    letter case the lower-casing undoes. *)
Theorem getModelInfo_finds_catalog_entries :
  forall m : ModelCapabilities,
    In m MODEL_CATALOG ->
    ServiceLookup.getModelInfo (name m) = Some m /\
    ServiceLookup.getModelInfo (ServiceLookup.before_colon (name m)) = Some m /\
    ServiceLookup.getModelInfo (displayName m) = Some m /\
    ServiceLookup.getModelInfo (toLowerCase (displayName m)) = Some m /\
    (forall s m', ServiceLookup.getModelInfo s = Some m' ->
                  In m' MODEL_CATALOG /\ s <> EmptyString).
Proof.
  intros m Hm.
  assert (forall s m', ServiceLookup.getModelInfo s = Some m' ->
                       In m' MODEL_CATALOG /\ s <> EmptyString) as Hsound
    by exact ServiceFacts.getModelInfo_in_catalog.
  cbn in Hm.
  repeat destruct Hm as [<-|Hm]; try contradiction;
    (split; [vm_compute; reflexivity|]);
    (split; [vm_compute; reflexivity|]);
    (split; [vm_compute; reflexivity|]);
    (split; [vm_compute; reflexivity | exact Hsound]).
Qed.

Lemma getModelInfo_finds_catalog_entries_witness :
  In gpt_oss MODEL_CATALOG /\
  ServiceLookup.getModelInfo "gpt-oss" = Some gpt_oss /\
  ServiceLookup.getModelInfo "gpt-oss 20b" = Some gpt_oss.
Proof.
  assert (In gpt_oss MODEL_CATALOG) as Hin by (right; now left).
  destruct (getModelInfo_finds_catalog_entries gpt_oss Hin)
    as (_ & Hbase & _ & Hlower & _).
  split; [exact Hin|]. split; [exact Hbase | exact Hlower].
Defined.

(** ** Task classification, continued *)

Lemma lower_unit_idempotent (c : ascii) :
  lower_unit (lower_unit c) = lower_unit c.
Proof. destruct c as [[] [] [] [] [] [] [] []]; reflexivity. Qed.

Lemma toLowerCase_idempotent (s : string) :
  toLowerCase (toLowerCase s) = toLowerCase s.
Proof.
  induction s as [|c t IH]; [reflexivity|].
  cbn [toLowerCase]. now rewrite lower_unit_idempotent, IH.
Qed.

(** X7: the classification does not look at letter case: two prompts with
    the same lower-casing are classified alike, and so are a prompt and
    its lower-casing. *)
Theorem analyzeTaskType_ignores_case :
  forall (p q : string) (pc : option ProjectContext),
    toLowerCase p = toLowerCase q ->
    analyzeTaskType p pc = analyzeTaskType q pc /\
    analyzeTaskType (toLowerCase p) pc = analyzeTaskType p pc.
Proof.
  intros p q pc H. unfold analyzeTaskType.
  rewrite toLowerCase_idempotent, H. split; reflexivity.
Qed.

Lemma analyzeTaskType_ignores_case_witness :
  toLowerCase "FIX the Build" = toLowerCase "fix THE build" /\
  analyzeTaskType "FIX the Build" None = analyzeTaskType "fix THE build" None.
Proof.
  assert (toLowerCase "FIX the Build" = toLowerCase "fix THE build") as H
    by reflexivity.
  split; [exact H|].
  exact (proj1 (analyzeTaskType_ignores_case _ _ None H)).
Defined.

(** ** Request execution, continued *)

(** X8: whatever the backend does, [makeRequest] with a budget of [n]
    retries stops at the first attempt that does not fail, or at attempt
    [n + 1]: it makes [k + 1] attempts for some [k <= n], with a wait of
    1000 ms before each retry, every attempt before the last one failed,
    the caller gets the outcome of the last one, and that outcome is a
    failure only when the budget is used up. *)
Theorem makeRequest_first_success_or_last :
  forall (backend : Backend) (config : LocalLLMConfig) (req : HttpRequest)
         (n : nat) (w : World),
    exists (k : nat) (evs : list Event),
      (k <= n)%nat /\
      makeRequest backend config req n w =
        (settle (backend (calls w + k)%nat req),
         {| calls := (calls w + S k)%nat; trace := (trace w ++ evs)%list |}) /\
      timeline evs = retry_timeline k /\
      (forall j, (j < k)%nat ->
                 is_failure (backend (calls w + j)%nat req) = true) /\
      ((k < n)%nat -> is_failure (backend (calls w + k)%nat req) = false).
Proof.
  intros backend config req n. induction n as [|n IH]; intros w.
  - exists 0%nat, [EvFetch req (or_default_N (timeout config) 30000)].
    split; [lia|]. split.
    { simpl. unfold bind, do_fetch. rewrite !Nat.add_0_r, Nat.add_1_r.
      destruct (backend (calls w) req); reflexivity. }
    split; [reflexivity|]. split; intros; lia.
  - set (fetched := EvFetch req (or_default_N (timeout config) 30000)).
    destruct (is_failure (backend (calls w) req)) eqn:Hfail.
    + (* the attempt fails: warn, wait, retry *)
      assert (exists warning,
                makeRequest backend config req (S n) w =
                makeRequest backend config req n
                  {| calls := S (calls w);
                     trace := (((trace w ++ [fetched]) ++ [warning]) ++
                               [EvSleep 1000])%list |} /\
                timeline [warning] = []) as [warning [Hstep Hquiet]].
      { cbn [makeRequest]. unfold bind at 1. unfold do_fetch at 1.
        destruct (backend (calls w) req) as [resp|err].
        - simpl in Hfail. rewrite Hfail. eexists. split.
          + unfold bind at 1. unfold emit at 1.
            unfold bind at 1. unfold sleep, emit at 1. reflexivity.
          + reflexivity.
        - eexists. split.
          + unfold bind at 1. unfold emit at 1.
            unfold bind at 1. unfold sleep, emit at 1. reflexivity.
          + reflexivity. }
      destruct (IH {| calls := S (calls w);
                      trace := (((trace w ++ [fetched]) ++ [warning]) ++
                                [EvSleep 1000])%list |})
        as (k & evs & Hk & Hrun & Htl & Hbefore & Hlast).
      cbn [calls trace] in *.
      exists (S k), ([fetched; warning; EvSleep 1000] ++ evs)%list.
      split; [lia|]. split.
      { rewrite Hstep, Hrun. f_equal; [f_equal; f_equal; lia|].
        f_equal; [lia|]. now rewrite <- !app_assoc. }
      split.
      { rewrite timeline_app.
        change [fetched; warning; EvSleep 1000]
          with ([fetched] ++ [warning] ++ [EvSleep 1000])%list.
        rewrite !timeline_app, Hquiet, Htl. reflexivity. }
      split.
      { intros [|j] Hj.
        - now rewrite Nat.add_0_r.
        - replace (calls w + S j)%nat with (S (calls w) + j)%nat by lia.
          apply Hbefore. lia. }
      { intros Hlt.
        replace (calls w + S k)%nat with (S (calls w) + k)%nat by lia.
        apply Hlast. lia. }
    + (* the attempt succeeds: hand the response back *)
      exists 0%nat, [fetched].
      split; [lia|]. split.
      { cbn [makeRequest]. unfold bind at 1. unfold do_fetch at 1.
        rewrite !Nat.add_0_r, Nat.add_1_r.
        destruct (backend (calls w) req) as [resp|err]; [|discriminate].
        simpl in Hfail. rewrite Hfail. reflexivity. }
      split; [reflexivity|].
      split; [intros; lia|]. intros _. now rewrite Nat.add_0_r.
Qed.

(** X9: a configured [maxRetries] of 0 does not switch retries off: the
    default argument reads it as missing, so the request runs with a
    budget of 3 and a backend that always fails is asked four times. *)
Theorem maxRetries_zero_still_retries :
  forall (backend : Backend) (config : LocalLLMConfig) (req : HttpRequest)
         (w : World),
    maxRetries config = Some 0%nat ->
    makeRequest_default backend config req w =
      makeRequest backend config req 3 w /\
    ((forall k, is_failure (backend k req) = true) ->
     calls (snd (makeRequest_default backend config req w)) = (calls w + 4)%nat).
Proof.
  intros backend config req w Hzero.
  unfold makeRequest_default. rewrite Hzero. cbn [or_default_nat].
  split; [reflexivity|]. intros Hfail.
  destruct (makeRequest_all_failing backend config req 3 w Hfail)
    as [evs [-> _]]. reflexivity.
Qed.

Lemma maxRetries_zero_still_retries_witness :
  let config := AdapterFormat.OllamaProvider_new
                  {| AdapterFormat.p_provider := None;
                     AdapterFormat.p_host := None;
                     AdapterFormat.p_port := None;
                     AdapterFormat.p_model := None;
                     AdapterFormat.p_timeout := None;
                     AdapterFormat.p_maxRetries := Some (Some 0%nat);
                     AdapterFormat.p_temperature := None;
                     AdapterFormat.p_maxTokens := None;
                     AdapterFormat.p_contextSize := None |} in
  maxRetries config = Some 0%nat /\
  (forall k, is_failure (RetrySamples.always_500 k RetrySamples.tags_request)
             = true) /\
  calls (snd (makeRequest_default RetrySamples.always_500 config
                RetrySamples.tags_request RetrySamples.fresh)) = 4%nat.
Proof.
  intros config.
  assert (maxRetries config = Some 0%nat) as Hzero by reflexivity.
  assert (forall k, is_failure (RetrySamples.always_500 k
                                  RetrySamples.tags_request) = true) as Hfail
    by (intros k; reflexivity).
  split; [exact Hzero|]. split; [exact Hfail|].
  exact (proj2 (maxRetries_zero_still_retries RetrySamples.always_500 config
                  RetrySamples.tags_request RetrySamples.fresh Hzero) Hfail).
Defined.

(** ** Format conversion and configuration *)

Module FormatFacts.
Import AdapterFormat.

Lemma trimStart_cases (s : string) :
  trimStart s = EmptyString \/
  exists c t, trimStart s = String c t /\ is_space c = false.
Proof.
  induction s as [|c t IH]; [now left|].
  cbn [trimStart]. destruct (is_space c) eqn:Hc; [exact IH|].
  right. now exists c, t.
Qed.

Lemma trimEnd_head (c : ascii) (t : string) :
  is_space c = false -> exists kept, trimEnd (String c t) = String c kept.
Proof.
  intros Hc. cbn [trimEnd]. destruct (trimEnd t) as [|d u].
  - rewrite Hc. now exists EmptyString.
  - now exists (String d u).
Qed.

Lemma trimEnd_idempotent (s : string) : trimEnd (trimEnd s) = trimEnd s.
Proof.
  induction s as [|c t IH]; [reflexivity|].
  cbn [trimEnd]. destruct (trimEnd t) as [|d u] eqn:Ht.
  - destruct (is_space c) eqn:Hc; [reflexivity|].
    cbn [trimEnd]. now rewrite Hc.
  - cbn [trimEnd]. cbn [trimEnd] in IH.
    destruct (trimEnd u) as [|e v].
    + destruct (is_space d) eqn:Hd; [discriminate IH|].
      now rewrite IH.
    + now rewrite IH.
Qed.

Lemma trim_idempotent (s : string) : trim (trim s) = trim s.
Proof.
  unfold trim. destruct (trimStart_cases s) as [-> | (c & t & -> & Hc)];
    [reflexivity|].
  destruct (trimEnd_head c t Hc) as [kept Hk]. rewrite Hk.
  cbn [trimStart]. rewrite Hc, <- Hk. apply trimEnd_idempotent.
Qed.

Lemma trimEnd_keeps_last (x : string) (c : ascii) :
  is_space c = false ->
  trimEnd (x ++ String c EmptyString) = x ++ String c EmptyString.
Proof.
  intros Hc. induction x as [|d x IH].
  - cbn. now rewrite Hc.
  - cbn [append trimEnd]. rewrite IH.
    destruct x; reflexivity.
Qed.

(** A text in square brackets is left alone by [trim]. *)
Lemma trim_bracketed (inner : string) :
  trim ("[" ++ inner ++ "]") = "[" ++ inner ++ "]".
Proof.
  unfold trim.
  change (trimStart ("[" ++ inner ++ "]")) with ("[" ++ inner ++ "]").
  rewrite <- StreamFacts.append_assoc.
  apply trimEnd_keeps_last. reflexivity.
Qed.

Lemma spread_key_merge {A : Type} (base : A) (a b : option A) :
  spread_key (spread_key base a) b = spread_key base (merge_key a b).
Proof. destruct a, b; reflexivity. Qed.

Lemma prefix_append_l (p s t : string) :
  String.prefix p s = true -> String.prefix p (s ++ t) = true.
Proof.
  revert s. induction p as [|c p IH]; intros s H;
    [now destruct (s ++ t)|].
  destruct s as [|d s]; [discriminate|].
  cbn [String.prefix append] in *.
  destruct (ascii_dec c d); [now apply IH | discriminate].
Qed.

End FormatFacts.

(** X10: [convertToLocalFormat] answers each content with one message, in
    order; the role "model" becomes "assistant" and every other role is
    kept, so no message is sent with the role "model"; and the text of
    every message is trimmed. *)
Theorem convertToLocalFormat_roles_and_text :
  forall contents : list AdapterFormat.InputContent,
    Forall2 (fun c m =>
               (AdapterFormat.in_role c = Some "model" ->
                AdapterFormat.lm_role m = Some "assistant") /\
               (AdapterFormat.in_role c <> Some "model" ->
                AdapterFormat.lm_role m = AdapterFormat.in_role c))
            contents (AdapterFormat.convertToLocalFormat contents) /\
    Forall (fun m =>
              AdapterFormat.lm_role m <> Some "model" /\
              AdapterFormat.trim (AdapterFormat.lm_content m) =
                AdapterFormat.lm_content m)
           (AdapterFormat.convertToLocalFormat contents).
Proof.
  induction contents as [|c rest [IH2 IH]]; [split; constructor|].
  cbn [AdapterFormat.convertToLocalFormat map].
  split; constructor; try assumption; cbn [AdapterFormat.lm_role
                                           AdapterFormat.lm_content].
  - destruct (AdapterFormat.in_role c) as [r|]; [|split; [discriminate|reflexivity]].
    destruct (String.eqb_spec r "model") as [->|Hne].
    + split; [reflexivity | intros H; now contradiction H].
    + split; [intros [= H]; now contradiction Hne | reflexivity].
  - split.
    + destruct (AdapterFormat.in_role c) as [r|]; [|discriminate].
      destruct (String.eqb_spec r "model") as [->|Hne]; [discriminate|].
      intros [= H]. now contradiction Hne.
    + apply FormatFacts.trim_idempotent.
Qed.

(** X11: [extractTextFromParts] gives the empty text for no parts, the
    trimmed text for a single text part, and for a single function call or
    function response the bracketed name, "undefined" standing for a
    missing name; whatever the parts, the result is trimmed. *)
Theorem extractTextFromParts_renderings :
  forall (parts : list AdapterFormat.InputPart) (t n : string),
    AdapterFormat.trim (AdapterFormat.extractTextFromParts parts) =
      AdapterFormat.extractTextFromParts parts /\
    AdapterFormat.extractTextFromParts [] = EmptyString /\
    AdapterFormat.extractTextFromParts [AdapterFormat.TextPart t] =
      AdapterFormat.trim t /\
    AdapterFormat.extractTextFromParts [AdapterFormat.FunctionCallPart (Some n)] =
      "[Function Call: " ++ n ++ "]" /\
    AdapterFormat.extractTextFromParts
      [AdapterFormat.FunctionResponsePart (Some n)] =
      "[Function Response: " ++ n ++ "]" /\
    AdapterFormat.extractTextFromParts [AdapterFormat.FunctionCallPart None] =
      "[Function Call: undefined]".
Proof.
  intros parts t n. unfold AdapterFormat.extractTextFromParts.
  split; [apply FormatFacts.trim_idempotent|].
  split; [reflexivity|]. split; [reflexivity|].
  cbn [map AdapterFormat.render_part AdapterFormat.interpolate join
       String.concat].
  split; [exact (FormatFacts.trim_bracketed ("Function Call: " ++ n))|].
  split; [exact (FormatFacts.trim_bracketed ("Function Response: " ++ n))|].
  reflexivity.
Qed.

(** X12: configuration updates are last-write-wins and compose: two
    updates in a row are one update with the second laid over the first,
    an update without keys changes nothing, repeating an update changes
    nothing more, and the constructor followed by an update is the
    constructor on the merged keys. *)
Theorem updateConfig_composes :
  forall (this : LocalLLMConfig) (u1 u2 : AdapterFormat.PartialConfig),
    AdapterFormat.updateConfig u2 (AdapterFormat.updateConfig u1 this) =
      AdapterFormat.updateConfig (AdapterFormat.merge u1 u2) this /\
    AdapterFormat.getConfig
      (AdapterFormat.updateConfig AdapterFormat.no_updates this) = this /\
    AdapterFormat.updateConfig u1 (AdapterFormat.updateConfig u1 this) =
      AdapterFormat.updateConfig u1 this /\
    AdapterFormat.updateConfig u2 (AdapterFormat.OllamaProvider_new u1) =
      AdapterFormat.OllamaProvider_new (AdapterFormat.merge u1 u2).
Proof.
  intros this u1 u2.
  assert (forall base a b,
            AdapterFormat.spread (AdapterFormat.spread base a) b =
            AdapterFormat.spread base (AdapterFormat.merge a b)) as Hcompose.
  { intros base a b. unfold AdapterFormat.spread, AdapterFormat.merge. cbn.
    now rewrite !FormatFacts.spread_key_merge. }
  split; [apply Hcompose|]. split; [now destruct this|].
  split; [|apply Hcompose].
  unfold AdapterFormat.updateConfig. rewrite Hcompose. f_equal.
  destruct u1 as [a b c d e f g h i].
  destruct a, b, c, d, e, f, g, h, i; reflexivity.
Qed.

(** X13: an endpoint URL always starts with "http": a host that already
    does is used as it is, any other host gets "http://" in front; and the
    path is appended to the base URL unchanged. *)
Theorem getEndpointUrl_shape :
  forall (config : LocalLLMConfig) (path : string),
    startsWith (OllamaProvider.getEndpointUrl config path) "http" = true /\
    OllamaProvider.getEndpointUrl config path =
      OllamaProvider.getEndpointUrl config EmptyString ++ path /\
    OllamaProvider.getEndpointUrl config EmptyString =
      (if startsWith (host config) "http" then EmptyString else "http://") ++
      host config ++ ":" ++ OllamaProvider.show_N (port config).
Proof.
  intros config path. unfold OllamaProvider.getEndpointUrl.
  cbn [truthy].
  set (base := _ ++ host config ++ ":" ++ _).
  assert (startsWith base "http" = true) as Hbase.
  { unfold base. destruct (startsWith (host config) "http") eqn:Hh.
    - cbn [append]. unfold startsWith in *.
      apply FormatFacts.prefix_append_l. exact Hh.
    - reflexivity. }
  split; [|split; [|reflexivity]].
  - destruct (truthy path); [|exact Hbase].
    apply FormatFacts.prefix_append_l. exact Hbase.
  - destruct path; [now rewrite StreamFacts.append_empty_r | reflexivity].
Qed.

(** ** Availability and live validation *)

Module AvailabilityFacts.
Import OllamaProvider ProviderRequests LiveValidation.

Lemma makeRequest_first_ok (backend : Backend) (config : LocalLLMConfig)
    (req : HttpRequest) (n : nat) (w : World) (r : Response) :
  backend (calls w) req = Resolved r -> ok r = true ->
  makeRequest backend config req n w =
    (Ok r, {| calls := S (calls w);
              trace := (trace w ++
                        [EvFetch req (or_default_N (timeout config) 30000)])%list |}).
Proof.
  intros Hout Hok. destruct n; cbn [makeRequest]; unfold bind, do_fetch;
    rewrite Hout; [reflexivity|]. now rewrite Hok.
Qed.

(** [isAvailable] turns whatever [makeRequest] does into a boolean. *)
Lemma isAvailable_total (backend : Backend) (config : LocalLLMConfig)
    (w : World) :
  isAvailable backend config w =
  (Ok match fst (makeRequest_default backend config (tags_request config) w) with
      | Ok r => ok r
      | Throw _ => false
      end,
   snd (makeRequest_default backend config (tags_request config) w)).
Proof.
  unfold isAvailable, try_catch, bind, ret.
  destruct (makeRequest_default backend config (tags_request config) w)
    as [[r|e] w']; reflexivity.
Qed.

End AvailabilityFacts.

(** X14: [isAvailable] never throws.  It answers [false] after the whole
    retry budget when every attempt fails, whether by a rejection or by a
    non-success response, and [true] after a single request when the first
    response is a success. *)
Theorem isAvailable_never_throws :
  forall (backend : Backend) (config : LocalLLMConfig) (w : World),
    (exists b w', ProviderRequests.isAvailable backend config w = (Ok b, w')) /\
    ((forall k, is_failure
                  (backend k (ProviderRequests.tags_request config)) = true) ->
     exists w',
       ProviderRequests.isAvailable backend config w = (Ok false, w') /\
       calls w' = (calls w + S (or_default_nat (maxRetries config) 3))%nat) /\
    (forall r,
        backend (calls w) (ProviderRequests.tags_request config) = Resolved r ->
        ok r = true ->
        exists w',
          ProviderRequests.isAvailable backend config w = (Ok true, w') /\
          calls w' = S (calls w)).
Proof.
  intros backend config w.
  rewrite AvailabilityFacts.isAvailable_total.
  split; [eexists; eexists; reflexivity|]. split.
  - intros Hfail. unfold makeRequest_default.
    destruct (makeRequest_all_failing backend config
                (ProviderRequests.tags_request config)
                (or_default_nat (maxRetries config) 3) w Hfail)
      as [evs [-> _]].
    cbn [fst snd].
    specialize (Hfail (calls w + or_default_nat (maxRetries config) 3)%nat).
    destruct (backend _ _) as [r|e]; cbn [settle].
    + cbn in Hfail. apply negb_true_iff in Hfail. rewrite Hfail.
      eexists. split; reflexivity.
    + eexists. split; reflexivity.
  - intros r Hout Hok. unfold makeRequest_default.
    rewrite (AvailabilityFacts.makeRequest_first_ok _ _ _ _ _ _ Hout Hok).
    cbn [fst snd]. rewrite Hok. eexists. split; reflexivity.
Qed.

Lemma isAvailable_never_throws_witness :
  (forall k, is_failure
               (RetrySamples.always_500 k
                  (ProviderRequests.tags_request RetrySamples.default_config))
             = true) /\
  exists w',
    ProviderRequests.isAvailable RetrySamples.always_500
      RetrySamples.default_config RetrySamples.fresh = (Ok false, w') /\
    calls w' = 4%nat.
Proof.
  assert (forall k, is_failure
            (RetrySamples.always_500 k
               (ProviderRequests.tags_request RetrySamples.default_config))
          = true) as Hfail by (intros k; reflexivity).
  split; [exact Hfail|].
  exact (proj1 (proj2 (isAvailable_never_throws RetrySamples.always_500
                         RetrySamples.default_config RetrySamples.fresh))
               Hfail).
Defined.

(** X15: [validateModelWithOllama] never throws.  When it reports a model
    as valid, the name it returns is one of the installed names and is the
    requested name itself or begins with it (as given or lower-cased), and
    there is no error; when it reports the model as invalid, it gives an
    error text and no name. *)
Theorem validateModelWithOllama_sound :
  forall (Math_log : Q -> Q) (backend : Backend)
         (json_models : Response -> Result (list OllamaModel))
         (modelName : string) (w : World),
    exists v w',
      LiveValidation.validateModelWithOllama Math_log backend json_models
        modelName w = (Ok v, w') /\
      (LiveValidation.isValid v = true ->
       LiveValidation.validation_error v = None /\
       exists actual names,
         LiveValidation.actualModelName v = Some actual /\
         LiveValidation.listedModels v = Some names /\
         In actual names /\
         (actual = modelName \/
          startsWith actual modelName = true \/
          startsWith actual (toLowerCase modelName) = true)) /\
      (LiveValidation.isValid v = false ->
       LiveValidation.validation_error v <> None /\
       LiveValidation.actualModelName v = None).
Proof.
  intros Math_log backend json_models modelName w.
  unfold LiveValidation.validateModelWithOllama, try_catch.
  unfold bind at 1.
  rewrite AvailabilityFacts.isAvailable_total.
  set (w1 := snd (makeRequest_default _ _ _ w)).
  destruct (match fst (makeRequest_default _ _ _ w) with
            | Ok r => ok r | Throw _ => false end).
  2: { cbn. eexists; eexists. split; [reflexivity|].
       cbn. split; [discriminate|]. intros _. split; [discriminate|reflexivity]. }
  cbn [negb]. unfold bind at 1.
  destruct (OllamaProvider.listModels Math_log backend
              LiveValidation.local_provider json_models w1)
    as [[models|e] w2].
  2: { cbn. eexists; eexists. split; [reflexivity|].
       cbn. split; [discriminate|]. intros _. split; [discriminate|reflexivity]. }
  set (names := map info_name models).
  destruct (array_includes names modelName) eqn:Hexact.
  { cbn. eexists; eexists. split; [reflexivity|]. cbn.
    split; [|discriminate]. intros _. split; [reflexivity|].
    exists modelName, names. repeat split.
    - now apply array_includes_In.
    - now left. }
  destruct (find _ names) as [matching|] eqn:Hfind.
  2: { cbn. eexists; eexists. split; [reflexivity|].
       cbn. split; [discriminate|]. intros _. split; [discriminate|reflexivity]. }
  destruct (truthy matching).
  2: { cbn. eexists; eexists. split; [reflexivity|].
       cbn. split; [discriminate|]. intros _. split; [discriminate|reflexivity]. }
  cbn. eexists; eexists. split; [reflexivity|]. cbn.
  split; [|discriminate]. intros _. split; [reflexivity|].
  exists matching, names. apply find_some in Hfind. destruct Hfind as [Hin Hpre].
  apply orb_true_iff in Hpre. repeat split; [exact Hin|]. right. exact Hpre.
Qed.

Lemma validateModelWithOllama_sound_witness :
  exists w',
    LiveValidation.validateModelWithOllama RuntimeSamples.Math_log
      ValidationSamples.installed_phi3 PresenceSamples.json_models "phi3"
      RetrySamples.fresh =
    (Ok {| LiveValidation.isValid := true;
           LiveValidation.actualModelName := Some "phi3:mini";
           LiveValidation.listedModels := Some ["phi3:mini"];
           LiveValidation.validation_error := None |}, w').
Proof.
  destruct (validateModelWithOllama_sound RuntimeSamples.Math_log
              ValidationSamples.installed_phi3 PresenceSamples.json_models
              "phi3" RetrySamples.fresh)
    as (v & w' & Hrun & _).
  exists w'. rewrite Hrun. f_equal. f_equal.
  vm_compute in Hrun. now injection Hrun as <- _.
Defined.

(** ** The generator facade *)

(** X16: a [LocalContentGenerator] is built for the ollama provider only;
    every other provider makes the constructor throw.  The adapter it
    creates keeps the caller's host, port and model, keeps every optional
    setting the caller gave, and has a value for every optional setting
    the caller left out. *)
Theorem LocalContentGenerator_only_ollama :
  forall config : LocalLLMConfig,
    ((exists adapter, LocalContentGenerator.new config = Ok adapter) <->
     provider config = ollama) /\
    (forall adapter,
        LocalContentGenerator.new config = Ok adapter ->
        provider adapter = ollama /\
        host adapter = host config /\
        port adapter = port config /\
        cfg_model adapter = cfg_model config /\
        (forall v, timeout config = Some v -> timeout adapter = Some v) /\
        (forall v, maxRetries config = Some v -> maxRetries adapter = Some v) /\
        (forall v, temperature config = Some v -> temperature adapter = Some v) /\
        (forall v, maxTokens config = Some v -> maxTokens adapter = Some v) /\
        (forall v, contextSize config = Some v -> contextSize adapter = Some v) /\
        timeout adapter <> None /\ maxRetries adapter <> None /\
        temperature adapter <> None /\ maxTokens adapter <> None /\
        contextSize adapter <> None).
Proof.
  intros config. unfold LocalContentGenerator.new. split.
  - destruct (provider config); split; try discriminate;
      try (intros [a Ha]; discriminate Ha); try reflexivity.
    intros _. eexists. reflexivity.
  - intros adapter H.
    destruct (provider config) eqn:Hp; try discriminate.
    injection H as <-.
    unfold AdapterFormat.OllamaProvider_new, AdapterFormat.spread,
      LocalContentGenerator.as_partial. cbn. rewrite Hp.
    repeat split; try (intros v ->; reflexivity);
      match goal with
      | |- context [option_map Some ?x] => destruct x; discriminate
      end.
Qed.

Lemma LocalContentGenerator_only_ollama_witness :
  provider RetrySamples.default_config = ollama /\
  exists adapter,
    LocalContentGenerator.new RetrySamples.default_config = Ok adapter.
Proof.
  assert (provider RetrySamples.default_config = ollama) as H by reflexivity.
  split; [exact H|].
  exact (proj2 (proj1 (LocalContentGenerator_only_ollama
                         RetrySamples.default_config)) H).
Defined.

(** ** Building the chat request *)

(** X17: in the chat request a truthy system instruction comes first, with
    the role "system", followed by one message per content; an array that
    starts with a string becomes a single "user" message whose text is the
    items joined by line feeds and trimmed; a lone string outside an array
    becomes a message with no role and an empty text; and the model, the
    context size and the output limit come from the configuration, the
    temperature from the request when it has one. *)
Theorem chat_request_messages :
  forall (config : LocalLLMConfig)
         (request : ProviderRequests.GenerateContentParameters)
         (streaming : bool),
    let sent := ProviderRequests.chat_request config request streaming in
    (forall sc, ProviderRequests.system_content request = Some sc ->
       exists first rest,
         ProviderRequests.messages sent = first :: rest /\
         AdapterFormat.lm_role first = Some "system" /\
         rest = AdapterFormat.convertToLocalFormat
                  (ProviderRequests.normalise_contents
                     (ProviderRequests.contents request))) /\
    (ProviderRequests.system_content request = None ->
     ProviderRequests.messages sent =
       AdapterFormat.convertToLocalFormat
         (ProviderRequests.normalise_contents
            (ProviderRequests.contents request))) /\
    (forall s rest,
        AdapterFormat.convertToLocalFormat
          (ProviderRequests.normalise_contents
             (ProviderRequests.ContentsArray
                (ProviderRequests.StringItem s :: map ProviderRequests.StringItem rest))) =
        [ {| AdapterFormat.lm_role := Some "user";
             AdapterFormat.lm_content :=
               AdapterFormat.trim (join AdapterFormat.line_feed (s :: rest)) |} ]) /\
    (forall s,
        AdapterFormat.convertToLocalFormat
          (ProviderRequests.normalise_contents
             (ProviderRequests.ContentsSingle (ProviderRequests.StringItem s))) =
        [ {| AdapterFormat.lm_role := None;
             AdapterFormat.lm_content := EmptyString |} ]) /\
    ProviderRequests.chat_model sent = cfg_model config /\
    ProviderRequests.stream sent = streaming /\
    ProviderRequests.num_ctx (ProviderRequests.options sent) = contextSize config /\
    ProviderRequests.num_predict (ProviderRequests.options sent) = maxTokens config /\
    (forall cfg t, ProviderRequests.req_config request = Some cfg ->
                   ProviderRequests.req_temperature cfg = Some t ->
                   ProviderRequests.opt_temperature
                     (ProviderRequests.options sent) = Some t).
Proof.
  intros config request streaming sent.
  split; [|split; [|split; [|split]]].
  - intros sc Hsc. unfold sent, ProviderRequests.chat_request.
    rewrite Hsc. cbn [ProviderRequests.messages
                      AdapterFormat.convertToLocalFormat map].
    eexists; eexists. split; [reflexivity|]. split; [|reflexivity].
    cbn [AdapterFormat.lm_role].
    unfold ProviderRequests.system_content in Hsc.
    destruct (ProviderRequests.req_config request) as [cfg|]; [|discriminate].
    destruct (ProviderRequests.systemInstruction cfg) as [[s|items|c|p]|];
      try discriminate;
      try (destruct (truthy s); [|discriminate]);
      injection Hsc as <-; reflexivity.
  - intros Hnone. unfold sent, ProviderRequests.chat_request.
    now rewrite Hnone.
  - intros s rest.
    cbn [ProviderRequests.normalise_contents
         AdapterFormat.convertToLocalFormat map
         AdapterFormat.in_role AdapterFormat.in_parts].
    unfold AdapterFormat.extractTextFromParts.
    cbn [map AdapterFormat.render_part ProviderRequests.as_text].
    rewrite !map_map. cbn [AdapterFormat.render_part ProviderRequests.as_text].
    rewrite map_id. reflexivity.
  - intros s. reflexivity.
  - unfold sent, ProviderRequests.chat_request. cbn.
    repeat split. intros cfg t -> ->. reflexivity.
Qed.

Lemma chat_request_messages_witness :
  let request :=
    {| ProviderRequests.contents :=
         ProviderRequests.ContentsArray
           [ProviderRequests.StringItem "hello"];
       ProviderRequests.req_config :=
         Some {| ProviderRequests.systemInstruction :=
                   Some (ProviderRequests.SysString "be brief");
                 ProviderRequests.req_temperature := None |} |} in
  ProviderRequests.system_content request <> None /\
  map AdapterFormat.lm_role
      (ProviderRequests.messages
         (ProviderRequests.chat_request RetrySamples.default_config
            request false)) = [Some "system"; Some "user"].
Proof.
  intros request. split; [discriminate|].
  destruct (proj1 (chat_request_messages RetrySamples.default_config
                     request false) _ eq_refl)
    as (first & rest & Hm & Hrole & Hrest).
  rewrite Hm. cbn [map]. rewrite Hrole, Hrest. reflexivity.
Defined.

(** ** Token estimate *)

Module CountFacts.
Import AdapterFormat ProviderRequests.

Lemma join_blanks_length (n : nat) :
  String.length (join " " (repeat EmptyString n)) = Nat.pred n.
Proof.
  unfold join. induction n as [|[|n] IH]; [reflexivity | reflexivity|].
  change (repeat EmptyString (S (S n)))
    with (EmptyString :: EmptyString :: repeat EmptyString n).
  change (String.concat " " (EmptyString :: EmptyString :: repeat EmptyString n))
    with (String.append EmptyString
            (String.append " "
               (String.concat " " (EmptyString :: repeat EmptyString n)))).
  cbn [String.append String.length].
  change (EmptyString :: repeat EmptyString n)
    with (repeat EmptyString (S n)).
  rewrite IH. reflexivity.
Qed.

Lemma strings_count_as_blanks (ss : list string) :
  map (fun item =>
         match in_parts (as_content item) with
         | Some ps =>
             join " " (map (fun part => match part with
                                        | TextPart t => t
                                        | _ => EmptyString
                                        end) ps)
         | None => EmptyString
         end)
      (map StringItem ss) = repeat EmptyString (List.length ss).
Proof. induction ss as [|s ss IH]; [reflexivity|]. cbn. now f_equal. Qed.

End CountFacts.

(** X18: the token estimate is the length of the measured text divided by
    4 and rounded up, so four times the estimate covers the text with
    fewer than 4 characters to spare.  Only the text parts of content
    objects are measured: a content with one text part counts that text,
    while items given as plain strings count as empty and contribute only
    the blanks that separate them. *)
Theorem countTokens_estimate :
  forall input : ProviderRequests.ContentsInput,
    let measured := String.length (ProviderRequests.counted_text input) in
    (measured <= 4 * ProviderRequests.countTokens input < measured + 4)%nat /\
    (forall role t,
        ProviderRequests.countTokens
          (ProviderRequests.ContentsArray
             [ProviderRequests.ContentObject
                {| AdapterFormat.in_role := role;
                   AdapterFormat.in_parts := Some [AdapterFormat.TextPart t] |}])
        = ((String.length t + 3) / 4)%nat) /\
    (forall ss,
        ProviderRequests.countTokens
          (ProviderRequests.ContentsArray (map ProviderRequests.StringItem ss))
        = ((Nat.pred (List.length ss) + 3) / 4)%nat) /\
    (forall s,
        ProviderRequests.countTokens
          (ProviderRequests.ContentsSingle (ProviderRequests.StringItem s))
        = 0%nat).
Proof.
  intros input measured. split; [|split; [|split]].
  - unfold ProviderRequests.countTokens. fold measured.
    pose proof (Nat.div_mod_eq (measured + 3) 4) as Hdiv.
    pose proof (Nat.mod_upper_bound (measured + 3) 4 ltac:(lia)) as Hmod.
    lia.
  - intros role t. reflexivity.
  - intros ss. unfold ProviderRequests.countTokens,
      ProviderRequests.counted_text.
    now rewrite CountFacts.strings_count_as_blanks,
      CountFacts.join_blanks_length.
  - intros s. reflexivity.
Qed.

(** ** The stream parser, continued *)

Module StreamEdgeFacts.
Import OllamaProvider StreamModel StreamFacts StreamEdge.

Lemma no_newline_app (a b : string) :
  no_newline a = true -> no_newline b = true -> no_newline (a ++ b) = true.
Proof.
  intros Ha Hb. induction a as [|c a IH]; [exact Hb|].
  cbn [append no_newline] in *. apply andb_true_iff in Ha.
  destruct Ha as [Hc Ha]. now rewrite Hc, IH.
Qed.

Lemma whole_body_app (xs ys : list string) :
  whole_body (xs ++ ys) = whole_body xs ++ whole_body ys.
Proof.
  induction xs as [|x xs IH]; [reflexivity|].
  cbn [app whole_body]. now rewrite IH, append_assoc.
Qed.

(** Text after the last newline adds no complete line. *)
Lemma complete_lines_tail (text tail : string) :
  no_newline tail = true ->
  complete_lines (text ++ tail) = complete_lines text.
Proof.
  intros Htail. rewrite StreamLoop.complete_lines_app.
  unfold complete_lines at 2.
  rewrite (no_newline_split _ (no_newline_app _ _
             (StreamLoop.last_split_no_newline text) Htail)).
  cbn [removelast]. now rewrite app_nil_r.
Qed.

Section Events.
Variable JSON_parse : string -> option LocalReply.

Lemma line_by_line_no_release (lines : list string) :
  ~ In Released (line_by_line JSON_parse lines).
Proof.
  unfold line_by_line. intros Hin. apply in_flat_map in Hin.
  destruct Hin as [line [_ Hin]]. unfold line_events in Hin.
  destruct (blank line); [contradiction|].
  destruct (JSON_parse line); destruct Hin as [H|[]]; discriminate.
Qed.

Lemma line_by_line_stop_is_last (lines : list string) :
  forall pre r post,
    line_by_line JSON_parse lines = (pre ++ Yielded r :: post)%list ->
    carries_stop r -> post = [].
Proof.
  unfold line_by_line.
  induction lines as [|line rest IH]; intros pre r post Hsplit Hstop.
  - destruct pre; discriminate.
  - cbn [through_done] in Hsplit. unfold ends_stream in Hsplit.
    destruct (blank line) eqn:Hb; cbn [negb andb] in Hsplit.
    + cbn [flat_map] in Hsplit. unfold line_events at 1 in Hsplit.
      rewrite Hb in Hsplit. exact (IH _ _ _ Hsplit Hstop).
    + destruct (JSON_parse line) as [chunk|] eqn:Hp.
      * destruct (done chunk) eqn:Hd.
        -- cbn [flat_map] in Hsplit. unfold line_events in Hsplit.
           rewrite Hb, Hp in Hsplit. cbn in Hsplit.
           destruct pre as [|e [|e' pre]]; [|discriminate..].
           now injection Hsplit.
        -- cbn [flat_map] in Hsplit. unfold line_events at 1 in Hsplit.
           rewrite Hb, Hp in Hsplit. cbn [app] in Hsplit.
           destruct pre as [|e pre].
           ++ injection Hsplit as Hr _. subst r. exfalso.
              unfold carries_stop, convertFromLocalFormat in Hstop.
              cbn in Hstop. rewrite Hd in Hstop. discriminate.
           ++ injection Hsplit as _ Hrest. exact (IH _ _ _ Hrest Hstop).
      * cbn [flat_map] in Hsplit. unfold line_events at 1 in Hsplit.
        rewrite Hb, Hp in Hsplit. cbn [app] in Hsplit.
        destruct pre as [|e pre]; [discriminate|].
        injection Hsplit as _ Hrest. exact (IH _ _ _ Hrest Hstop).
Qed.

End Events.

End StreamEdgeFacts.

(** X19: the stream parser never handles text that is not followed by a
    newline: whatever arrives after the last newline before the reader
    closes is dropped, so a body without any newline yields nothing, even
    when it is a complete chunk. *)
Theorem processStreamResponse_drops_unterminated_tail :
  forall (JSON_parse : string -> option LocalReply) (reads : list string)
         (tail : string) (ok_flag : bool) (status : string),
    StreamModel.no_newline tail = true ->
    OllamaProvider.processStreamResponse JSON_parse
      {| ok := ok_flag; statusText := status;
         body := Some (reads ++ [tail])%list |} =
    OllamaProvider.processStreamResponse JSON_parse
      {| ok := ok_flag; statusText := status; body := Some reads |} /\
    OllamaProvider.processStreamResponse JSON_parse
      {| ok := ok_flag; statusText := status; body := Some [tail] |} =
    Ok [OllamaProvider.Released].
Proof.
  intros JSON_parse reads tail ok_flag status Htail.
  assert (forall rs,
            OllamaProvider.processStreamResponse JSON_parse
              {| ok := ok_flag; statusText := status;
                 body := Some (rs ++ [tail])%list |} =
            OllamaProvider.processStreamResponse JSON_parse
              {| ok := ok_flag; statusText := status; body := Some rs |}) as H.
  { intros rs.
    rewrite (StreamLoop.processStreamResponse_expected JSON_parse
               {| ok := ok_flag; statusText := status;
                  body := Some (rs ++ [tail])%list |} (rs ++ [tail]) eq_refl),
            (StreamLoop.processStreamResponse_expected JSON_parse
               {| ok := ok_flag; statusText := status; body := Some rs |}
               rs eq_refl).
    unfold StreamModel.expected_events.
    rewrite StreamEdgeFacts.whole_body_app. cbn [StreamModel.whole_body].
    rewrite StreamFacts.append_empty_r.
    now rewrite StreamEdgeFacts.complete_lines_tail. }
  split; [apply H|]. exact (H []).
Qed.

Lemma processStreamResponse_drops_unterminated_tail_witness :
  StreamModel.no_newline StreamSamples.line_done = true /\
  StreamSamples.parse_sample StreamSamples.line_done <> None /\
  OllamaProvider.processStreamResponse StreamSamples.parse_sample
    {| ok := true; statusText := "OK";
       body := Some [StreamSamples.line_done] |} =
  Ok [OllamaProvider.Released].
Proof.
  assert (StreamModel.no_newline StreamSamples.line_done = true) as H
    by reflexivity.
  split; [exact H|]. split; [discriminate|].
  exact (proj2 (processStreamResponse_drops_unterminated_tail
                  StreamSamples.parse_sample [] StreamSamples.line_done
                  true "OK" H)).
Defined.

(** X20: a stream that has a body always ends by releasing the reader,
    exactly once and as its last event; and an item that carries the STOP
    signal is the last thing the stream yields: no item and no warning
    comes after it. *)
Theorem processStreamResponse_stop_and_release :
  forall (JSON_parse : string -> option LocalReply) (response : Response)
         (reads : list string),
    body response = Some reads ->
    exists evs,
      OllamaProvider.processStreamResponse JSON_parse response =
        Ok (evs ++ [OllamaProvider.Released])%list /\
      ~ In OllamaProvider.Released evs /\
      (forall pre r post,
          evs = (pre ++ OllamaProvider.Yielded r :: post)%list ->
          map finishReason (candidates r) = [Some STOP] ->
          post = []).
Proof.
  intros JSON_parse response reads Hbody.
  exists (StreamEdge.line_by_line JSON_parse
            (StreamModel.complete_lines (StreamModel.whole_body reads))).
  split; [|split].
  - now rewrite (StreamLoop.processStreamResponse_expected _ _ _ Hbody).
  - apply StreamEdgeFacts.line_by_line_no_release.
  - intros pre r post Hsplit Hstop.
    exact (StreamEdgeFacts.line_by_line_stop_is_last _ _ _ _ _ Hsplit Hstop).
Qed.

Lemma processStreamResponse_stop_and_release_witness :
  body StreamSamples.two_line_response <> None /\
  exists evs,
    OllamaProvider.processStreamResponse StreamSamples.parse_sample
      StreamSamples.two_line_response =
      Ok (evs ++ [OllamaProvider.Released])%list /\
    ~ In OllamaProvider.Released evs.
Proof.
  split; [discriminate|].
  destruct (processStreamResponse_stop_and_release StreamSamples.parse_sample
              StreamSamples.two_line_response _ eq_refl)
    as (evs & Hrun & Hfree & _).
  exists evs. split; assumption.
Defined.

(** ** Byte-size formatting, continued *)

(** X21: 0 is printed as "0 Bytes", and 1536 as "1.5 KB" by every
    logarithm that puts it at index 1.  For a positive count below 2^53
    whose index is on the unit table (the logarithm of 1024 not being 0),
    [formatBytes] prints the unit of
    that index and the double nearest to [m / 100], where the integer [m]
    differs from a hundred times the exact quotient by the power of 1024
    by a half at most, plus the rounding of the product, a 2^-53rd of
    it. *)
Theorem formatBytes_on_the_table :
  (forall Math_log : Q -> Q,
      OllamaProvider.formatBytes Math_log 0 = "0 Bytes") /\
  (forall Math_log : Q -> Q,
      OllamaProvider.unit_index Math_log 1536 = 1%Z ->
      OllamaProvider.formatBytes Math_log 1536 = "1.5 KB") /\
  (forall (Math_log : Q -> Q) (bytes : N),
      ~ Math_log 1024 == 0 ->
      (0 < bytes < 2 ^ 53)%N ->
      let i := OllamaProvider.unit_index Math_log (Double.of_N bytes) in
      let exact := inject_Z (Z.of_N bytes) / 1024 ^ i in
      (0 <= i <= 4)%Z ->
      exists (unit : string) (m : Z),
        nth_error ["Bytes"; "KB"; "MB"; "GB"; "TB"] (Z.to_nat i) = Some unit /\
        OllamaProvider.formatBytes Math_log bytes =
          Double.Number_toString (Double.div (inject_Z m) 100) ++ " " ++ unit /\
        Qabs (inject_Z m - 100 * exact)
          <= (1 # 2) + 100 * exact * 2 ^ (-53)).
Proof.
  split; [reflexivity|]. split.
  - intros Math_log Hindex.
    rewrite FormatBytesFacts.formatBytes_steps by discriminate.
    change (Double.of_N 1536) with (1536 : Q). rewrite Hindex.
    vm_compute. reflexivity.
  - intros Math_log bytes _ Hrange i exact Hi.
    exists (OllamaProvider.sizes_at i),
           (Double.Math_round
              (Double.mul (Double.div (Double.of_N bytes)
                                      (OllamaProvider.pow1024 i)) 100)).
    split; [exact (FormatBytesFacts.sizes_at_on_table i Hi)|]. split.
    + rewrite FormatBytesFacts.formatBytes_steps by lia. reflexivity.
    + exact (FormatBytesFacts.hundredths_close bytes i Hrange Hi).
Qed.

Lemma formatBytes_on_the_table_witness :
  ~ RuntimeSamples.Math_log 1024 == 0 /\
  (0 < 5368709120 < 2 ^ 53)%N /\
  OllamaProvider.unit_index RuntimeSamples.Math_log
    (Double.of_N 5368709120) = 3%Z /\
  OllamaProvider.formatBytes RuntimeSamples.Math_log 5368709120 = "5 GB" /\
  exists (unit : string) (m : Z),
    nth_error ["Bytes"; "KB"; "MB"; "GB"; "TB"] 3 = Some unit /\
    OllamaProvider.formatBytes RuntimeSamples.Math_log 5368709120 =
      Double.Number_toString (Double.div (inject_Z m) 100) ++ " " ++ unit.
Proof.
  assert (0 < 5368709120 < 2 ^ 53)%N as Hrange
    by (vm_compute; split; reflexivity).
  assert (OllamaProvider.unit_index RuntimeSamples.Math_log
            (Double.of_N 5368709120) = 3%Z) as Hindex
    by (vm_compute; reflexivity).
  assert (~ RuntimeSamples.Math_log 1024 == 0) as Hbase
    by (intros H; vm_compute in H; discriminate H).
  split; [exact Hbase|].
  split; [exact Hrange|]. split; [exact Hindex|].
  split; [vm_compute; reflexivity|].
  destruct (proj2 (proj2 formatBytes_on_the_table) RuntimeSamples.Math_log
              5368709120%N Hbase Hrange) as (unit & m & Hunit & Hrun & _).
  { rewrite Hindex. lia. }
  rewrite Hindex in Hunit. exists unit, m. split; [exact Hunit | exact Hrun].
Defined.

(** ** Listing and pulling *)

Module ListingFacts.
Import OllamaProvider.

Lemma pull_progress_harmless (progress_status : string -> option string)
    (modelName : string) (chunks : list string) :
  forall w : World,
    exists logs,
      pull_progress progress_status modelName chunks w =
        (Ok tt, {| calls := calls w; trace := (trace w ++ logs)%list |}) /\
      timeline logs = [].
Proof.
  induction chunks as [|chunk rest IH]; intros w.
  - exists []. cbn. rewrite app_nil_r. now destruct w.
  - cbn [pull_progress]. unfold bind at 1.
    destruct (progress_status chunk) as [status|].
    + unfold emit at 1.
      destruct (IH {| calls := calls w;
                      trace := (trace w ++
                                [EvLog ("Pulling " ++ modelName ++ ": " ++
                                        status)])%list |})
        as [logs [Hrun Hquiet]].
      exists (EvLog ("Pulling " ++ modelName ++ ": " ++ status) :: logs).
      split; [|exact Hquiet].
      rewrite Hrun. cbn [calls trace]. now rewrite <- app_assoc.
    + unfold ret at 1. exact (IH w).
Qed.

(** What the [catch] clause of [listModels] throws for a caught error. *)
Lemma listModels_steps (Math_log : Q -> Q) (backend : Backend)
    (config : LocalLLMConfig)
    (json_models : Response -> Result (list OllamaModel)) (w : World) :
  let rethrown := fun e =>
    if String.eqb (err_name e) "LocalLLMNotAvailableError" then e
    else mkError ("Failed to list models: " ++ err_message e) in
  listModels Math_log backend config json_models w =
  match makeRequest_default backend config
          {| url := getEndpointUrl config "/api/tags";
             http_method := GET; payload := None |} w with
  | (Ok response, w1) =>
      if ok response then
        match json_models response with
        | Ok data =>
            (Ok (map (fun m => {| info_name := om_name m;
                                  info_size := formatBytes Math_log (om_size m);
                                  info_digest := om_digest m;
                                  info_modified := om_modified_at m;
                                  info_details := Some (om_details m) |})
                     data), w1)
        | Throw e => (Throw (rethrown e), w1)
        end
      else (Throw (LocalLLMNotAvailableError (provider config) (host config)
                                             (port config)), w1)
  | (Throw e, w1) => (Throw (rethrown e), w1)
  end.
Proof.
  intros rethrown. unfold listModels, try_catch, bind, lift, throw, ret.
  destruct (makeRequest_default _ _ _ w) as [[response|e] w1].
  - destruct (ok response); cbn [negb].
    + destruct (json_models response) as [data|e]; [reflexivity|].
      unfold rethrown. now destruct (String.eqb _ _).
    + reflexivity.
  - unfold rethrown. now destruct (String.eqb _ _).
Qed.

Lemma pullModel_steps (backend : Backend) (config : LocalLLMConfig)
    (progress_status : string -> option string)
    (read_error : Response -> option JsError) (modelName : string)
    (w : World) :
  exists logs,
    timeline logs = [] /\
    pullModel backend config progress_status read_error modelName w =
    match makeRequest_default backend config
            {| url := getEndpointUrl config "/api/pull";
               http_method := POST;
               payload := Some (PullPayload modelName) |} w with
    | (Ok response, w1) =>
        if ok response then
          let w2 := {| calls := calls w1; trace := (trace w1 ++ logs)%list |} in
          match body response, read_error response with
          | Some _, Some e =>
              (Throw (mkError ("Failed to pull model " ++ modelName ++ ": " ++
                               err_message e)), w2)
          | _, _ => (Ok tt, w2)
          end
        else
          (Throw (mkError ("Failed to pull model " ++ modelName ++ ": " ++
                           "Failed to pull model " ++ modelName ++ ": " ++
                           statusText response)), w1)
    | (Throw e, w1) =>
        (Throw (mkError ("Failed to pull model " ++ modelName ++ ": " ++
                         err_message e)), w1)
    end.
Proof.
  unfold pullModel, try_catch, bind, throw.
  destruct (makeRequest_default _ _ _ w) as [[response|e] w1].
  - destruct (ok response); cbn [negb].
    + destruct (body response) as [chunks|].
      * destruct (pull_progress_harmless progress_status modelName chunks w1)
          as [logs [Hrun Hquiet]].
        exists logs. split; [exact Hquiet|]. rewrite Hrun. cbv zeta.
        now destruct (read_error response).
      * exists []. split; [reflexivity|]. cbn. rewrite app_nil_r.
        destruct w1. now destruct (read_error response).
    + exists []. split; reflexivity.
  - exists []. split; reflexivity.
Qed.

End ListingFacts.

(** X22: [listModels] returns, for a successful listing, one entry per
    installed model, in order, with the model's name and its size
    formatted by [formatBytes]; it fails with a
    LocalLLMNotAvailableError when the last response is not a success,
    and every other failure is an Error whose message starts with
    "Failed to list models: ".  It makes no request besides those of
    [makeRequest]. *)
Theorem listModels_outcomes :
  forall (Math_log : Q -> Q) (backend : Backend) (config : LocalLLMConfig)
         (json_models : Response -> Result (list OllamaModel)) (w : World),
    let request := {| url := OllamaProvider.getEndpointUrl config "/api/tags";
                      http_method := GET; payload := None |} in
    let sent := makeRequest_default backend config request w in
    snd (OllamaProvider.listModels Math_log backend config json_models w) =
      snd sent /\
    match fst sent with
    | Ok response =>
        if ok response then
          match json_models response with
          | Ok data =>
              exists infos,
                fst (OllamaProvider.listModels Math_log backend config json_models
                       w)
                  = Ok infos /\
                map info_name infos = map om_name data /\
                map info_size infos =
                  map (fun m => OllamaProvider.formatBytes Math_log (om_size m))
                      data
          | Throw e =>
              exists e',
                fst (OllamaProvider.listModels Math_log backend config json_models
                       w)
                  = Throw e' /\
                (e' = e \/
                 e' = mkError ("Failed to list models: " ++ err_message e))
          end
        else
          fst (OllamaProvider.listModels Math_log backend config json_models
                       w) =
            Throw (LocalLLMNotAvailableError (provider config) (host config)
                                             (port config))
    | Throw e =>
        exists e',
          fst (OllamaProvider.listModels Math_log backend config json_models
                       w)
            = Throw e' /\
          (e' = e \/ e' = mkError ("Failed to list models: " ++ err_message e))
    end.
Proof.
  intros Math_log backend config json_models w request sent.
  rewrite (ListingFacts.listModels_steps Math_log backend config json_models w).
  fold request. subst sent.
  destruct (makeRequest_default backend config request w)
    as [[response|e] w1]; cbn [fst snd].
  - destruct (ok response).
    + destruct (json_models response) as [data|e]; cbn [fst snd].
      * split; [reflexivity|]. eexists. split; [reflexivity|].
        rewrite !map_map. split; reflexivity.
      * split; [reflexivity|]. eexists. split; [reflexivity|].
        destruct (String.eqb _ _); auto.
    + split; reflexivity.
  - split; [reflexivity|]. eexists. split; [reflexivity|].
    destruct (String.eqb _ _); auto.
Qed.

(** X23: [pullModel] succeeds exactly when [makeRequest] hands back a
    success response and the body, when there is one, is read to its end:
    nothing in the progress frames, parsable or not, can make it fail, and
    reading them makes no request.  Every failure, a broken read included,
    is an Error whose message starts with "Failed to pull model", the name
    and a colon. *)
Theorem pullModel_outcomes :
  forall (backend : Backend) (config : LocalLLMConfig)
         (progress_status : string -> option string)
         (read_error : Response -> option JsError) (modelName : string)
         (w : World),
    let request := {| url := OllamaProvider.getEndpointUrl config "/api/pull";
                      http_method := POST;
                      payload := Some (PullPayload modelName) |} in
    let sent := makeRequest_default backend config request w in
    let pulled :=
      OllamaProvider.pullModel backend config progress_status read_error
        modelName w in
    calls (snd pulled) = calls (snd sent) /\
    ((exists response,
         fst sent = Ok response /\ ok response = true /\
         (body response = None \/ read_error response = None)) <->
     fst pulled = Ok tt) /\
    (forall e, fst pulled = Throw e ->
       err_name e = "Error" /\
       startsWith (err_message e)
                  ("Failed to pull model " ++ modelName ++ ": ") = true).
Proof.
  intros backend config progress_status read_error modelName w request sent
         pulled.
  assert (forall rest,
            startsWith ("Failed to pull model " ++ modelName ++ ": " ++ rest)
                       ("Failed to pull model " ++ modelName ++ ": ") = true)
    as Hprefix.
  { intros rest.
    replace ("Failed to pull model " ++ modelName ++ ": " ++ rest)
      with (("Failed to pull model " ++ modelName ++ ": ") ++ rest)
      by (cbn [append]; now rewrite StreamFacts.append_assoc).
    apply IncludesFacts.prefix_append. }
  destruct (ListingFacts.pullModel_steps backend config progress_status
              read_error modelName w) as [logs [_ Hsteps]].
  subst pulled. rewrite Hsteps. fold request. subst sent.
  destruct (makeRequest_default backend config request w)
    as [[response|e] w1]; cbn [fst snd].
  - destruct (ok response) eqn:Hok; cbv zeta.
    + destruct (body response) as [chunks|] eqn:Hbody;
        [destruct (read_error response) as [e|] eqn:Hread|];
        cbn [fst snd calls].
      * split; [reflexivity|]. split.
        -- split; [|discriminate].
           intros [r [[= <-] [_ [Hb|Hr]]]]; congruence.
        -- intros e' [= <-]. split; [reflexivity|]. apply Hprefix.
      * split; [reflexivity|]. split; [|discriminate].
        split; [reflexivity|]. intros _. exists response. auto.
      * split; [reflexivity|]. split; [|discriminate].
        split; [reflexivity|]. intros _. exists response. auto.
    + cbn [fst snd calls]. split; [reflexivity|]. split.
      * split; [|discriminate]. intros [r [[= <-] [Hr _]]]. congruence.
      * intros e' [= <-]. split; [reflexivity|]. apply Hprefix.
  - split; [reflexivity|]. split.
    + split; [|discriminate]. intros [r [Hr _]]. discriminate Hr.
    + intros e' [= <-]. split; [reflexivity|]. apply Hprefix.
Qed.

Lemma pullModel_outcomes_witness :
  exists e,
    fst (OllamaProvider.pullModel PresenceSamples.registry_up
           RetrySamples.default_config PresenceSamples.no_status
           PresenceSamples.reads_break "llama3.1"
           PresenceSamples.pull_start) = Throw e /\
    startsWith (err_message e) ("Failed to pull model " ++ "llama3.1" ++ ": ")
      = true.
Proof.
  eexists. split; [vm_compute; reflexivity|].
  exact (proj2 (proj2 (proj2 (pullModel_outcomes PresenceSamples.registry_up
                  RetrySamples.default_config PresenceSamples.no_status
                  PresenceSamples.reads_break "llama3.1"
                  PresenceSamples.pull_start))
               _ ltac:(vm_compute; reflexivity))).
Defined.



(** ** Reply normalisation, continued *)

(** X25: a normalised reply always has exactly one candidate, with the
    role "model" and exactly one text part.  The text is the message
    content when that is not empty, else the generic content field when
    that is not empty, else the empty text; and the candidate carries the
    STOP signal exactly when the reply says [done]. *)
Theorem convertFromLocalFormat_one_candidate :
  forall reply : LocalReply,
    exists t fr,
      candidates (convertFromLocalFormat reply) =
        [ {| cand_content := {| role := "model"; parts := [ {| text := t |} ] |};
             finishReason := fr |} ] /\
      (fr = Some STOP <-> done reply = true) /\
      (forall m, message reply = Some m -> msg_content m <> EmptyString ->
                 t = msg_content m) /\
      ((message reply = None \/
        exists m, message reply = Some m /\ msg_content m = EmptyString) ->
       (forall c, content reply = Some c -> c <> EmptyString -> t = c) /\
       (content reply = None \/ content reply = Some EmptyString ->
        t = EmptyString)).
Proof.
  intros reply. unfold convertFromLocalFormat. cbn [candidates].
  do 2 eexists. split; [reflexivity|]. split; [|split].
  - destruct (done reply); split; congruence.
  - intros m -> Hne. cbn. destruct (msg_content m); [contradiction|reflexivity].
  - intros Hmissing.
    assert (forall fallback,
              or_string (option_map msg_content (message reply)) fallback
              = fallback) as Hskip.
    { intros fallback. destruct Hmissing as [-> | [m [-> Hm]]]; [reflexivity|].
      cbn. now rewrite Hm. }
    rewrite Hskip. split.
    + intros c -> Hne. cbn. destruct c; [contradiction|reflexivity].
    + intros [-> | ->]; reflexivity.
Qed.

(** ** The end of a generation call *)

(** X26: once [makeRequest] has settled, [generateContent] returns the
    normalised reply only for a success response whose body decodes;
    every failure, whether a rejected request, a non-success response or
    an unreadable body, is thrown as an Error whose message starts with
    "Failed to generate content: ", and a non-success response is reported
    with its status text.  [generateContentStream] hands a rejection on
    unchanged and reports a non-success response without that prefix. *)
Theorem generateContent_failures_are_wrapped :
  forall (json_reply : Response -> Result LocalReply) (sent : Result Response),
    (forall r,
        GenerateReply.finish_generateContent json_reply sent = Ok r <->
        exists response data,
          sent = Ok response /\ ok response = true /\
          json_reply response = Ok data /\ r = convertFromLocalFormat data) /\
    (forall e,
        GenerateReply.finish_generateContent json_reply sent = Throw e ->
        err_name e = "Error" /\
        startsWith (err_message e) "Failed to generate content: " = true) /\
    (forall response,
        sent = Ok response -> ok response = false ->
        GenerateReply.finish_generateContent json_reply sent =
          Throw (mkError ("Failed to generate content: Ollama request failed: "
                          ++ statusText response)) /\
        GenerateReply.finish_generateContentStream sent =
          Throw (mkError ("Ollama streaming request failed: " ++
                          statusText response))) /\
    (forall e, sent = Throw e ->
               GenerateReply.finish_generateContentStream sent = Throw e).
Proof.
  intros json_reply sent. unfold GenerateReply.finish_generateContent,
    GenerateReply.finish_generateContentStream.
  split; [|split; [|split]].
  - intros r. destruct sent as [response|e].
    + destruct (ok response) eqn:Hok; cbn [negb].
      * destruct (json_reply response) as [data|e] eqn:Hj.
        -- split.
           ++ intros [= <-]. now exists response, data.
           ++ intros (r' & d & [= <-] & _ & Hd & ->). congruence.
        -- split; [discriminate|].
           intros (r' & d & [= <-] & _ & Hd & _). congruence.
      * split; [discriminate|].
        intros (r' & d & [= <-] & Hok' & _). congruence.
    + split; [discriminate|]. intros (r' & d & H & _). discriminate H.
  - intros e H.
    assert (exists inner,
              e = mkError ("Failed to generate content: " ++ inner)) as [inner ->].
    { destruct sent as [response|e0].
      - destruct (ok response); cbn [negb] in H.
        + destruct (json_reply response) as [data|e1]; [discriminate|].
          injection H as <-. now eexists.
        + injection H as <-. now eexists.
      - injection H as <-. now eexists. }
    split; [reflexivity|]. apply IncludesFacts.prefix_append.
  - intros response -> Hok. rewrite Hok. cbn [negb]. split; reflexivity.
  - intros e ->. reflexivity.
Qed.

Lemma generateContent_failures_are_wrapped_witness :
  ok RetrySamples.server_error = false /\
  GenerateReply.finish_generateContent (fun _ => Ok ReplySamples.counted_reply)
    (Ok RetrySamples.server_error) =
  Throw (mkError
    "Failed to generate content: Ollama request failed: Internal Server Error").
Proof.
  split; [reflexivity|].
  exact (proj1 (proj1 (proj2 (proj2 (generateContent_failures_are_wrapped
           (fun _ => Ok ReplySamples.counted_reply)
           (Ok RetrySamples.server_error)))) _ eq_refl eq_refl)).
Defined.

(** ** The local configuration *)



(** ** The [/model] command line *)

Module CommandFacts.
Import AdapterFormat ModelCommand CommandWords.

Lemma split_spaces_nonempty (g : bool) (s : string) : split_spaces g s <> [].
Proof.
  revert g. induction s as [|c t IH]; intros g; cbn; [discriminate|].
  destruct (is_space c).
  - destruct g; [apply IH | discriminate].
  - destruct (split_spaces false t); discriminate.
Qed.

(** A word in front of a text joins the first piece of that text. *)
Lemma split_word_prefix (w s : string) :
  no_space w = true ->
  split_spaces false (w ++ s) =
  (w ++ hd EmptyString (split_spaces false s)) :: tl (split_spaces false s).
Proof.
  intros Hw. induction w as [|c w IH].
  - cbn [append]. pose proof (split_spaces_nonempty false s) as Hne.
    now destruct (split_spaces false s).
  - cbn [no_space] in Hw. apply andb_true_iff in Hw. destruct Hw as [Hc Hw].
    apply negb_true_iff in Hc.
    cbn [append split_spaces]. rewrite Hc, (IH Hw). reflexivity.
Qed.

Lemma blank_cons (c : ascii) (t : string) :
  blank (String c t) = true -> is_space c = true /\ blank t = true.
Proof.
  unfold blank. cbn [trimStart]. destruct (is_space c); [auto|discriminate].
Qed.

Lemma split_gap (g s : string) :
  blank g = true -> split_spaces true (g ++ s) = split_spaces true s.
Proof.
  induction g as [|c g IH]; intros Hg; [reflexivity|].
  apply blank_cons in Hg. destruct Hg as [Hc Hg].
  cbn [append split_spaces]. rewrite Hc. now apply IH.
Qed.

Lemma split_after_gap (w s : string) :
  is_word w = true ->
  split_spaces true (w ++ s) = split_spaces false (w ++ s).
Proof.
  unfold is_word. destruct w as [|c w]; [discriminate|].
  cbn [truthy andb no_space]. intros H. apply andb_true_iff in H.
  destruct H as [Hc _]. apply negb_true_iff in Hc.
  cbn [append split_spaces]. now rewrite Hc.
Qed.

Lemma sentence_starts_with_word (first : string)
    (more : list (string * string)) :
  exists rest, sentence first more = first ++ rest.
Proof.
  destruct more as [|[gap word] more]; cbn [sentence].
  - exists EmptyString. now rewrite StreamFacts.append_empty_r.
  - now eexists.
Qed.

(** The pieces of a sentence are its words. *)
Lemma split_sentence (more : list (string * string)) :
  forall first,
    is_word first = true -> well_formed more ->
    split_spaces false (sentence first more) = first :: map snd more.
Proof.
  induction more as [|[gap word] more IH]; intros first Hfirst Hmore.
  - cbn [sentence map].
    rewrite <- (StreamFacts.append_empty_r first) at 1.
    rewrite split_word_prefix; [|now apply andb_true_iff in Hfirst].
    cbn. now rewrite StreamFacts.append_empty_r.
  - inversion Hmore as [|? ? [Hgap Hword] Hrest]; subst. cbn [fst snd] in *.
    cbn [sentence map snd].
    rewrite split_word_prefix; [|now apply andb_true_iff in Hfirst].
    unfold is_gap in Hgap. apply andb_true_iff in Hgap.
    destruct Hgap as [Hne Hblank].
    destruct gap as [|c gap]; [discriminate|].
    apply blank_cons in Hblank. destruct Hblank as [Hc Hblank].
    cbn [append split_spaces]. rewrite Hc.
    rewrite (split_gap _ _ Hblank).
    destruct (sentence_starts_with_word word more) as [rest Hs].
    rewrite Hs, (split_after_gap _ _ Hword), <- Hs.
    rewrite (IH word Hword Hrest). cbn [hd tl].
    now rewrite StreamFacts.append_empty_r.
Qed.

Lemma trimEnd_word (w : string) : no_space w = true -> trimEnd w = w.
Proof.
  induction w as [|c w IH]; [reflexivity|].
  cbn [no_space]. intros H. apply andb_true_iff in H. destruct H as [Hc Hw].
  apply negb_true_iff in Hc. cbn [trimEnd]. rewrite (IH Hw).
  destruct w; [now rewrite Hc | reflexivity].
Qed.

Lemma trimEnd_before_word (x w : string) :
  is_word w = true -> trimEnd (x ++ w) = x ++ w.
Proof.
  intros Hw. apply andb_true_iff in Hw. destruct Hw as [Hne Hns].
  induction x as [|d x IH]; [now apply trimEnd_word|].
  cbn [append trimEnd]. rewrite IH.
  destruct x; [destruct w; [discriminate|reflexivity] | reflexivity].
Qed.

Lemma trimEnd_blank (s : string) : blank s = true -> trimEnd s = EmptyString.
Proof.
  induction s as [|c s IH]; [reflexivity|].
  intros H. apply blank_cons in H. destruct H as [Hc Hs].
  cbn [trimEnd]. now rewrite (IH Hs), Hc.
Qed.

Lemma trimEnd_drops_blank (x s : string) :
  blank s = true -> trimEnd (x ++ s) = trimEnd x.
Proof.
  intros Hs. induction x as [|d x IH].
  - cbn [append]. now apply trimEnd_blank.
  - cbn [append trimEnd]. now rewrite IH.
Qed.

Lemma sentence_ends_with_word (more : list (string * string)) :
  forall first,
    is_word first = true -> well_formed more ->
    exists pre last, sentence first more = pre ++ last /\ is_word last = true.
Proof.
  induction more as [|[gap word] more IH]; intros first Hfirst Hmore.
  - now exists EmptyString, first.
  - inversion Hmore as [|? ? [_ Hword] Hrest]; subst. cbn [snd] in Hword.
    destruct (IH word Hword Hrest) as (pre & last & Hs & Hlast).
    exists (first ++ gap ++ pre), last. split; [|exact Hlast].
    cbn [sentence]. now rewrite Hs, !StreamFacts.append_assoc.
Qed.

(** The command line of an argument made of words: trimming leaves the
    sentence, and its pieces are [/model] and the words. *)
Lemma command_line_parts (lead trail word : string)
    (more : list (string * string)) :
  blank lead = true -> blank trail = true ->
  is_word word = true -> well_formed more ->
  split_spaces false
    (trim (command_line (lead ++ sentence word more ++ trail))) =
  "/model" :: word :: map snd more.
Proof.
  intros Hlead Htrail Hword Hmore.
  assert (well_formed ((" " ++ lead, word) :: more)) as Hwf.
  { constructor; [|exact Hmore]. cbn [fst snd]. split; [|exact Hword].
    unfold is_gap. cbn [append truthy andb]. unfold blank.
    cbn [trimStart]. exact Hlead. }
  assert (command_line (lead ++ sentence word more ++ trail) =
          sentence "/model" ((" " ++ lead, word) :: more) ++ trail) as Hline.
  { unfold command_line. cbn [sentence].
    change "/model " with ("/model" ++ " ").
    now rewrite !StreamFacts.append_assoc. }
  rewrite Hline. unfold trim.
  assert (trimStart (sentence "/model" ((" " ++ lead, word) :: more) ++ trail)
          = sentence "/model" ((" " ++ lead, word) :: more) ++ trail) as ->
    by reflexivity.
  rewrite (trimEnd_drops_blank _ _ Htrail).
  destruct (sentence_ends_with_word _ "/model" eq_refl Hwf)
    as (pre & last & Hs & Hlast).
  rewrite Hs, (trimEnd_before_word _ _ Hlast), <- Hs.
  now rewrite (split_sentence _ "/model" eq_refl Hwf).
Qed.

End CommandFacts.

(** X28: the [/model] command line is read word by word.  An argument of
    white space only (or none) means [list].  Otherwise the first word
    decides: [list], [auto] and [manual] select themselves, [info] takes
    the remaining words as the model name, and any other first word makes
    the whole argument the name of the model to switch to.  In a name the
    words are joined by single blanks, whatever white space separated
    them, and white space around the argument is ignored. *)
Theorem parseModelCommand_words :
  forall (lead trail word : string) (more : list (string * string)),
    blank lead = true -> blank trail = true ->
    CommandWords.is_word word = true -> CommandWords.well_formed more ->
    let parsed :=
      ModelCommand.parseModelCommand
        (ModelCommand.command_line
           (lead ++ CommandWords.sentence word more ++ trail)) in
    ModelCommand.parseModelCommand (ModelCommand.command_line lead) =
      {| ModelCommand.action := Some ModelCommand.list_action;
         ModelCommand.modelName := None |} /\
    (~ In word CommandWords.keywords ->
     parsed = {| ModelCommand.action := Some ModelCommand.switch_action;
                 ModelCommand.modelName :=
                   Some (join " " (word :: map snd more)) |}) /\
    (word = "info" ->
     parsed = {| ModelCommand.action := Some ModelCommand.info_action;
                 ModelCommand.modelName := Some (join " " (map snd more)) |}) /\
    (word = "list" ->
     parsed = {| ModelCommand.action := Some ModelCommand.list_action;
                 ModelCommand.modelName := None |}) /\
    (word = "auto" ->
     parsed = {| ModelCommand.action := Some ModelCommand.auto_action;
                 ModelCommand.modelName := None |}) /\
    (word = "manual" ->
     parsed = {| ModelCommand.action := Some ModelCommand.manual_action;
                 ModelCommand.modelName := None |}).
Proof.
  intros lead trail word more Hlead Htrail Hword Hmore parsed.
  split.
  - unfold ModelCommand.parseModelCommand, ModelCommand.command_line.
    change "/model " with ("/model" ++ " ").
    rewrite StreamFacts.append_assoc. unfold AdapterFormat.trim.
    assert (trimStart ("/model" ++ " " ++ lead) = "/model" ++ " " ++ lead)
      as -> by reflexivity.
    rewrite CommandFacts.trimEnd_drops_blank; [reflexivity|].
    unfold blank. cbn [append trimStart]. exact Hlead.
  - unfold parsed, ModelCommand.parseModelCommand.
    rewrite (CommandFacts.command_line_parts lead trail word more
               Hlead Htrail Hword Hmore).
    cbn [nth skipn].
    split; [|split; [|split; [|split]]].
    + intros Hother.
      assert (forall k, In k CommandWords.keywords ->
                        String.eqb word k = false) as Hk.
      { intros k Hin. apply String.eqb_neq. intros ->. now apply Hother. }
      rewrite (Hk "list"), (Hk "info"), (Hk "auto"), (Hk "manual");
        cbn; tauto.
    + intros ->. reflexivity.
    + intros ->. reflexivity.
    + intros ->. reflexivity.
    + intros ->. reflexivity.
Qed.

Lemma parseModelCommand_words_witness :
  ModelCommand.parseModelCommand
    (ModelCommand.command_line "  info GPT-OSS    20B ") =
  {| ModelCommand.action := Some ModelCommand.info_action;
     ModelCommand.modelName := Some "GPT-OSS 20B" |}.
Proof.
  exact (proj1 (proj2 (proj2
           (parseModelCommand_words "  " " " "info"
              [(" ", "GPT-OSS"); ("    ", "20B")]
              eq_refl eq_refl eq_refl
              ltac:(repeat constructor)))) eq_refl).
Defined.

(** ** The manual override *)

(** X29: the manual override of [recommend] applies exactly when the user
    asked for manual mode and named a non-empty preferred model that is
    both in the available set and the name of a catalog entry; the
    recommendation is then a catalog entry of that name, at confidence 1,
    for the classified task.  A preferred model that is installed but not
    in the catalog is passed over, and the selection is automatic. *)
Theorem manual_override_iff_preferred_known :
  forall (ctx : ModelSelectionContext) (prefs : UserPreferences)
         (preferred : string),
    userPreferences ctx = Some prefs ->
    mode prefs = manual_mode ->
    preferredModel prefs = Some preferred ->
    let t := ModelSelectionService.task_of ctx in
    let avail := ModelSelectionService.available_or_catalog ctx in
    (ModelSelectionService.manual_override ctx t avail <> None <->
     preferred <> EmptyString /\ In preferred avail /\
     exists m, In m MODEL_CATALOG /\ name m = preferred) /\
    (forall r, ModelSelectionService.manual_override ctx t avail = Some r ->
       ModelSelectionService.recommend ctx = Ok r /\
       In (model r) MODEL_CATALOG /\ name (model r) = preferred /\
       confidence r = 1.0 /\ taskType r = t /\
       reasoning_text r =
         "Using your preferred model: " ++ displayName (model r)) /\
    ((forall m, In m MODEL_CATALOG -> name m <> preferred) ->
     ModelSelectionService.recommend ctx =
       ModelSelectionService.auto_select ctx t avail (recommendModel t avail)).
Proof.
  intros ctx prefs preferred Hprefs Hmode Hpref t avail.
  assert (ModelSelectionService.manual_override ctx t avail =
          if (truthy preferred && array_includes avail preferred)%bool then
            match find (fun m => String.eqb (name m) preferred) MODEL_CATALOG with
            | Some pm =>
                Some {| model := pm; taskType := t; confidence := 1.0;
                        reasoning_text := "Using your preferred model: " ++
                                          displayName pm;
                        alternatives :=
                          ModelSelectionService.getAlternatives pm t avail |}
            | None => None
            end
          else None) as Hstep.
  { unfold ModelSelectionService.manual_override.
    now rewrite Hprefs, Hmode, Hpref. }
  split; [|split].
  - rewrite Hstep. split.
    + intros H.
      destruct (truthy preferred && array_includes avail preferred)%bool eqn:Hc;
        [|contradiction].
      apply andb_true_iff in Hc. destruct Hc as [Hne Hav].
      destruct (find _ MODEL_CATALOG) as [pm|] eqn:Hf; [|contradiction].
      apply find_some in Hf. destruct Hf as [Hcat Hname].
      apply String.eqb_eq in Hname.
      split; [intros ->; discriminate|].
      split; [now apply array_includes_In|]. now exists pm.
    + intros (Hne & Hav & m & Hcat & Hname).
      apply array_includes_In in Hav. rewrite Hav.
      destruct preferred; [contradiction|]. cbn [truthy andb].
      destruct (find _ MODEL_CATALOG) as [pm|] eqn:Hf; [discriminate|].
      exfalso. rewrite CatalogFacts.find_none_iff in Hf.
      specialize (Hf m Hcat). cbv beta in Hf. rewrite Hname in Hf.
      now rewrite String.eqb_refl in Hf.
  - intros r Hr. split.
    + unfold ModelSelectionService.recommend. fold t avail. now rewrite Hr.
    + rewrite Hstep in Hr.
      destruct (truthy preferred && array_includes avail preferred)%bool;
        [|discriminate].
      destruct (find _ MODEL_CATALOG) as [pm|] eqn:Hf; [|discriminate].
      injection Hr as <-. cbn. apply find_some in Hf.
      destruct Hf as [Hcat Hname]. apply String.eqb_eq in Hname.
      repeat split; assumption.
  - intros Hunknown. unfold ModelSelectionService.recommend. fold t avail.
    rewrite Hstep.
    destruct (truthy preferred && array_includes avail preferred)%bool;
      [|reflexivity].
    destruct (find _ MODEL_CATALOG) as [pm|] eqn:Hf; [|reflexivity].
    apply find_some in Hf. destruct Hf as [Hcat Hname].
    apply String.eqb_eq in Hname. now elim (Hunknown pm Hcat).
Qed.

Lemma manual_override_iff_preferred_known_witness :
  exists prefs r,
    userPreferences SelectionSamples.manual_context = Some prefs /\
    mode prefs = manual_mode /\
    preferredModel prefs = Some "phi3:mini" /\
    ModelSelectionService.recommend SelectionSamples.manual_context = Ok r /\
    name (model r) = "phi3:mini" /\ confidence r = 1.0.
Proof.
  eexists. eexists.
  split; [reflexivity|]. split; [reflexivity|]. split; [reflexivity|].
  destruct (proj1 (proj2 (manual_override_iff_preferred_known
                            SelectionSamples.manual_context _ "phi3:mini"
                            eq_refl eq_refl eq_refl))
                  _ ltac:(vm_compute; reflexivity))
    as (Hrec & _ & Hname & Hconf & _).
  split; [exact Hrec|]. split; [exact Hname | exact Hconf].
Defined.
